(** * project-struct-cli: the ignore-aware walker and the document builders

  A shallow embedding of the Go program (package [main], package
  [builder], package [templates]) together with the parts of the Go
  standard library it leans on ([strings.Split], [path/filepath],
  [fmt.Sprintf] with the verb [%4d], [filepath.WalkDir]).

  Strings are Go byte strings; [int64] values are integers in [Z] with
  the wrap-around of two's complement written out; the matcher cache is
  a finite map from directory names to (possibly nil) matchers. *)

From Stdlib Require Import ZArith String Ascii List Lia Bool DecimalString.
From stdpp Require Import base option gmap strings list.
From Equations Require Import Equations.

Open Scope string_scope.
Open Scope list_scope.

Set Warnings "-register-all".

(** ** Package [strings] *)

Module Strings.

(** One pass of [strings.Split] for a one-byte separator: the text before
    the first separator, and the remaining fields. *)
Fixpoint cut (sep : ascii) (s : string) : string * list string :=
  match s with
  | EmptyString => (EmptyString, [])
  | String c r =>
      let '(h, t) := cut sep r in
      if Ascii.eqb c sep then (EmptyString, h :: t) else (String c h, t)
  end.

(** [strings.Split(s, sep)] where [sep] is a single byte (the program
    splits on a newline and on a comma only). *)
Definition Split (s : string) (sep : ascii) : list string :=
  let '(h, t) := cut sep s in h :: t.

(** [strings.Count(s, sep)] for a one-byte separator. *)
Fixpoint Count (s : string) (sep : ascii) : nat :=
  match s with
  | EmptyString => 0
  | String c r => (if Ascii.eqb c sep then 1 else 0) + Count r sep
  end.

(** [strings.Join(elems, sep)]. *)
Fixpoint Join (elems : list string) (sep : string) : string :=
  match elems with
  | [] => EmptyString
  | [e] => e
  | e :: rest => e +:+ sep +:+ Join rest sep
  end.

(** The line feed, which Go writes as a backslash followed by [n]. *)
Definition newline : ascii := "010"%char.

(** [strings.Repeat(" ", n)]. *)
Fixpoint spaces (n : nat) : string :=
  match n with
  | O => EmptyString
  | S k => String " " (spaces k)
  end.

End Strings.

(** ** Package [path/filepath] on a Unix host *)

Module Filepath.

Definition Separator : ascii := "/"%char.

Definition IsPathSeparator (c : ascii) : bool := Ascii.eqb c Separator.

(** What the backwards loop of [filepath.Ext] knows about a suffix. *)
Inductive extScan :=
| Undecided              (* neither a dot nor a separator so far *)
| NoExt                  (* a separator came first *)
| Found (e : string).    (* the final dot of the last element *)

Fixpoint scanExt (path : string) : extScan :=
  match path with
  | EmptyString => Undecided
  | String c r =>
      match scanExt r with
      | Undecided =>
          if Ascii.eqb c "."%char then Found path
          else if IsPathSeparator c then NoExt
          else Undecided
      | decided => decided
      end
  end.

(** [filepath.Ext]: the suffix beginning at the final dot in the final
    element of the path, empty if there is no dot. *)
Definition Ext (path : string) : string :=
  match scanExt path with
  | Found e => e
  | _ => EmptyString
  end.

(** One element of the path handled by [filepath.Clean]; the stack holds
    the elements kept so far, the last one first. *)
Definition cleanStep (rooted : bool) (stack : list string) (c : string)
  : list string :=
  if String.eqb c "" || String.eqb c "." then stack
  else if String.eqb c ".." then
    match stack with
    | top :: rest => if String.eqb top ".." then c :: stack else rest
    | [] => if rooted then [] else [c]
    end
  else c :: stack.

Definition isRooted (path : string) : bool :=
  match path with
  | String c _ => IsPathSeparator c
  | EmptyString => false
  end.

(** [filepath.Clean], by its documented rules: separators are collapsed,
    [.] elements dropped, inner [..] elements cancel the element before
    them, [..] at the start of a rooted path is dropped, and the empty
    result is [.]. *)
Definition Clean (path : string) : string :=
  let rooted := isRooted path in
  let stack := fold_left (cleanStep rooted) (Strings.Split path Separator) [] in
  let body := Strings.Join (rev stack) "/" in
  if rooted then "/" +:+ body
  else match stack with [] => "." | _ => body end.

(** [path[:i+1]] for [i] the index of the last separator ([""] if none). *)
Fixpoint uptoLastSep (path : string) : string :=
  match path with
  | EmptyString => EmptyString
  | String c r =>
      match uptoLastSep r with
      | EmptyString => if IsPathSeparator c then String c EmptyString else EmptyString
      | p => String c p
      end
  end.

(** [filepath.Dir]. *)
Definition Dir (path : string) : string := Clean (uptoLastSep path).

(** [filepath.Join] of two elements. *)
Definition Join (a b : string) : string :=
  if String.eqb a "" then
    if String.eqb b "" then "" else Clean b
  else Clean (a +:+ "/" +:+ b).

(** [filepath.Base]. *)
Definition Base (path : string) : string :=
  if String.eqb path "" then "."
  else
    match List.filter (fun c => negb (String.eqb c "")) (Strings.Split path Separator) with
    | [] => "/"
    | c :: cs => List.last cs c
    end.

End Filepath.


(** ** Package [fmt]: the verb [%4d] *)

(** A value together with the proof that it is the value of [a]: lets a
    definition by cases remember which case it is in. *)
Definition inspect {A} (a : A) : {b : A | a = b} := exist _ a eq_refl.

Module Fmt.

(** The character of a digit: ['0' + z]. *)
Definition digit (z : Z) : ascii := ascii_of_nat (Z.to_nat (48 + z)).

Lemma log2_tenth z :
  (10 <= z)%Z -> Z.to_nat (Z.log2 (z / 10)) < Z.to_nat (Z.log2 z).
Proof.
  intros Hz.
  assert (Hq : (0 < z / 10)%Z) by (apply Z.div_str_pos; lia).
  assert (Hk : (3 <= Z.log2 z)%Z) by (apply (Z.log2_le_mono 8 z); lia).
  apply Z2Nat.inj_lt; [apply Z.log2_nonneg | lia |].
  apply Z.log2_lt_pow2; [exact Hq|].
  destruct (Z.log2_spec z) as [_ Hup]; [lia|].
  apply Z.div_lt_upper_bound; [lia|].
  rewrite Z.pow_succ_r in Hup by lia. lia.
Qed.

(** The loop of [%d] on a non-negative integer: the last digit is put in
    front of what is already written, and the loop goes on with the tenth. *)
Equations? digits (z : Z) (acc : string) : string by wf (Z.to_nat (Z.log2 z)) lt :=
digits z acc with inspect (z <? 10)%Z := {
  | exist _ true _ => String (digit z) acc
  | exist _ false Hge => digits (z / 10) (String (digit (z mod 10)) acc) }.
Proof. apply log2_tenth, Z.ltb_ge, Hge. Qed.

(** [%d]. *)
Definition decimal (z : Z) : string :=
  if (z <? 0)%Z then String "-" (digits (- z) "") else digits z "".

(** Padding on the left with spaces up to a minimum width: a text that is
    already wider is left as it is. *)
Definition padLeft (width : nat) (s : string) : string :=
  Strings.spaces (width - String.length s) +:+ s.

(** [fmt.Sprintf("%4d", z)]. *)
Definition d4 (z : Z) : string := padLeft 4 (decimal z).

End Fmt.

(** ** Machine integers *)

Definition maxInt64 : Z := 2 ^ 63 - 1.
Definition minInt64 : Z := - 2 ^ 63.

(** The value an [int64] holds after an operation whose exact result is [z]. *)
Definition wrap64 (z : Z) : Z := (z + 2 ^ 63) mod 2 ^ 64 - 2 ^ 63.
Definition add64 (a b : Z) : Z := wrap64 (a + b).
Definition mul64 (a b : Z) : Z := wrap64 (a * b).

(** ** Go [error] values the program creates or passes on *)

Inductive error :=
| SkipDir                                   (* filepath.SkipDir *)
| TotalSizeLimitExceeded (limit : Z)        (* "total size limit of ... MB exceeded" *)
| UnknownFormat (format : string)           (* "unknown format: ..." *)
| ReadTemplateFailed (path : string) (cause : error)
| ParseTemplateFailed (cause : error)
| NilDereference                            (* a run-time panic *)
| External (msg : string).                  (* an error of the host system *)

Definition isSkipDir (e : error) : bool :=
  match e with SkipDir => true | _ => false end.

Inductive result (A : Type) :=
| Ok (a : A)
| Err (e : error).
Arguments Ok {A} a.
Arguments Err {A} e.

(** ** Package [templates] *)

Module Templates.

(** [FileData]: the contents of one source file. *)
Record FileData := {
  Path : string;
  Content : string;
  Language : string
}.

(** The project summary: the snapshots of the source disagree on its type
    (a text in [DefaultBuilder] and [TemplateData], a [FileData] in
    [ReviewBuilder] and [LLMBuilder]); both shapes are kept. *)
Inductive Summary :=
| SummaryText (s : string)
| SummaryFile (f : FileData).

Record TemplateData := {
  ProjectName : string;
  ProjectSummary : Summary;
  Files : list FileData
}.

(** [ReviewFileData], declared in package [builder]. *)
Record ReviewFileData := {
  RPath : string;
  RLanguage : string;
  Lines : list string
}.

(** The anonymous struct [ReviewBuilder.Build] hands to the template. *)
Record ReviewTemplateData := {
  RProjectName : string;
  RProjectSummary : FileData;
  RFiles : list ReviewFileData
}.

(** The [data any] argument of a template execution, for the shapes the
    builders pass: the two of package [builder], and the [TemplateData] of
    [MarkdownBuilder] in package [main], which has a name and files only. *)
Inductive TemplateInput :=
| Plain (d : TemplateData)
| Numbered (d : ReviewTemplateData)
| Bare (projectName : string) (files : list FileData).

(** [type TemplatePath string] and its three constants. *)
Definition TemplatePath := string.
Definition Review : TemplatePath := "review.md.tmpl".
Definition Default : TemplatePath := "default.md.tmpl".
Definition LLM : TemplatePath := "llm.txt.tmpl".

(** A parsed template, as the function [tmpl.Execute] computes. *)
Definition Template := TemplateInput -> result string.

(** The embedded file system and the template parser of [text/template]. *)
Record Engine := {
  TemplatesFS : string -> result string;
  Parse : string -> string -> result Template
}.

Definition ExecuteTemplate (eng : Engine) (templatePath : TemplatePath)
  (data : TemplateInput) : result string :=
  match TemplatesFS eng templatePath with
  | Err e => Err (ReadTemplateFailed templatePath e)
  | Ok templateBytes =>
      match Parse eng (Filepath.Base templatePath) templateBytes with
      | Err e => Err (ParseTemplateFailed e)
      | Ok tmpl => tmpl data
      end
  end.

End Templates.

Import Templates.

(** ** Package [builder] *)

Module ReviewBuilder.

Record t := {
  projectName : string;
  projectSummary : FileData;
  files : list FileData
}.

Definition emptyFile : FileData := {| Path := ""; Content := ""; Language := "" |}.

Definition New : t := {| projectName := ""; projectSummary := emptyFile; files := [] |}.

Definition SetProjectName (name : string) (b : t) : t :=
  {| projectName := name; projectSummary := projectSummary b; files := files b |}.

Definition SetSummary (summary : FileData) (b : t) : t :=
  {| projectName := projectName b; projectSummary := summary; files := files b |}.

Definition AddFile (file : FileData) (b : t) : t :=
  {| projectName := projectName b; projectSummary := projectSummary b;
     files := files b ++ [file] |}.

(** The inner loop of [Build]: [fmt.Sprintf("%4d: %s", i+1, line)] appended
    for each [i, line] of [lines], the index counted from [i]. (An index
    into a slice is below the largest [int], so [i+1] does not wrap.) *)
Fixpoint numberFrom (i : Z) (lines : list string) : list string :=
  match lines with
  | [] => []
  | line :: rest => (Fmt.d4 (i + 1) +:+ ": " +:+ line) :: numberFrom (i + 1) rest
  end.

Definition numberedLines (content : string) : list string :=
  numberFrom 0 (Strings.Split content Strings.newline).

Definition reviewFile (file : FileData) : ReviewFileData :=
  {| RPath := Path file; RLanguage := Language file;
     Lines := numberedLines (Content file) |}.

(** The data [Build] passes to the template. *)
Definition templateData (b : t) : ReviewTemplateData :=
  {| RProjectName := projectName b;
     RProjectSummary := projectSummary b;
     RFiles := map reviewFile (files b) |}.

Definition Build (eng : Engine) (b : t) : result string :=
  ExecuteTemplate eng Templates.Review (Numbered (templateData b)).

End ReviewBuilder.

Module LLMBuilder.

Record t := {
  projectName : string;
  projectSummary : FileData;
  files : list FileData
}.

Definition New : t :=
  {| projectName := ""; projectSummary := ReviewBuilder.emptyFile; files := [] |}.

Definition SetProjectName (name : string) (b : t) : t :=
  {| projectName := name; projectSummary := projectSummary b; files := files b |}.

Definition SetSummary (summary : FileData) (b : t) : t :=
  {| projectName := projectName b; projectSummary := summary; files := files b |}.

Definition AddFile (file : FileData) (b : t) : t :=
  {| projectName := projectName b; projectSummary := projectSummary b;
     files := files b ++ [file] |}.

Definition Build (eng : Engine) (b : t) : result string :=
  ExecuteTemplate eng Templates.LLM
    (Plain {| ProjectName := projectName b;
              ProjectSummary := SummaryFile (projectSummary b);
              Files := files b |}).

End LLMBuilder.

Module DefaultBuilder.

Record t := {
  projectName : string;
  projectSummary : string;
  files : list FileData
}.

Definition New : t := {| projectName := ""; projectSummary := ""; files := [] |}.

Definition SetProjectName (name : string) (b : t) : t :=
  {| projectName := name; projectSummary := projectSummary b; files := files b |}.

Definition SetSummary (summary : string) (b : t) : t :=
  {| projectName := projectName b; projectSummary := summary; files := files b |}.

Definition AddFile (file : FileData) (b : t) : t :=
  {| projectName := projectName b; projectSummary := projectSummary b;
     files := files b ++ [file] |}.

Definition Build (eng : Engine) (b : t) : result string :=
  ExecuteTemplate eng Templates.Default
    (Plain {| ProjectName := projectName b;
              ProjectSummary := SummaryText (projectSummary b);
              Files := files b |}).

End DefaultBuilder.

(** The interface [DocumentBuilder] with its three implementations. *)
Inductive DocumentBuilder :=
| Review_ (b : ReviewBuilder.t)
| LLM_ (b : LLMBuilder.t)
| Default_ (b : DefaultBuilder.t).

Module Builder.

Definition SetProjectName (name : string) (b : DocumentBuilder) : DocumentBuilder :=
  match b with
  | Review_ r => Review_ (ReviewBuilder.SetProjectName name r)
  | LLM_ l => LLM_ (LLMBuilder.SetProjectName name l)
  | Default_ d => Default_ (DefaultBuilder.SetProjectName name d)
  end.

(** Modelled from the spec: the snapshots of the source disagree on the
    argument of [SetSummary] ([run], [ReviewBuilder] and [LLMBuilder] have
    a [FileData], [DefaultBuilder] a text); the default variant renders
    the summary as text, so it is given the content of the record. *)
Definition SetSummary (summary : FileData) (b : DocumentBuilder) : DocumentBuilder :=
  match b with
  | Review_ r => Review_ (ReviewBuilder.SetSummary summary r)
  | LLM_ l => LLM_ (LLMBuilder.SetSummary summary l)
  | Default_ d => Default_ (DefaultBuilder.SetSummary (Content summary) d)
  end.

Definition AddFile (file : FileData) (b : DocumentBuilder) : DocumentBuilder :=
  match b with
  | Review_ r => Review_ (ReviewBuilder.AddFile file r)
  | LLM_ l => LLM_ (LLMBuilder.AddFile file l)
  | Default_ d => Default_ (DefaultBuilder.AddFile file d)
  end.

Definition Build (eng : Engine) (b : DocumentBuilder) : result string :=
  match b with
  | Review_ r => ReviewBuilder.Build eng r
  | LLM_ l => LLMBuilder.Build eng l
  | Default_ d => DefaultBuilder.Build eng d
  end.

(** The files a builder has accumulated (a reading of its private field). *)
Definition files (b : DocumentBuilder) : list FileData :=
  match b with
  | Review_ r => ReviewBuilder.files r
  | LLM_ l => LLMBuilder.files l
  | Default_ d => DefaultBuilder.files d
  end.

End Builder.

(** ** Facts about the path functions

    [filepath.Dir] shortens every path except [.] and [/]: this is what
    makes the resolver's walk up to the parent terminate. *)

Module FilepathFacts.
Import Filepath.

(** The bytes a list of path elements takes once joined, one separator
    counted after each element. *)
Definition weight (l : list string) : nat :=
  list_sum (map (fun c => S (String.length c)) l).

Lemma length_append (a b : string) :
  String.length (a +:+ b) = String.length a + String.length b.
Proof. induction a as [|c a IH]; simpl; [reflexivity | rewrite IH; reflexivity]. Qed.

Lemma weight_app l1 l2 : weight (l1 ++ l2) = weight l1 + weight l2.
Proof. unfold weight. rewrite map_app, list_sum_app. reflexivity. Qed.

Lemma weight_rev l : weight (rev l) = weight l.
Proof.
  induction l as [|c l IH]; [reflexivity|].
  simpl rev. rewrite weight_app, IH. unfold weight. simpl. lia.
Qed.

Lemma weight_Split s sep : weight (Strings.Split s sep) = S (String.length s).
Proof.
  unfold Strings.Split. induction s as [|c r IH]; [reflexivity|].
  simpl. destruct (Strings.cut sep r) as [h t].
  destruct (Ascii.eqb c sep); unfold weight in *; simpl in *; lia.
Qed.

Lemma cut_snoc s sep :
  Strings.cut sep (s +:+ String sep "") =
  (fst (Strings.cut sep s), snd (Strings.cut sep s) ++ [""]).
Proof.
  induction s as [|c r IH]; simpl.
  - rewrite Ascii.eqb_refl. reflexivity.
  - rewrite IH. destruct (Strings.cut sep r) as [h t]. simpl.
    destruct (Ascii.eqb c sep); reflexivity.
Qed.

Lemma Split_snoc s sep :
  Strings.Split (s +:+ String sep "") sep = Strings.Split s sep ++ [""].
Proof.
  unfold Strings.Split. rewrite cut_snoc.
  destruct (Strings.cut sep s) as [h t]. reflexivity.
Qed.

Lemma cleanStep_weight rooted stack c :
  weight (cleanStep rooted stack c) <= weight stack + S (String.length c).
Proof.
  unfold cleanStep.
  destruct (String.eqb c "" || String.eqb c "."); [lia|].
  destruct (String.eqb c "..").
  - destruct stack as [|top rest].
    + destruct rooted; unfold weight; simpl; lia.
    + destruct (String.eqb top ".."); unfold weight; simpl; lia.
  - unfold weight; simpl; lia.
Qed.

Lemma clean_fold_weight rooted l stack :
  weight (fold_left (cleanStep rooted) l stack) <= weight stack + weight l.
Proof.
  revert stack. induction l as [|c l IH]; intros stack; simpl.
  - unfold weight at 3. simpl. lia.
  - specialize (IH (cleanStep rooted stack c)).
    pose proof (cleanStep_weight rooted stack c).
    change (weight (c :: l)) with (S (String.length c) + weight l). lia.
Qed.

Lemma length_Join l :
  l <> [] -> S (String.length (Strings.Join l "/")) = weight l.
Proof.
  induction l as [|c l IH]; [congruence|]. intros _.
  destruct l as [|c' l].
  - unfold weight. simpl. lia.
  - change (Strings.Join (c :: c' :: l) "/") with (c +:+ "/" +:+ Strings.Join (c' :: l) "/").
    rewrite !length_append.
    change (weight (c :: c' :: l)) with (S (String.length c) + weight (c' :: l)).
    rewrite <- IH by congruence. simpl. lia.
Qed.

Lemma uptoLastSep_shape p :
  uptoLastSep p = "" \/ exists y, uptoLastSep p = y +:+ "/".
Proof.
  induction p as [|c r IH]; [left; reflexivity|].
  simpl. destruct IH as [-> | [y Hy]].
  - destruct (IsPathSeparator c) eqn:Hc; [|left; reflexivity].
    right. exists "". apply Ascii.eqb_eq in Hc. subst c. reflexivity.
  - right. exists (String c y). rewrite Hy.
    destruct y; reflexivity.
Qed.

Lemma uptoLastSep_length p : String.length (uptoLastSep p) <= String.length p.
Proof.
  induction p as [|c r IH]; [reflexivity|].
  simpl. destruct (uptoLastSep r) eqn:E.
  - destruct (IsPathSeparator c); simpl; lia.
  - simpl in *. lia.
Qed.

Lemma fold_clean_nil rooted l :
  fold_left (cleanStep rooted) (l ++ [""]) [] = fold_left (cleanStep rooted) l [].
Proof. rewrite fold_left_app. reflexivity. Qed.

Lemma Clean_dir_prefix y :
  Clean (y +:+ "/") = "." \/ Clean (y +:+ "/") = "/" \/
  String.length (Clean (y +:+ "/")) < String.length (y +:+ "/").
Proof.
  unfold Clean.
  change (y +:+ "/") with (y +:+ String Separator "").
  rewrite Split_snoc, fold_clean_nil, length_append.
  set (rooted := isRooted (y +:+ String Separator "")).
  pose proof (clean_fold_weight rooted (Strings.Split y Separator) []) as Hw.
  rewrite weight_Split in Hw. change (weight []) with 0 in Hw.
  destruct (fold_left (cleanStep rooted) (Strings.Split y Separator) []) as [|c st] eqn:Est.
  - destruct rooted; [right; left|left]; reflexivity.
  - assert (Hj : S (String.length (Strings.Join (rev (c :: st)) "/")) = weight (c :: st)).
    { rewrite length_Join, weight_rev; [reflexivity|].
      simpl. intros E. apply app_eq_nil in E. destruct E; discriminate. }
    destruct rooted eqn:Hr.
    + right; right. destruct y as [|a z].
      * simpl in Est. discriminate.
      * subst rooted. simpl in Hr.
        unfold Strings.Split in Est, Hw. simpl in Est.
        pose proof (weight_Split z Separator) as Hz. unfold Strings.Split in Hz.
        destruct (Strings.cut Separator z) as [h t].
        unfold IsPathSeparator in Hr. rewrite Hr in Est.
        change (fold_left (cleanStep true) ("" :: h :: t) [])
          with (fold_left (cleanStep true) (h :: t) []) in Est.
        pose proof (clean_fold_weight true (h :: t) []) as Hw'.
        rewrite Est, Hz in Hw'. change (weight []) with 0 in Hw'.
        rewrite length_append. simpl in *. lia.
    + right; right. simpl in *. lia.
Qed.

Lemma Dir_shrinks d :
  Dir d = "." \/ Dir d = "/" \/ String.length (Dir d) < String.length d.
Proof.
  unfold Dir. pose proof (uptoLastSep_length d) as Hl.
  destruct (uptoLastSep_shape d) as [-> | [y Hy]].
  - left. reflexivity.
  - rewrite Hy in *. destruct (Clean_dir_prefix y) as [H | [H | H]]; auto.
    right; right. lia.
Qed.

End FilepathFacts.

Import FilepathFacts.

(** ** The host system *)

(** [ignore.IgnoreParser]: a compiled set of exclusion patterns. *)
Record IgnoreParser := { MatchesPath : string -> bool }.

(** A directory entry as [filepath.WalkDir] meets it: a file with the
    result of [d.Info()] (its size, or a failure), or a directory with the
    result of [os.ReadDir] (the entries read, and the error if any). *)
Inductive Entry :=
| File (name : string) (info : option Z)
| Directory (name : string) (entries : list Entry) (readErr : option error).

Definition Name (d : Entry) : string :=
  match d with File n _ => n | Directory n _ _ => n end.

Definition IsDir (d : Entry) : bool :=
  match d with File _ _ => false | Directory _ _ _ => true end.

(** What the program asks of the operating system and of the libraries
    outside this repository. *)
Record Env := {
  Stat : string -> bool;                              (* os.Stat succeeded *)
  CompileIgnoreFile : string -> option IgnoreParser;  (* go-gitignore *)
  CompileIgnoreLines : list string -> IgnoreParser;
  ReadFile : string -> option string;                 (* os.ReadFile *)
  Lstat : string -> result Entry;                     (* os.Lstat, with the tree below *)
  Rel : string -> string -> option string;            (* filepath.Rel *)
  engine : Engine;                                    (* text/template, embed *)
  Copy : string -> string * option error              (* io.Copy to the output *)
}.

(** ** Package [main]: the generator *)

(** The fixed set of binary and archive extensions. *)
Definition binaryExts : list string :=
  [".exe"; ".dll"; ".so"; ".a"; ".lib"; ".o";
   ".zip"; ".gz"; ".tar"; ".rar"; ".7z";
   ".png"; ".jpg"; ".jpeg"; ".gif"; ".bmp"; ".ico";
   ".pdf"; ".doc"; ".docx"; ".xls"; ".xlsx"; ".ppt"; ".pptx"].

Definition isBinaryExt (ext : string) : bool :=
  existsb (String.eqb ext) binaryExts.

Definition getFileLanguage (path : string) : string :=
  let ext := Filepath.Ext path in
  if String.eqb ext ".go" then "go"
  else if String.eqb ext ".js" then "javascript"
  else if String.eqb ext ".ts" then "typescript"
  else if String.eqb ext ".py" then "python"
  else if String.eqb ext ".md" then "markdown"
  else if String.eqb ext ".json" then "json"
  else if String.eqb ext ".html" then "html"
  else if String.eqb ext ".css" then "css"
  else if String.eqb ext ".yaml" || String.eqb ext ".yml" then "yaml"
  else if String.eqb ext ".sh" then "shell"
  else "".

Record Generator := {
  builder : DocumentBuilder;
  cliIgnoreMatcher : option IgnoreParser;
  srcDir : string;
  maxSizeBytes : Z;
  totalSizeLimit : Z;
  currentTotalSize : Z;
  matcherCache : gmap string (option IgnoreParser)
}.

(** What [log.Printf] is called with. *)
Inductive LogLine :=
| SkippingBinary (path : string)
| NoFileInfo (path : string)
| SkippingLarge (path : string) (size : Z)
| CouldNotRead (path : string).

(** The calls the program makes to the outside, in the order made. *)
Inductive Event :=
| EvPrint (msg : string)               (* fmt.Printf *)
| EvStat (path : string)               (* os.Stat *)
| EvCompile (path : string)            (* ignore.CompileIgnoreFile *)
| EvInfo (path : string)               (* d.Info() *)
| EvReadFile (path : string)           (* os.ReadFile *)
| EvLog (line : LogLine).              (* log.Printf *)

(** The generator, which the walk mutates in place, and the trace of the
    calls made so far (oldest first). *)
Record State := {
  gen : Generator;
  trace : list Event
}.

Definition M (A : Type) : Type := State -> A * State.

#[global] Instance M_ret : MRet M := fun A a s => (a, s).
#[global] Instance M_bind : MBind M :=
  fun A B f m s => let '(a, s') := m s in f a s'.

Definition emit (ev : Event) : M unit :=
  fun s => (tt, {| gen := gen s; trace := trace s ++ [ev] |}).

Definition getGen : M Generator := fun s => (gen s, s).

Definition setGen (g : Generator) : M unit :=
  fun s => (tt, {| gen := g; trace := trace s |}).

Definition setCache (dir : string) (m : option IgnoreParser) (g : Generator) : Generator :=
  {| builder := builder g; cliIgnoreMatcher := cliIgnoreMatcher g;
     srcDir := srcDir g; maxSizeBytes := maxSizeBytes g;
     totalSizeLimit := totalSizeLimit g; currentTotalSize := currentTotalSize g;
     matcherCache := <[dir := m]> (matcherCache g) |}.

(** [g.matcherCache[dir] = m]. *)
Definition cacheMatcher (dir : string) (m : option IgnoreParser) (s : State) : State :=
  {| gen := setCache dir m (gen s); trace := trace s |}.

(** [g.currentTotalSize += size; g.builder.AddFile(file)]. *)
Definition accept (size : Z) (file : FileData) (g : Generator) : Generator :=
  {| builder := Builder.AddFile file (builder g);
     cliIgnoreMatcher := cliIgnoreMatcher g;
     srcDir := srcDir g; maxSizeBytes := maxSizeBytes g;
     totalSizeLimit := totalSizeLimit g;
     currentTotalSize := add64 (currentTotalSize g) size;
     matcherCache := matcherCache g |}.

(** Options of [NewGenerator]. *)
Definition Option_ := Generator -> Generator.

Definition WithCliIgnore (env : Env) (patterns : string) : Option_ := fun g =>
  if String.eqb patterns "" then g
  else
    let lines := Strings.Split patterns ","%char in
    {| builder := builder g;
       cliIgnoreMatcher := Some (CompileIgnoreLines env lines);
       srcDir := srcDir g; maxSizeBytes := maxSizeBytes g;
       totalSizeLimit := totalSizeLimit g; currentTotalSize := currentTotalSize g;
       matcherCache := matcherCache g |}.

Definition WithBuilder (b : DocumentBuilder) : Option_ := fun g =>
  {| builder := b; cliIgnoreMatcher := cliIgnoreMatcher g;
     srcDir := srcDir g; maxSizeBytes := maxSizeBytes g;
     totalSizeLimit := totalSizeLimit g; currentTotalSize := currentTotalSize g;
     matcherCache := matcherCache g |}.

Definition WithSrcDir (dir : string) : Option_ := fun g =>
  {| builder := builder g; cliIgnoreMatcher := cliIgnoreMatcher g;
     srcDir := dir; maxSizeBytes := maxSizeBytes g;
     totalSizeLimit := totalSizeLimit g; currentTotalSize := currentTotalSize g;
     matcherCache := matcherCache g |}.

Definition WithMaxSize (kb : Z) : Option_ := fun g =>
  {| builder := builder g; cliIgnoreMatcher := cliIgnoreMatcher g;
     srcDir := srcDir g; maxSizeBytes := mul64 kb 1024;
     totalSizeLimit := totalSizeLimit g; currentTotalSize := currentTotalSize g;
     matcherCache := matcherCache g |}.

Definition WithTotalSizeLimit (mb : Z) : Option_ := fun g =>
  {| builder := builder g; cliIgnoreMatcher := cliIgnoreMatcher g;
     srcDir := srcDir g; maxSizeBytes := maxSizeBytes g;
     totalSizeLimit := mul64 (mul64 mb 1024) 1024;
     currentTotalSize := currentTotalSize g;
     matcherCache := matcherCache g |}.

(** [NewGenerator]: the zero generator with an empty cache, then each
    option applied in turn. The zero value of the interface field
    [builder] is nil; the program always sets it, and the model starts from
    an empty default builder. A generator built without [WithBuilder], on
    which the first [AddFile] of a walk would panic, is therefore outside
    the model. *)
Definition NewGenerator (opts : list Option_) : Generator :=
  fold_left (fun g opt => opt g) opts
    {| builder := Default_ DefaultBuilder.New; cliIgnoreMatcher := None;
       srcDir := ""; maxSizeBytes := 0; totalSizeLimit := 0;
       currentTotalSize := 0; matcherCache := ∅ |}.

(** *** [findMatcherForDir] *)

(** Step 2: look for a [.gitignore] in [dir]; a file that is missing or
    does not compile gives nothing. *)
Definition lookForIgnoreFile (env : Env) (dir : string) : M (option IgnoreParser) :=
  let ignorePath := Filepath.Join dir ".gitignore" in
  _ ← emit (EvStat ignorePath);
  if Stat env ignorePath then
    _ ← emit (EvCompile ignorePath);
    mret (CompileIgnoreFile env ignorePath)
  else mret None.

(** Step 3: [dir == g.srcDir || dir == "." || dir == "/"]. *)
Definition isScanRoot (src dir : string) : bool :=
  String.eqb dir src || String.eqb dir "." || String.eqb dir "/".

Definition atScanRoot (g : Generator) (dir : string) : bool :=
  isScanRoot (srcDir g) dir.

(** The recursion on the parent goes down in this measure: [filepath.Dir]
    shortens every path but the two it leaves fixed. *)
Definition dirMeasure (dir : string) : nat :=
  if String.eqb dir "." || String.eqb dir "/" then 0 else S (String.length dir).

Lemma dirMeasure_Dir src dir :
  isScanRoot src dir = false -> dirMeasure (Filepath.Dir dir) < dirMeasure dir.
Proof.
  unfold isScanRoot, dirMeasure. intros H.
  apply orb_false_elim in H as [H H2]. apply orb_false_elim in H as [_ H1].
  rewrite H1, H2. simpl.
  destruct (Dir_shrinks dir) as [-> | [-> | Hlt]]; simpl; try lia.
  destruct (_ || _); lia.
Qed.

Equations? findMatcherForDir (env : Env) (dir : string) (s : State)
  : option IgnoreParser * State by wf (dirMeasure dir) lt :=
findMatcherForDir env dir s with inspect (matcherCache (gen s) !! dir) := {
  | exist _ (Some matcher) _ => (matcher, s)
  | exist _ None _ with inspect (lookForIgnoreFile env dir s) := {
    | exist _ (Some matcher, s1) _ => (Some matcher, cacheMatcher dir (Some matcher) s1)
    | exist _ (None, s1) _ with inspect (atScanRoot (gen s1) dir) := {
      | exist _ true _ => (None, cacheMatcher dir None s1)
      | exist _ false Hup with findMatcherForDir env (Filepath.Dir dir) s1 := {
        | (parentMatcher, s2) => (parentMatcher, cacheMatcher dir parentMatcher s2) } } } }.
Proof. eapply dirMeasure_Dir. exact Hup. Qed.

(** *** [processPath] *)

(** [m != nil && m.MatchesPath(path)]. *)
Definition matches (m : option IgnoreParser) (path : string) : bool :=
  match m with
  | Some p => MatchesPath p path
  | None => false
  end.

Definition processPath (env : Env) (path : string) (d : option Entry)
  (err : option error) : M (option error) :=
  match err, d with
  | Some e, _ => mret (Some e)
  | None, None => mret (Some NilDereference)
  | None, Some d =>
      if IsDir d && String.eqb (Name d) ".git" then mret (Some SkipDir)
      else
        let dir := Filepath.Dir path in
        gitMatcher ← findMatcherForDir env dir;
        g ← getGen;
        if matches gitMatcher path || matches (cliIgnoreMatcher g) path then
          if IsDir d then mret (Some SkipDir) else mret None
        else
          match d with
          | Directory _ _ _ => mret None
          | File _ info =>
              let ext := Filepath.Ext path in
              if isBinaryExt ext then
                _ ← emit (EvLog (SkippingBinary path)); mret None
              else
                _ ← emit (EvInfo path);
                match info with
                | None => _ ← emit (EvLog (NoFileInfo path)); mret None
                | Some size =>
                    if (0 <? maxSizeBytes g)%Z && (maxSizeBytes g <? size)%Z then
                      _ ← emit (EvLog (SkippingLarge path size)); mret None
                    else if (0 <? totalSizeLimit g)%Z
                            && (totalSizeLimit g <? add64 (currentTotalSize g) size)%Z then
                      mret (Some (TotalSizeLimitExceeded (totalSizeLimit g)))
                    else
                      _ ← emit (EvReadFile path);
                      match ReadFile env path with
                      | None => _ ← emit (EvLog (CouldNotRead path)); mret None
                      | Some content =>
                          let relativePath :=
                            match Rel env (srcDir g) path with
                            | Some r => r
                            | None => path
                            end in
                          let file := {| Path := relativePath; Content := content;
                                         Language := getFileLanguage relativePath |} in
                          _ ← setGen (accept size file g); mret None
                      end
                end
          end
  end.

(** *** [filepath.WalkDir] *)

Definition WalkDirFunc := string -> option Entry -> option error -> M (option error).

(** [if err == SkipDir && d.IsDir() { err = nil }]. *)
Definition skipped (d : Entry) (e : error) : option error :=
  if isSkipDir e && IsDir d then None else Some e.

(** The loop of [walkDir] over the entries of a directory: [SkipDir] from
    an entry leaves the loop, any other error is returned. *)
Fixpoint walkEntries (walk : Entry -> M (option error)) (dirs : list Entry)
  : M (option error) :=
  fun s =>
    match dirs with
    | [] => (None, s)
    | d1 :: rest =>
        match walk d1 s with
        | (Some e, s') => (if isSkipDir e then None else Some e, s')
        | (None, s') => walkEntries walk rest s'
        end
    end.

Fixpoint walkDir (fn : WalkDirFunc) (path : string) (d : Entry) {struct d}
  : M (option error) :=
  fun s =>
    match fn path (Some d) None s with
    | (Some e, s1) => (skipped d e, s1)
    | (None, s1) =>
        match d with
        | File _ _ => (None, s1)
        | Directory _ dirs readErr =>
            let descend :=
              walkEntries (fun d1 => walkDir fn (Filepath.Join path (Name d1)) d1) dirs in
            match readErr with
            | None => descend s1
            | Some e =>
                (* second call, to report the ReadDir error *)
                match fn path (Some d) (Some e) s1 with
                | (Some e2, s2) => (skipped d e2, s2)
                | (None, s2) => descend s2
                end
            end
        end
    end.

Definition WalkDir (env : Env) (root : string) (fn : WalkDirFunc) : M (option error) :=
  fun s =>
    let '(err, s') :=
      match Lstat env root with
      | Err e => fn root None (Some e) s
      | Ok info => walkDir fn root info s
      end in
    (match err with
     | Some e => if isSkipDir e then None else Some e
     | None => None
     end, s').

(** [Generator.Walk]. *)
Definition Walk (env : Env) : M (option error) :=
  g ← getGen;
  _ ← emit (EvPrint ("Scanning directory: " +:+ srcDir g +:+ String Strings.newline ""));
  WalkDir env (srcDir g) (processPath env).

(** *** [run] *)

Record Config := {
  SrcDir : string;
  OutputFile : string;
  IgnoreCli : string;
  Format : string;
  MaxSizeKB : Z;
  MaxTotalSizeMB : Z
}.

(** The [switch] of [run] on [cfg.Format]. *)
Definition selectBuilder (format : string) : DocumentBuilder :=
  if String.eqb format "review" then Review_ ReviewBuilder.New
  else if String.eqb format "llm" then LLM_ LLMBuilder.New
  else Default_ DefaultBuilder.New.

(** What a call of [run] leaves behind: the error it returns, the bytes
    that reached the output, and the generator (whose builder [run] shares
    with it) with the trace of the walk. *)
Record Outcome := {
  returned : option error;
  written : string;
  final : State
}.

(** The builder [run] hands to the generator: chosen by the format, named
    after the source directory, with the README as summary if there is one. *)
Definition builderFor (env : Env) (cfg : Config) : DocumentBuilder :=
  let build := selectBuilder (Format cfg) in
  let build := Builder.SetProjectName (Filepath.Base (SrcDir cfg)) build in
  let readmePath := Filepath.Join (SrcDir cfg) "README.md" in
  match ReadFile env readmePath with
  | Some content =>
      Builder.SetSummary {| Path := ""; Content := content;
                            Language := getFileLanguage readmePath |} build
  | None => build
  end.

(** The generator [run] sets up. *)
Definition generatorFor (env : Env) (cfg : Config) : Generator :=
  NewGenerator [WithBuilder (builderFor env cfg); WithSrcDir (SrcDir cfg);
                WithCliIgnore env (IgnoreCli cfg);
                WithMaxSize (MaxSizeKB cfg);
                WithTotalSizeLimit (MaxTotalSizeMB cfg)].

Definition run (env : Env) (cfg : Config) : Outcome :=
  let readmePath := Filepath.Join (SrcDir cfg) "README.md" in
  let generator := generatorFor env cfg in
  match Walk env {| gen := generator; trace := [EvReadFile readmePath] |} with
  | (Some err, s) => {| returned := Some err; written := ""; final := s |}
  | (None, s) =>
      (* the builder the generator filled is the one [run] builds from *)
      match Builder.Build (engine env) (builder (gen s)) with
      | Err err => {| returned := Some err; written := ""; final := s |}
      | Ok doc =>
          let '(w, err) := Copy env doc in
          {| returned := err; written := w; final := s |}
      end
  end.

(** ** Package [main], first version: [MarkdownBuilder] *)

Module MarkdownBuilder.

Record t := {
  projectName : string;
  files : list FileData
}.

Definition New : t := {| projectName := ""; files := [] |}.

Definition SetProjectName (name : string) (b : t) : t :=
  {| projectName := name; files := files b |}.

Definition AddFile (file : FileData) (b : t) : t :=
  {| projectName := projectName b; files := files b ++ [file] |}.

(** The [switch] of [Build] on the format. *)
Definition templatePathFor (format : string) : result string :=
  if String.eqb format "review" then Ok "templates/review.md.tmpl"
  else if String.eqb format "llm" then Ok "templates/llm.txt.tmpl"
  else if String.eqb format "default" then Ok "templates/default.md.tmpl"
  else Err (UnknownFormat format).

Definition Build (eng : Engine) (b : t) (format : string) : result string :=
  let templateData := Bare (projectName b) (files b) in
  match templatePathFor format with
  | Err e => Err e
  | Ok templatePath =>
      match TemplatesFS eng templatePath with
      | Err e => Err (ReadTemplateFailed templatePath e)
      | Ok templateBytes =>
          match Parse eng (Filepath.Base templatePath) templateBytes with
          | Err e => Err (ParseTemplateFailed e)
          | Ok tmpl => tmpl templateData
          end
      end
  end.

End MarkdownBuilder.

(** ** The walk, as the specification describes it *)

(** The matcher compiled from a rules file that is present in [dir] and
    parses. *)
Definition rulesIn (env : Env) (dir : string) : option IgnoreParser :=
  let ignorePath := Filepath.Join dir ".gitignore" in
  if Stat env ignorePath then CompileIgnoreFile env ignorePath else None.

(** The rule set that governs the entries of [dir]: the one found in
    [dir], else none at the scan root, else the one of the parent. *)
Equations? resolve (env : Env) (src dir : string) : option IgnoreParser
  by wf (dirMeasure dir) lt :=
resolve env src dir with inspect (rulesIn env dir) := {
  | exist _ (Some matcher) _ => Some matcher
  | exist _ None _ with inspect (isScanRoot src dir) := {
    | exist _ true _ => None
    | exist _ false Hup => resolve env src (Filepath.Dir dir) } }.
Proof. eapply dirMeasure_Dir. exact Hup. Qed.

(** Every cached entry is what a fresh resolution would give: the state
    of the cache at any point of a scan. *)
Definition coherent (env : Env) (s : State) : Prop :=
  forall d m, matcherCache (gen s) !! d = Some m -> m = resolve env (srcDir (gen s)) d.

(** The generator with another cache. *)
Definition withCache (c : gmap string (option IgnoreParser)) (g : Generator) : Generator :=
  {| builder := builder g; cliIgnoreMatcher := cliIgnoreMatcher g;
     srcDir := srcDir g; maxSizeBytes := maxSizeBytes g;
     totalSizeLimit := totalSizeLimit g; currentTotalSize := currentTotalSize g;
     matcherCache := c |}.

(** Exclusion by either source of rules. *)
Definition ignoredBy (env : Env) (g : Generator) (path : string) : bool :=
  matches (resolve env (srcDir g) (Filepath.Dir path)) path
  || matches (cliIgnoreMatcher g) path.

(** The per-file ceiling: configured, and exceeded by [size]. *)
Definition tooLarge (g : Generator) (size : Z) : bool :=
  (0 <? maxSizeBytes g)%Z && (maxSizeBytes g <? size)%Z.

(** The cumulative ceiling: configured, and exceeded by the running total
    with [size] added (in [int64] arithmetic, as the program computes it). *)
Definition overBudget (g : Generator) (size : Z) : bool :=
  (0 <? totalSizeLimit g)%Z && (totalSizeLimit g <? add64 (currentTotalSize g) size)%Z.

(** The record delivered for the file at [path]. *)
Definition fileRecord (env : Env) (g : Generator) (path content : string) : FileData :=
  let relativePath :=
    match Rel env (srcDir g) path with
    | Some r => r
    | None => path
    end in
  {| Path := relativePath; Content := content; Language := getFileLanguage relativePath |}.

(** The candidate files of a traversal, in traversal order, with their
    sizes, up to the point where the traversal itself fails (if it does). *)
Record Scan := {
  found : list (string * Z);
  failure : option error
}.

Definition nothing : Scan := {| found := []; failure := None |}.

Fixpoint scanEntries (scan : Entry -> Scan) (dirs : list Entry) : Scan :=
  match dirs with
  | [] => nothing
  | d1 :: rest =>
      let r1 := scan d1 in
      match failure r1 with
      | Some _ => r1
      | None =>
          let r := scanEntries scan rest in
          {| found := found r1 ++ found r; failure := failure r |}
      end
  end.

(** The files below [d] that reach the cumulative check: not in a [.git]
    directory, not excluded by a rule (nor below an excluded directory),
    not of a binary extension, of known size, and within the per-file
    ceiling. *)
Fixpoint candidates (env : Env) (g : Generator) (path : string) (d : Entry) : Scan :=
  match d with
  | File _ info =>
      if ignoredBy env g path || isBinaryExt (Filepath.Ext path) then nothing
      else
        match info with
        | None => nothing
        | Some size =>
            if tooLarge g size then nothing
            else {| found := [(path, size)]; failure := None |}
        end
  | Directory name dirs readErr =>
      if String.eqb name ".git" || ignoredBy env g path then nothing
      else
        match readErr with
        | Some e => {| found := []; failure := skipped d e |}
        | None =>
            scanEntries (fun d1 => candidates env g (Filepath.Join path (Name d1)) d1) dirs
        end
  end.

(** The Size Gatekeeper over the candidates: the first one that would
    take the running total over the ceiling ends the walk; the others
    are accepted when their content can be read. *)
Fixpoint gatekeeper (env : Env) (cands : list (string * Z)) (g : Generator)
  : option error * Generator :=
  match cands with
  | [] => (None, g)
  | (path, size) :: rest =>
      if overBudget g size then (Some (TotalSizeLimitExceeded (totalSizeLimit g)), g)
      else
        match ReadFile env path with
        | None => gatekeeper env rest g
        | Some content => gatekeeper env rest (accept size (fileRecord env g path content) g)
        end
  end.

Definition outcome (env : Env) (sc : Scan) (g : Generator) : option error * Generator :=
  match gatekeeper env (found sc) g with
  | (Some e, g') => (Some e, g')
  | (None, g') => (failure sc, g')
  end.

(** The non-directory entries below [d] that are not inside a directory
    named [.git], with their paths. *)
Fixpoint filesUnder (path : string) (d : Entry) : list (string * option Z) :=
  match d with
  | File _ info => [(path, info)]
  | Directory name dirs _ =>
      if String.eqb name ".git" then []
      else flat_map (fun d1 => filesUnder (Filepath.Join path (Name d1)) d1) dirs
  end.

(** No directory of the tree fails to list. *)
Fixpoint listable (d : Entry) : bool :=
  match d with
  | File _ _ => true
  | Directory _ dirs readErr =>
      match readErr with
      | Some _ => false
      | None => forallb listable dirs
      end
  end.

(** The candidates of the walk that starts at the source directory. *)
Definition rootScan (env : Env) (g : Generator) : Scan :=
  match Lstat env (srcDir g) with
  | Err e => {| found := []; failure := if isSkipDir e then None else Some e |}
  | Ok tree => candidates env g (srcDir g) tree
  end.

(** The state in which [run] starts the walk. *)
Definition startOf (env : Env) (cfg : Config) : State :=
  {| gen := generatorFor env cfg;
     trace := [EvReadFile (Filepath.Join (SrcDir cfg) "README.md")] |}.

(** Only resolver events: probes for a rules file and compilations. *)
Definition resolverEvent (ev : Event) : Prop :=
  match ev with
  | EvStat _ | EvCompile _ => True
  | _ => False
  end.

(** The settings of a generator, which a walk never changes. *)
Definition sameSettings (g g' : Generator) : Prop :=
  srcDir g = srcDir g' /\ cliIgnoreMatcher g = cliIgnoreMatcher g'
  /\ maxSizeBytes g = maxSizeBytes g' /\ totalSizeLimit g = totalSizeLimit g'.

(** [s'] is a later state of the scan that started in [s]: more calls were
    made, the cache has grown and is still coherent, and the other fields
    of the generator are those of [g']. *)
Definition advances (env : Env) (s : State) (g' : Generator) (s' : State) : Prop :=
  exists c' t',
    s' = {| gen := withCache c' g'; trace := trace s ++ t' |}
    /\ (forall d m, matcherCache (gen s) !! d = Some m -> c' !! d = Some m)
    /\ (forall d m, c' !! d = Some m -> m = resolve env (srcDir (gen s)) d).

(** What [processPath] does with a file, once the resolver has answered. *)
Definition afterResolver (env : Env) (path : string) (info : option Z)
  (gitMatcher : option IgnoreParser) (s1 : State) : option error * State :=
  let g := gen s1 in
  let say (evs : list Event) := {| gen := g; trace := trace s1 ++ evs |} in
  if matches gitMatcher path || matches (cliIgnoreMatcher g) path then (None, s1)
  else if isBinaryExt (Filepath.Ext path) then (None, say [EvLog (SkippingBinary path)])
  else
    match info with
    | None => (None, say [EvInfo path; EvLog (NoFileInfo path)])
    | Some size =>
        if tooLarge g size then (None, say [EvInfo path; EvLog (SkippingLarge path size)])
        else if overBudget g size then
          (Some (TotalSizeLimitExceeded (totalSizeLimit g)), say [EvInfo path])
        else
          match ReadFile env path with
          | None => (None, say [EvInfo path; EvReadFile path; EvLog (CouldNotRead path)])
          | Some content =>
              (None, {| gen := accept size (fileRecord env g path content) g;
                        trace := trace s1 ++ [EvInfo path; EvReadFile path] |})
          end
    end.

(** ** Sample inputs *)

(** A host with no rules files, no readable file and no templates. *)
Definition quietEnv : Env := {|
  Stat := fun _ => false;
  CompileIgnoreFile := fun _ => None;
  CompileIgnoreLines := fun _ => {| MatchesPath := fun _ => false |};
  ReadFile := fun _ => None;
  Lstat := fun _ => Err (External "no such file or directory");
  Rel := fun _ p => Some p;
  engine := {| TemplatesFS := fun _ => Err (External "file does not exist");
               Parse := fun _ _ => Err (External "empty template") |};
  Copy := fun doc => (doc, None)
|}.

Definition freshState (src : string) : State :=
  {| gen := NewGenerator [WithSrcDir src]; trace := [] |}.

(** A project with a rules file naming [secret.txt], a [.git] directory, a
    binary file and a subdirectory. *)
Definition gitignoreEnv : Env := {|
  Stat := fun p => String.eqb p "proj/.gitignore";
  CompileIgnoreFile := fun _ =>
    Some {| MatchesPath := fun q => String.eqb (Filepath.Base q) "secret.txt" |};
  CompileIgnoreLines := fun lines =>
    {| MatchesPath := fun q => existsb (String.eqb (Filepath.Base q)) lines |};
  ReadFile := fun p =>
    if String.eqb p "proj/README.md" then None else Some ("content of " +:+ p);
  Lstat := fun _ =>
    Ok (Directory "proj"
          [File ".gitignore" (Some 11%Z);
           Directory ".git" [File "HEAD" (Some 5%Z)] None;
           File "a.go" (Some 10%Z);
           File "b.png" (Some 100%Z);
           File "secret.txt" (Some 20%Z);
           Directory "sub" [File "c.py" (Some 30%Z);
                            Directory "vendor" [File "v.go" (Some 1%Z)] None;
                            File "d.md" (Some 5%Z)] None] None);
  Rel := fun _ p => Some p;
  engine := {| TemplatesFS := fun _ => Ok "template";
               Parse := fun _ _ => Ok (fun _ => Ok "document") |};
  Copy := fun doc => (doc, None)
|}.


(** ** Accepted files *)

(** Of the candidates [cands], those whose content can be read: the
    records delivered for them, in order. *)
Fixpoint acceptedFiles (env : Env) (g : Generator) (cands : list (string * Z))
  : list FileData :=
  match cands with
  | [] => []
  | (path, size) :: rest =>
      match ReadFile env path with
      | Some content => fileRecord env g path content :: acceptedFiles env g rest
      | None => acceptedFiles env g rest
      end
  end.

(** The sizes of those candidates, added up: the running total once they
    have all been accepted. *)
Fixpoint acceptedSize (env : Env) (cands : list (string * Z)) : Z :=
  match cands with
  | [] => 0
  | (path, size) :: rest =>
      match ReadFile env path with
      | Some _ => size + acceptedSize env rest
      | None => acceptedSize env rest
      end
  end.

(** The entries below [d] that are not directories, not inside a directory
    named [.git], and whose extension is not in the binary set. *)
Definition eligible (path : string) (d : Entry) : list (string * option Z) :=
  List.filter (fun e => negb (isBinaryExt (Filepath.Ext (fst e)))) (filesUnder path d).

(** The candidate an eligible entry gives when its size is known. *)
Definition sized (e : string * option Z) : list (string * Z) :=
  match snd e with
  | Some size => [(fst e, size)]
  | None => []
  end.

(** The record delivered for an entry whose size and content can be read
    (none for the others). *)
Definition delivery (env : Env) (g : Generator) (e : string * option Z) : list FileData :=
  match snd e, ReadFile env (fst e) with
  | Some _, Some content => [fileRecord env g (fst e) content]
  | _, _ => []
  end.

(** Three readable files of a project whose sizes add up beyond one
    megabyte, and a fourth one after them. *)
Definition budgetEnv : Env := {|
  Stat := fun _ => false;
  CompileIgnoreFile := fun _ => None;
  CompileIgnoreLines := fun lines =>
    {| MatchesPath := fun q => existsb (String.eqb (Filepath.Base q)) lines |};
  ReadFile := fun p =>
    if String.eqb p "proj/README.md" then None else Some ("content of " +:+ p);
  Lstat := fun _ =>
    Ok (Directory "proj"
          [File "a.txt" (Some 600000%Z);
           File "b.txt" (Some 400000%Z);
           File "c.txt" (Some 100000%Z);
           File "d.txt" (Some 1%Z)] None);
  Rel := fun _ p => Some p;
  engine := {| TemplatesFS := fun _ => Ok "template";
               Parse := fun _ _ => Ok (fun _ => Ok "document") |};
  Copy := fun doc => (doc, None)
|}.

Definition budgetCfg : Config := {|
  SrcDir := "proj"; OutputFile := "project_structure.md"; IgnoreCli := "";
  Format := "default"; MaxSizeKB := 2048; MaxTotalSizeMB := 1
|}.

(** A project with no rules file: a source file, an image, a [.git]
    directory and a subdirectory; and the same project where [a.go] cannot
    be read. *)
Definition plainTree : Entry :=
  Directory "proj"
    [Directory ".git" [File "HEAD" (Some 5%Z)] None;
     File "a.go" (Some 10%Z);
     File "b.png" (Some 100%Z);
     Directory "sub" [File "c.py" (Some 30%Z)] None] None.

Definition plainEnv : Env := {|
  Stat := fun _ => false;
  CompileIgnoreFile := fun _ => None;
  CompileIgnoreLines := fun lines =>
    {| MatchesPath := fun q => existsb (String.eqb (Filepath.Base q)) lines |};
  ReadFile := fun p =>
    if String.eqb p "proj/README.md" then None else Some ("content of " +:+ p);
  Lstat := fun _ => Ok plainTree;
  Rel := fun _ p => Some p;
  engine := {| TemplatesFS := fun _ => Ok "template";
               Parse := fun _ _ => Ok (fun _ => Ok "document") |};
  Copy := fun doc => (doc, None)
|}.

Definition unreadableEnv : Env := {|
  Stat := fun _ => false;
  CompileIgnoreFile := fun _ => None;
  CompileIgnoreLines := fun lines =>
    {| MatchesPath := fun q => existsb (String.eqb (Filepath.Base q)) lines |};
  ReadFile := fun p =>
    if String.eqb p "proj/README.md" || String.eqb p "proj/a.go" then None
    else Some ("content of " +:+ p);
  Lstat := fun _ => Ok plainTree;
  Rel := fun _ p => Some p;
  engine := {| TemplatesFS := fun _ => Ok "template";
               Parse := fun _ _ => Ok (fun _ => Ok "document") |};
  Copy := fun doc => (doc, None)
|}.

Definition plainCfg : Config := {|
  SrcDir := "proj"; OutputFile := "project_structure.md"; IgnoreCli := "";
  Format := "default"; MaxSizeKB := 0; MaxTotalSizeMB := 0
|}.

(** The same run with an output format the program does not know. *)
Definition xmlCfg : Config := {|
  SrcDir := "proj"; OutputFile := "project_structure.md"; IgnoreCli := "";
  Format := "xml"; MaxSizeKB := 0; MaxTotalSizeMB := 0
|}.

(** [cfg] with another format. *)
Definition withFormat (format : string) (cfg : Config) : Config :=
  {| SrcDir := SrcDir cfg; OutputFile := OutputFile cfg; IgnoreCli := IgnoreCli cfg;
     Format := format; MaxSizeKB := MaxSizeKB cfg; MaxTotalSizeMB := MaxTotalSizeMB cfg |}.

(** The three format identifiers the program documents. *)
Definition recognized (format : string) : bool :=
  String.eqb format "default" || String.eqb format "review" || String.eqb format "llm".

(** A text of [n] line feeds, which has [n + 1] (empty) lines. *)
Fixpoint emptyLines (n : nat) : string :=
  match n with
  | O => EmptyString
  | S k => String Strings.newline (emptyLines k)
  end.

(** A project whose second file is as large as an [int64] can say, under
    a cumulative ceiling of one megabyte and no per-file ceiling. *)
Definition hugeTree : Entry :=
  Directory "proj"
    [File "a.txt" (Some 1%Z);
     File "b.txt" (Some maxInt64);
     File "c.txt" (Some 5%Z)] None.

Definition hugeEnv : Env := {|
  Stat := fun _ => false;
  CompileIgnoreFile := fun _ => None;
  CompileIgnoreLines := fun lines =>
    {| MatchesPath := fun q => existsb (String.eqb (Filepath.Base q)) lines |};
  ReadFile := fun p =>
    if String.eqb p "proj/README.md" then None else Some ("content of " +:+ p);
  Lstat := fun _ => Ok hugeTree;
  Rel := fun _ p => Some p;
  engine := {| TemplatesFS := fun _ => Ok "template";
               Parse := fun _ _ => Ok (fun _ => Ok "document") |};
  Copy := fun doc => (doc, None)
|}.

Definition hugeCfg : Config := {|
  SrcDir := "proj"; OutputFile := "project_structure.md"; IgnoreCli := "";
  Format := "default"; MaxSizeKB := 0; MaxTotalSizeMB := 1
|}.

(** A project [proj] without a rules file, in a working directory whose
    rules file names [secret.txt]; and a run on a source directory given
    as [src], with no patterns and no ceilings. *)
Definition outerRulesEnv : Env := {|
  Stat := fun p => String.eqb p ".gitignore";
  CompileIgnoreFile := fun _ =>
    Some {| MatchesPath := fun q => String.eqb (Filepath.Base q) "secret.txt" |};
  CompileIgnoreLines := fun lines =>
    {| MatchesPath := fun q => existsb (String.eqb (Filepath.Base q)) lines |};
  ReadFile := fun p =>
    if String.eqb (Filepath.Base p) "README.md" then None else Some ("content of " +:+ p);
  Lstat := fun _ =>
    Ok (Directory "proj" [File "a.go" (Some 10%Z); File "secret.txt" (Some 20%Z)] None);
  Rel := fun _ p => Some p;
  engine := {| TemplatesFS := fun _ => Ok "template";
               Parse := fun _ _ => Ok (fun _ => Ok "document") |};
  Copy := fun doc => (doc, None)
|}.

Definition scanOf (src : string) : Config := {|
  SrcDir := src; OutputFile := "project_structure.md"; IgnoreCli := "";
  Format := "default"; MaxSizeKB := 0; MaxTotalSizeMB := 0
|}.

(** ** Recursion on directory trees *)

(** The recursor that also goes through the entries of a directory. *)
Fixpoint Entry_rect' (P : Entry -> Type) (Q : list Entry -> Type)
  (Hfile : forall name info, P (File name info))
  (Hdir : forall name dirs readErr, Q dirs -> P (Directory name dirs readErr))
  (Hnil : Q [])
  (Hcons : forall d ds, P d -> Q ds -> Q (d :: ds))
  (d : Entry) {struct d} : P d :=
  match d with
  | File name info => Hfile name info
  | Directory name dirs readErr =>
      Hdir name dirs readErr
        ((fix go (ds : list Entry) : Q ds :=
            match ds with
            | [] => Hnil
            | d1 :: rest => Hcons d1 rest (Entry_rect' P Q Hfile Hdir Hnil Hcons d1) (go rest)
            end) dirs)
  end.

(** ** Vocabulary of the further properties *)

(** [files] added to a builder one after the other. *)
Definition addAll (files : list FileData) (b : DocumentBuilder) : DocumentBuilder :=
  fold_left (fun b f => Builder.AddFile f b) files b.

(** The errors [os.ReadDir] reports somewhere in a tree. *)
Fixpoint listingErrors (d : Entry) : list error :=
  match d with
  | File _ _ => []
  | Directory _ dirs readErr =>
      match readErr with
      | Some e => [e]
      | None => []
      end ++ flat_map listingErrors dirs
  end.


Definition countEvents (what : Event -> bool) (t : list Event) : nat :=
  length (List.filter what t).



Definition isInfo (ev : Event) : bool :=
  match ev with EvInfo _ => true | _ => false end.

Definition isRead (ev : Event) : bool :=
  match ev with EvReadFile _ => true | _ => false end.

Definition isFailedRead (ev : Event) : bool :=
  match ev with EvLog (CouldNotRead _) => true | _ => false end.

(** Between [s] and [s']: every content read was delivered or reported
    as unreadable, and every read came after a size query of its own. *)
Definition readBalance (s s' : State) : Prop :=
  length (Builder.files (builder (gen s'))) + countEvents isRead (trace s)
    + countEvents isFailedRead (trace s')
  = length (Builder.files (builder (gen s))) + countEvents isRead (trace s')
    + countEvents isFailedRead (trace s)
  /\ countEvents isRead (trace s') + countEvents isInfo (trace s)
     <= countEvents isRead (trace s) + countEvents isInfo (trace s').

(** A project below a directory whose rules file excludes it. *)
Definition nestedEnv : Env := {|
  Stat := fun p => String.eqb p ".gitignore";
  CompileIgnoreFile := fun _ =>
    Some {| MatchesPath := fun q => String.eqb (Filepath.Base q) "proj" |};
  CompileIgnoreLines := fun lines =>
    {| MatchesPath := fun q => existsb (String.eqb (Filepath.Base q)) lines |};
  ReadFile := fun p => Some ("content of " +:+ p);
  Lstat := fun _ => Ok (Directory "proj" [File "a.go" (Some 10%Z)] None);
  Rel := fun _ p => Some p;
  engine := {| TemplatesFS := fun _ => Ok "template";
               Parse := fun _ _ => Ok (fun _ => Ok "document") |};
  Copy := fun doc => (doc, None)
|}.

(** A name as a directory entry has it: not empty, not [.] or [..], and
    without a separator. *)
Definition plainName (name : string) : bool :=
  negb (String.eqb name "" || String.eqb name "." || String.eqb name "..")
  && Nat.eqb (Strings.Count name Filepath.Separator) 0.

(** The options of package [main]. *)
Inductive provided (env : Env) : Option_ -> Prop :=
| provided_cli patterns : provided env (WithCliIgnore env patterns)
| provided_builder b : provided env (WithBuilder b)
| provided_src dir : provided env (WithSrcDir dir)
| provided_max kb : provided env (WithMaxSize kb)
| provided_total mb : provided env (WithTotalSizeLimit mb).

(** The text of a numbered line: what follows the first colon and the
    blank after it. *)
Fixpoint lineText (numbered : string) : string :=
  match numbered with
  | EmptyString => EmptyString
  | String c r =>
      if Ascii.eqb c ":"%char then
        match r with
        | String _ text => text
        | EmptyString => EmptyString
        end
      else lineText r
  end.

Definition colonFree (s : string) : Prop := Strings.Count s ":"%char = 0.

Module Earlier.

(** [findMatcherForDir] as the earlier version of [generator.go] has it:
    [parentDir := dir], and the recursive call is made on [parentDir]. The
    recursion need not end, so the model counts the calls it may still
    make; [None] is a computation that has not returned. (The generator of
    that version has no size fields; the resolver reads and writes the
    cache and the source directory only.) *)
Fixpoint findMatcherForDir (calls : nat) (env : Env) (dir : string) (s : State)
  : option (option IgnoreParser * State) :=
  match calls with
  | O => None
  | S calls =>
      match matcherCache (gen s) !! dir with
      | Some matcher => Some (matcher, s)
      | None =>
          let parentDir := dir in
          match lookForIgnoreFile env dir s with
          | (Some matcher, s1) => Some (Some matcher, cacheMatcher dir (Some matcher) s1)
          | (None, s1) =>
              if atScanRoot (gen s1) dir then Some (None, cacheMatcher dir None s1)
              else
                match findMatcherForDir calls env parentDir s1 with
                | Some (parentMatcher, s2) =>
                    Some (parentMatcher, cacheMatcher dir parentMatcher s2)
                | None => None
                end
          end
      end
  end.

End Earlier.

(** * Properties *)

(** ** The library models on the test tables of their packages *)

Example Clean_samples :
  map Filepath.Clean
    ["abc"; "abc/def"; "a/b/c"; "."; ".."; "../.."; "../../abc"; "/abc"; "/";
     ""; "abc/"; "abc/def/"; "a/b/c/"; "./"; "../"; "../../"; "/abc/";
     "abc//def//ghi"; "//abc"; "///abc"; "//abc//"; "abc//";
     "abc/./def"; "/./abc/def"; "abc/.";
     "abc/def/ghi/../jkl"; "abc/def/../ghi/../jkl"; "abc/def/.."; "abc/def/../..";
     "/abc/def/../.."; "abc/def/../../.."; "/abc/def/../../..";
     "abc/def/../../../ghi/jkl/../../../mno"; "/../abc";
     "abc/./../def"; "abc//./../def"; "abc/../../././../def"]
  = ["abc"; "abc/def"; "a/b/c"; "."; ".."; "../.."; "../../abc"; "/abc"; "/";
     "."; "abc"; "abc/def"; "a/b/c"; "."; ".."; "../.."; "/abc";
     "abc/def/ghi"; "/abc"; "/abc"; "/abc"; "abc";
     "abc/def"; "/abc/def"; "abc";
     "abc/def/jkl"; "abc/jkl"; "abc"; ".";
     "/"; ".."; "/";
     "../../mno"; "/abc";
     "def"; "def"; "../../def"].
Proof. reflexivity. Qed.

Example Dir_samples :
  map Filepath.Dir
    [""; "."; "/."; "/"; "/foo"; "x/"; "abc"; "abc/def"; "a/b/.x"; "a/b/c."; "a/b/c.x";
     "proj/sub/c.py"; "a//b"; "./a"]
  = ["."; "."; "/"; "/"; "/"; "x"; "."; "abc"; "a/b"; "a/b"; "a/b";
     "proj/sub"; "a"; "."].
Proof. reflexivity. Qed.

Example Base_samples :
  map Filepath.Base
    [""; "."; "/."; "/"; "////"; "x/"; "abc"; "abc/def"; "a/b/.x"; "a/b/c."; "a/b/c.x"]
  = ["."; "."; "."; "/"; "/"; "x"; "abc"; "def"; ".x"; "c."; "c.x"].
Proof. reflexivity. Qed.

Example Ext_samples :
  map Filepath.Ext ["path.go"; "path.pb.go"; "a.dir/b"; "a.dir/b.go"; "a.dir/"; ".gitignore"]
  = [".go"; ".go"; ""; ".go"; ""; ".gitignore"].
Proof. reflexivity. Qed.

Example Join_samples :
  [Filepath.Join "." "a"; Filepath.Join "a/b" "c"; Filepath.Join "" "x";
   Filepath.Join "/" "x"; Filepath.Join "./p/" "x"; Filepath.Join "a" ""]
  = ["a"; "a/b/c"; "x"; "/x"; "p/x"; "a"].
Proof. reflexivity. Qed.

Example Split_samples :
  [Strings.Split "" ","%char; Strings.Split "a,b," ","%char; Strings.Split "abc" ","%char]
  = [[""]; ["a"; "b"; ""]; ["abc"]].
Proof. reflexivity. Qed.

Example decimal_samples :
  map Fmt.decimal [0; 7; 10; 907; 10000; -42; 9223372036854775807]%Z
  = ["0"; "7"; "10"; "907"; "10000"; "-42"; "9223372036854775807"].
Proof. vm_compute. reflexivity. Qed.

Example language_samples :
  map getFileLanguage ["main.go"; "a/b.yml"; "README.md"; "Makefile"; "x.tar.gz"]
  = ["go"; "yaml"; "markdown"; ""; ""].
Proof. reflexivity. Qed.

(** ** Induction on directory trees *)

Lemma Entry_ind' (P : Entry -> Prop)
  (Hfile : forall name info, P (File name info))
  (Hdir : forall name dirs readErr, Forall P dirs -> P (Directory name dirs readErr))
  : forall d, P d.
Proof.
  intros d. apply (Entry_rect' P (Forall P)); auto.
Qed.

(** ** The resolver *)

(** After [funelim], forget the equations between [inspect]ed values. *)
Ltac forget_inspected :=
  repeat match goal with H : sigmaI _ _ _ = _ |- _ => clear H end.

Lemma resolve_here env src dir m :
  rulesIn env dir = Some m -> resolve env src dir = Some m.
Proof.
  intros Hm. funelim (resolve env src dir); congruence.
Qed.

Lemma resolve_root env src dir :
  rulesIn env dir = None -> isScanRoot src dir = true -> resolve env src dir = None.
Proof.
  intros Hm Hr. funelim (resolve env src dir); congruence.
Qed.

Lemma resolve_parent env src dir :
  rulesIn env dir = None -> isScanRoot src dir = false ->
  resolve env src dir = resolve env src (Filepath.Dir dir).
Proof.
  intros Hm Hr. funelim (resolve env src dir); congruence.
Qed.

Lemma withCache_id g : withCache (matcherCache g) g = g.
Proof. destruct g; reflexivity. Qed.

Lemma lookFor_eq env dir s :
  lookForIgnoreFile env dir s =
  (rulesIn env dir,
   {| gen := gen s;
      trace := trace s ++ EvStat (Filepath.Join dir ".gitignore") ::
               (if Stat env (Filepath.Join dir ".gitignore")
                then [EvCompile (Filepath.Join dir ".gitignore")] else []) |}).
Proof.
  unfold lookForIgnoreFile, rulesIn, mbind, M_bind, emit, mret, M_ret. simpl.
  destruct (Stat env _); simpl; [|reflexivity].
  rewrite <- app_assoc. reflexivity.
Qed.


Lemma findMatcher_spec env dir s :
  coherent env s ->
  exists c' t',
    findMatcherForDir env dir s =
      (resolve env (srcDir (gen s)) dir,
       {| gen := withCache c' (gen s); trace := trace s ++ t' |})
    /\ c' !! dir = Some (resolve env (srcDir (gen s)) dir)
    /\ (forall d m, matcherCache (gen s) !! d = Some m -> c' !! d = Some m)
    /\ (forall d m, c' !! d = Some m -> m = resolve env (srcDir (gen s)) d)
    /\ Forall resolverEvent t'.
Proof.
  funelim (findMatcherForDir env dir s); intros Hco; clear Heqcall; forget_inspected.
  - exists (matcherCache (gen s)), [].
    pose proof (Hco _ _ e) as Hm. subst matcher.
    rewrite withCache_id, app_nil_r. destruct s; simpl in *. repeat split; auto.
  - rewrite lookFor_eq in e0. injection e0 as Hm Hs. subst s1.
    rewrite (resolve_here _ _ _ _ Hm).
    eexists (<[dir := Some matcher]> (matcherCache (gen s))), _.
    split; [unfold cacheMatcher, setCache, withCache; simpl; reflexivity|].
    split; [apply lookup_insert_eq|]. split; [|split].
    + intros d m Hd. rewrite lookup_insert_ne; [exact Hd|]. congruence.
    + intros d m Hd. destruct (decide (dir = d)) as [<-|Hne].
      * rewrite lookup_insert_eq in Hd. inversion Hd.
        symmetry. apply resolve_here, Hm.
      * rewrite lookup_insert_ne in Hd by exact Hne. eauto.
    + constructor; [exact I|]. destruct (Stat env _); repeat constructor.
  - rewrite lookFor_eq in e0. injection e0 as Hm Hs. subst s1. simpl in e1.
    unfold atScanRoot in e1.
    rewrite (resolve_root _ _ _ Hm e1).
    eexists (<[dir := None]> (matcherCache (gen s))), _.
    split; [unfold cacheMatcher, setCache, withCache; simpl; reflexivity|].
    split; [apply lookup_insert_eq|]. split; [|split].
    + intros d m Hd. rewrite lookup_insert_ne; [exact Hd|]. congruence.
    + intros d m Hd. destruct (decide (dir = d)) as [<-|Hne].
      * rewrite lookup_insert_eq in Hd. inversion Hd.
        symmetry. apply resolve_root; assumption.
      * rewrite lookup_insert_ne in Hd by exact Hne. eauto.
    + constructor; [exact I|]. destruct (Stat env _); repeat constructor.
  - rewrite lookFor_eq in e0. injection e0 as Hm Hs. subst s1. simpl in Hup, Hind.
    unfold atScanRoot in Hup.
    destruct Hind as (c1 & t1 & Hcall & Hdir & Hmono & Hco1 & Hev); [exact Hco|].
    rewrite Heq in Hcall. injection Hcall as Hp Hs2. subst parentMatcher s2.
    rewrite (resolve_parent _ _ _ Hm Hup).
    eexists (<[dir := resolve env (srcDir (gen s)) (Filepath.Dir dir)]> c1), _.
    split; [unfold cacheMatcher, setCache, withCache; simpl; rewrite <- app_assoc; reflexivity|].
    split; [apply lookup_insert_eq|]. split; [|split].
    + intros d m Hd. rewrite lookup_insert_ne; [eauto|]. congruence.
    + intros d m Hd. destruct (decide (dir = d)) as [<-|Hne].
      * rewrite lookup_insert_eq in Hd. inversion Hd.
        symmetry. apply resolve_parent; assumption.
      * rewrite lookup_insert_ne in Hd by exact Hne. eauto.
    + constructor; [exact I|]. apply Forall_app. split; [|exact Hev].
      destruct (Stat env _); repeat constructor.
Qed.

(** ** One call of [processPath] *)


Lemma advances_refl env s : coherent env s -> advances env s (gen s) s.
Proof.
  intros Hco. exists (matcherCache (gen s)), [].
  rewrite withCache_id, app_nil_r. destruct s; auto.
Qed.

Lemma processPath_error env path d e s :
  processPath env path d (Some e) s = (Some e, s).
Proof. reflexivity. Qed.

Lemma processPath_dir env path name dirs readErr s :
  coherent env s ->
  exists s',
    processPath env path (Some (Directory name dirs readErr)) None s =
      (if String.eqb name ".git" || ignoredBy env (gen s) path then Some SkipDir else None, s')
    /\ advances env s (gen s) s'.
Proof.
  intros Hco. unfold processPath. simpl.
  destruct (String.eqb name ".git") eqn:Hgit; simpl.
  - exists s. split; [reflexivity | apply advances_refl, Hco].
  - unfold mbind, M_bind.
    destruct (findMatcher_spec env (Filepath.Dir path) s Hco)
      as (c' & t' & Hcall & _ & Hmono & Hcoh & _).
    rewrite Hcall. unfold getGen. simpl. unfold ignoredBy.
    eexists. split.
    + destruct (_ || _); reflexivity.
    + exists c', t'. auto.
Qed.

Lemma emit_eq ev s : emit ev s = (tt, {| gen := gen s; trace := trace s ++ [ev] |}).
Proof. reflexivity. Qed.

Lemma processPath_file env path name info s :
  coherent env s ->
  exists s',
    processPath env path (Some (File name info)) None s =
      (fst (outcome env (candidates env (gen s) path (File name info)) (gen s)), s')
    /\ advances env s
         (snd (outcome env (candidates env (gen s) path (File name info)) (gen s))) s'.
Proof.
  intros Hco. unfold processPath. simpl. unfold mbind, M_bind.
  destruct (findMatcher_spec env (Filepath.Dir path) s Hco)
    as (c' & t' & Hcall & _ & Hmono & Hcoh & _).
  rewrite Hcall. unfold getGen. simpl. fold (ignoredBy env (gen s) path).
  destruct (ignoredBy env (gen s) path); simpl.
  { eexists. split; [reflexivity|]. exists c', t'. auto. }
  destruct (isBinaryExt (Filepath.Ext path)); simpl.
  { eexists. split; [reflexivity|]. exists c', (t' ++ [EvLog (SkippingBinary path)]).
    rewrite app_assoc. auto. }
  destruct info as [size|]; simpl.
  2:{ eexists. split; [reflexivity|].
      exists c', (t' ++ [EvInfo path] ++ [EvLog (NoFileInfo path)]).
      rewrite !app_assoc. auto. }
  unfold tooLarge.
  destruct ((0 <? maxSizeBytes (gen s))%Z && (maxSizeBytes (gen s) <? size)%Z); simpl.
  { eexists. split; [reflexivity|].
    exists c', (t' ++ [EvInfo path] ++ [EvLog (SkippingLarge path size)]).
    rewrite !app_assoc. auto. }
  unfold outcome. simpl. unfold overBudget.
  destruct ((0 <? totalSizeLimit (gen s))%Z
            && (totalSizeLimit (gen s) <? add64 (currentTotalSize (gen s)) size)%Z); simpl.
  { eexists. split; [reflexivity|]. exists c', (t' ++ [EvInfo path]).
    rewrite !app_assoc. auto. }
  destruct (ReadFile env path) as [content|]; simpl.
  - eexists. split; [reflexivity|].
    exists c', (t' ++ [EvInfo path] ++ [EvReadFile path]).
    rewrite !app_assoc. auto.
  - eexists. split; [reflexivity|].
    exists c', (t' ++ [EvInfo path] ++ [EvReadFile path] ++ [EvLog (CouldNotRead path)]).
    rewrite !app_assoc. auto.
Qed.

(** ** The whole walk *)


Lemma sameSettings_refl g : sameSettings g g.
Proof. repeat split. Qed.

Lemma sameSettings_trans g1 g2 g3 :
  sameSettings g1 g2 -> sameSettings g2 g3 -> sameSettings g1 g3.
Proof. unfold sameSettings. intuition congruence. Qed.

Lemma sameSettings_withCache c g : sameSettings g (withCache c g).
Proof. repeat split. Qed.

Lemma sameSettings_accept size file g : sameSettings g (accept size file g).
Proof. repeat split. Qed.

Lemma ignoredBy_ext env g g' path :
  sameSettings g g' -> ignoredBy env g path = ignoredBy env g' path.
Proof. intros (Hs & Hc & _). unfold ignoredBy. rewrite Hs, Hc. reflexivity. Qed.

Lemma scanEntries_ext f f' dirs :
  Forall (fun d => f d = f' d) dirs -> scanEntries f dirs = scanEntries f' dirs.
Proof.
  induction 1 as [|d ds Hd _ IH]; [reflexivity|].
  simpl. rewrite Hd, IH. reflexivity.
Qed.

Lemma candidates_ext env g g' :
  sameSettings g g' ->
  forall d path, candidates env g path d = candidates env g' path d.
Proof.
  intros Hs d. induction d as [name info | name dirs readErr IH] using Entry_ind';
    intros path; simpl.
  - rewrite (ignoredBy_ext env g g' path Hs). unfold tooLarge.
    destruct Hs as (_ & _ & -> & _). reflexivity.
  - rewrite (ignoredBy_ext env g g' path Hs).
    destruct (_ || _); [reflexivity|]. destruct readErr; [reflexivity|].
    apply scanEntries_ext. eapply Forall_impl; [exact IH|].
    intros d Hd. apply Hd.
Qed.

Lemma gatekeeper_app env l1 l2 g :
  gatekeeper env (l1 ++ l2) g =
  match gatekeeper env l1 g with
  | (Some e, g') => (Some e, g')
  | (None, g') => gatekeeper env l2 g'
  end.
Proof.
  revert g. induction l1 as [|[p size] l1 IH]; intros g; simpl; [reflexivity|].
  destruct (overBudget g size); [reflexivity|].
  destruct (ReadFile env p); apply IH.
Qed.

Lemma gatekeeper_withCache env c l g :
  gatekeeper env l (withCache c g) =
  (fst (gatekeeper env l g), withCache c (snd (gatekeeper env l g))).
Proof.
  revert g. induction l as [|[p size] l IH]; intros g; simpl; [reflexivity|].
  change (overBudget (withCache c g) size) with (overBudget g size).
  destruct (overBudget g size); [reflexivity|].
  destruct (ReadFile env p) as [content|]; [|apply IH].
  rewrite <- IH. reflexivity.
Qed.

Lemma gatekeeper_settings env l g : sameSettings g (snd (gatekeeper env l g)).
Proof.
  revert g. induction l as [|[p size] l IH]; intros g; simpl.
  - apply sameSettings_refl.
  - destruct (overBudget g size); [apply sameSettings_refl|].
    destruct (ReadFile env p) as [content|]; [|apply IH].
    eapply sameSettings_trans; [apply sameSettings_accept | apply IH].
Qed.

Lemma gatekeeper_error env l g e :
  fst (gatekeeper env l g) = Some e -> isSkipDir e = false.
Proof.
  revert g. induction l as [|[p size] l IH]; intros g; simpl; [discriminate|].
  destruct (overBudget g size).
  - simpl. intros [= <-]. reflexivity.
  - destruct (ReadFile env p); apply IH.
Qed.

Lemma outcome_withCache env c sc g :
  outcome env sc (withCache c g) =
  (fst (outcome env sc g), withCache c (snd (outcome env sc g))).
Proof.
  unfold outcome. rewrite gatekeeper_withCache.
  destruct (gatekeeper env (found sc) g) as [[e|] g']; reflexivity.
Qed.

Lemma outcome_settings env sc g : sameSettings g (snd (outcome env sc g)).
Proof.
  unfold outcome. pose proof (gatekeeper_settings env (found sc) g) as H.
  destruct (gatekeeper env (found sc) g) as [[e|] g']; exact H.
Qed.

Lemma skipped_dir name dirs readErr e e' :
  skipped (Directory name dirs readErr) e = Some e' -> isSkipDir e' = false.
Proof.
  unfold skipped. simpl. rewrite andb_true_r.
  destruct (isSkipDir e) eqn:E; [discriminate|]. intros [= <-]. exact E.
Qed.

Lemma scanEntries_failure f dirs :
  Forall (fun d => forall e, failure (f d) = Some e -> isSkipDir e = false) dirs ->
  forall e, failure (scanEntries f dirs) = Some e -> isSkipDir e = false.
Proof.
  induction 1 as [|d ds Hd _ IH]; intros e; simpl; [discriminate|].
  destruct (failure (f d)) eqn:E.
  - rewrite E. intros [= <-]. eauto.
  - simpl. apply IH.
Qed.

Lemma candidates_failure env g d :
  forall path e, failure (candidates env g path d) = Some e -> isSkipDir e = false.
Proof.
  induction d as [name info | name dirs readErr IH] using Entry_ind'; intros path e; simpl.
  - destruct (_ || _); [discriminate|]. destruct info; [|discriminate].
    destruct (tooLarge g z); discriminate.
  - destruct (_ || _); [discriminate|]. destruct readErr as [e0|].
    + simpl. apply skipped_dir.
    + apply scanEntries_failure. eapply Forall_impl; [exact IH|].
      intros d Hd. apply Hd.
Qed.

Lemma outcome_error env g path d e :
  fst (outcome env (candidates env g path d) g) = Some e -> isSkipDir e = false.
Proof.
  unfold outcome.
  destruct (gatekeeper env (found (candidates env g path d)) g) as [[e0|] g'] eqn:E; simpl.
  - intros [= <-]. eapply gatekeeper_error. rewrite E. reflexivity.
  - apply candidates_failure.
Qed.

Lemma advances_coherent env s g' s' :
  sameSettings (gen s) g' -> advances env s g' s' ->
  coherent env s' /\ sameSettings (gen s) (gen s').
Proof.
  intros Hs (c' & t' & -> & _ & Hco). split.
  - intros d m Hd. simpl in *. destruct Hs as (<- & _). eauto.
  - eapply sameSettings_trans; [exact Hs | apply sameSettings_withCache].
Qed.

Lemma withCache_withCache c c' g : withCache c (withCache c' g) = withCache c g.
Proof. reflexivity. Qed.

Lemma advances_trans env s g1 s1 g2 s2 :
  sameSettings (gen s) g1 ->
  advances env s g1 s1 ->
  advances env s1 (withCache (matcherCache (gen s1)) g2) s2 ->
  advances env s g2 s2.
Proof.
  intros Hs (c1 & t1 & -> & Hm1 & Hc1) (c2 & t2 & -> & Hm2 & Hc2).
  simpl in *. exists c2, (t1 ++ t2). rewrite app_assoc. split; [reflexivity|].
  destruct Hs as (Hsrc & _). rewrite <- Hsrc in Hc2. split; eauto.
Qed.

Lemma walkEntries_outcome env path dirs :
  Forall (fun d => forall path s, coherent env s ->
            exists s',
              walkDir (processPath env) path d s =
                (fst (outcome env (candidates env (gen s) path d) (gen s)), s')
              /\ advances env s (snd (outcome env (candidates env (gen s) path d) (gen s))) s')
         dirs ->
  forall s, coherent env s ->
    let sc := scanEntries (fun d1 => candidates env (gen s) (Filepath.Join path (Name d1)) d1) dirs in
    exists s',
      walkEntries (fun d1 => walkDir (processPath env) (Filepath.Join path (Name d1)) d1) dirs s =
        (fst (outcome env sc (gen s)), s')
      /\ advances env s (snd (outcome env sc (gen s))) s'.
Proof.
  induction 1 as [|d ds Hd Hds IH]; intros s Hco; simpl.
  - exists s. split; [reflexivity | apply advances_refl, Hco].
  - destruct (Hd (Filepath.Join path (Name d)) s Hco) as (s1 & Hcall & Hadv).
    rewrite Hcall.
    set (sc1 := candidates env (gen s) (Filepath.Join path (Name d)) d) in *.
    pose proof (outcome_error env (gen s) (Filepath.Join path (Name d)) d) as Hne.
    pose proof (candidates_failure env (gen s) d (Filepath.Join path (Name d))) as Hnf.
    pose proof (outcome_settings env sc1 (gen s)) as Hset.
    fold sc1 in Hne, Hnf.
    unfold outcome in Hcall, Hadv, Hne, Hset |- *.
    destruct (gatekeeper env (found sc1) (gen s)) as [[e|] g1] eqn:Eadm; simpl in *.
    + (* the budget is exceeded below the first entry *)
      rewrite (Hne e eq_refl).
      destruct (failure sc1) eqn:Ef; simpl.
      * rewrite Eadm. simpl. eauto.
      * rewrite gatekeeper_app, Eadm. simpl. eauto.
    + destruct (failure sc1) as [e|] eqn:Ef; simpl.
      * rewrite (Hnf e eq_refl), Eadm, Ef. simpl. eauto.
      * (* on to the remaining entries *)
        destruct (advances_coherent env s g1 s1 Hset Hadv) as (Hco1 & Hset1).
        destruct (IH s1 Hco1) as (s2 & Hcall2 & Hadv2).
        rewrite Hcall2. clear Hcall2.
        assert (Hsc : scanEntries
                  (fun d1 => candidates env (gen s1) (Filepath.Join path (Name d1)) d1) ds =
                scanEntries
                  (fun d1 => candidates env (gen s) (Filepath.Join path (Name d1)) d1) ds).
        { apply scanEntries_ext, Forall_forall. intros d1 _.
          symmetry. apply candidates_ext, Hset1. }
        rewrite Hsc in *. clear Hsc.
        set (sc := scanEntries _ ds) in *.
        destruct Hadv as (c1 & t1 & Hs1 & Hm1 & Hc1).
        assert (Hg1 : gen s1 = withCache c1 g1) by (rewrite Hs1; reflexivity).
        unfold outcome in Hadv2 |- *. simpl.
        rewrite Hg1, gatekeeper_withCache in Hadv2 |- *.
        rewrite gatekeeper_app, Eadm.
        destruct (gatekeeper env (found sc) g1) as [[e|] g2] eqn:Eadm2; simpl in *.
        -- eexists. split; [reflexivity|].
           eapply advances_trans; [exact Hset | exists c1, t1; eauto |].
           rewrite Hg1. exact Hadv2.
        -- eexists. split; [reflexivity|].
           eapply advances_trans; [exact Hset | exists c1, t1; eauto |].
           rewrite Hg1. exact Hadv2.
Qed.

Lemma walkDir_file fn path name info s :
  walkDir fn path (File name info) s = fn path (Some (File name info)) None s.
Proof.
  simpl. destruct (fn path (Some (File name info)) None s) as [[e|] s1]; [|reflexivity].
  unfold skipped. simpl. rewrite andb_false_r. reflexivity.
Qed.

Lemma walkDir_dir fn path name dirs readErr s :
  walkDir fn path (Directory name dirs readErr) s =
  let d := Directory name dirs readErr in
  let descend :=
    walkEntries (fun d1 => walkDir fn (Filepath.Join path (Name d1)) d1) dirs in
  match fn path (Some d) None s with
  | (Some e, s1) => (skipped d e, s1)
  | (None, s1) =>
      match readErr with
      | None => descend s1
      | Some e =>
          match fn path (Some d) (Some e) s1 with
          | (Some e2, s2) => (skipped d e2, s2)
          | (None, s2) => descend s2
          end
      end
  end.
Proof. reflexivity. Qed.

Lemma walkDir_outcome env d :
  forall path s, coherent env s ->
    exists s',
      walkDir (processPath env) path d s =
        (fst (outcome env (candidates env (gen s) path d) (gen s)), s')
      /\ advances env s (snd (outcome env (candidates env (gen s) path d) (gen s))) s'.
Proof.
  induction d as [name info | name dirs readErr IH] using Entry_ind'; intros path s Hco.
  - destruct (processPath_file env path name info s Hco) as (s' & Hcall & Hadv).
    exists s'. split; [|exact Hadv].
    rewrite walkDir_file. exact Hcall.
  - destruct (processPath_dir env path name dirs readErr s Hco) as (s1 & Hcall & Hadv).
    rewrite walkDir_dir. cbv zeta. rewrite Hcall.
    change (candidates env (gen s) path (Directory name dirs readErr)) with
      (if String.eqb name ".git" || ignoredBy env (gen s) path then nothing
       else match readErr with
            | Some e => {| found := []; failure := skipped (Directory name dirs readErr) e |}
            | None => scanEntries
                (fun d1 => candidates env (gen s) (Filepath.Join path (Name d1)) d1) dirs
            end) in *.
    destruct (String.eqb name ".git" || ignoredBy env (gen s) path).
    { exists s1. split; [reflexivity | exact Hadv]. }
    destruct (advances_coherent env s (gen s) s1 (sameSettings_refl _) Hadv) as (Hco1 & Hset1).
    destruct readErr as [e|].
    + rewrite processPath_error. exists s1. split; [reflexivity | exact Hadv].
    + destruct (walkEntries_outcome env path dirs IH s1 Hco1) as (s2 & Hcall2 & Hadv2).
      simpl in Hcall2, Hadv2. rewrite Hcall2. clear Hcall2.
      assert (Hsc : scanEntries
                (fun d1 => candidates env (gen s1) (Filepath.Join path (Name d1)) d1) dirs =
              scanEntries
                (fun d1 => candidates env (gen s) (Filepath.Join path (Name d1)) d1) dirs).
      { apply scanEntries_ext, Forall_forall. intros d1 _.
        symmetry. apply candidates_ext, Hset1. }
      rewrite Hsc in *. clear Hsc.
      set (sc := scanEntries _ dirs) in *.
      destruct Hadv as (c1 & t1 & Hs1 & Hm1 & Hc1).
      assert (Hg1 : gen s1 = withCache c1 (gen s)) by (rewrite Hs1; reflexivity).
      rewrite Hg1, outcome_withCache in Hadv2 |- *. simpl in *.
      exists s2. split; [reflexivity|].
      eapply advances_trans; [apply sameSettings_refl | exists c1, t1; eauto |].
      rewrite Hg1. exact Hadv2.
Qed.


Lemma Walk_outcome env s :
  coherent env s ->
  exists s',
    Walk env s = (fst (outcome env (rootScan env (gen s)) (gen s)), s')
    /\ advances env s (snd (outcome env (rootScan env (gen s)) (gen s))) s'.
Proof.
  intros Hco. unfold Walk, mbind, M_bind, getGen, WalkDir, rootScan. rewrite emit_eq.
  set (sp := {| gen := gen s; trace := trace s ++ [EvPrint _] |}).
  assert (Hcop : coherent env sp) by exact Hco.
  destruct (Lstat env (srcDir (gen s))) as [tree | e].
  - destruct (walkDir_outcome env tree (srcDir (gen s)) sp Hcop) as (s' & Hcall & Hadv).
    rewrite Hcall. simpl in *.
    pose proof (outcome_error env (gen s) (srcDir (gen s)) tree) as Hne.
    exists s'. split.
    + destruct (fst (outcome env _ (gen s))) as [e|]; [|reflexivity].
      rewrite (Hne e eq_refl). reflexivity.
    + destruct Hadv as (c' & t' & -> & Hm & Hc). eexists c', (_ :: t').
      split; [|auto]. simpl. rewrite <- app_assoc. reflexivity.
  - rewrite processPath_error. exists sp. split.
    + unfold outcome. simpl. destruct (isSkipDir e); reflexivity.
    + unfold outcome. simpl.
      exists (matcherCache (gen s)), [EvPrint ("Scanning directory: " +:+ srcDir (gen s) +:+ String Strings.newline "")].
      rewrite withCache_id. split; [|split]; auto.
Qed.

(** Every state a walk reaches from a coherent state is coherent. *)
Lemma walkDir_coherent env path d s :
  coherent env s -> coherent env (snd (walkDir (processPath env) path d s)).
Proof.
  intros Hco. destruct (walkDir_outcome env d path s Hco) as (s' & Hcall & Hadv).
  rewrite Hcall. simpl.
  eapply advances_coherent; [apply outcome_settings | exact Hadv].
Qed.

Lemma generatorFor_fields env cfg :
  let g := generatorFor env cfg in
  builder g = builderFor env cfg
  /\ srcDir g = SrcDir cfg
  /\ cliIgnoreMatcher g =
       (if String.eqb (IgnoreCli cfg) "" then None
        else Some (CompileIgnoreLines env (Strings.Split (IgnoreCli cfg) ","%char)))
  /\ maxSizeBytes g = mul64 (MaxSizeKB cfg) 1024
  /\ totalSizeLimit g = mul64 (mul64 (MaxTotalSizeMB cfg) 1024) 1024
  /\ currentTotalSize g = 0%Z
  /\ matcherCache g = ∅.
Proof.
  unfold generatorFor, NewGenerator. simpl. unfold WithCliIgnore.
  destruct (String.eqb (IgnoreCli cfg) ""); simpl; repeat split.
Qed.


Lemma startOf_coherent env cfg : coherent env (startOf env cfg).
Proof.
  intros d m Hd. change (matcherCache (generatorFor env cfg) !! d = Some m) in Hd.
  destruct (generatorFor_fields env cfg) as (_ & _ & _ & _ & _ & _ & Hc).
  rewrite Hc, lookup_empty in Hd. discriminate.
Qed.

Lemma run_failed_walk env cfg e g' :
  outcome env (rootScan env (generatorFor env cfg)) (generatorFor env cfg) = (Some e, g') ->
  returned (run env cfg) = Some e
  /\ written (run env cfg) = ""
  /\ builder (gen (final (run env cfg))) = builder g'
  /\ currentTotalSize (gen (final (run env cfg))) = currentTotalSize g'.
Proof.
  intros Hout. unfold run.
  destruct (Walk_outcome env (startOf env cfg) (startOf_coherent env cfg))
    as (s' & Hcall & c' & t' & -> & _).
  unfold startOf in Hcall at 1. simpl in Hcall. rewrite Hcall.
  change (gen (startOf env cfg)) with (generatorFor env cfg).
  rewrite Hout. simpl. auto.
Qed.

Lemma run_finished_walk env cfg g' :
  outcome env (rootScan env (generatorFor env cfg)) (generatorFor env cfg) = (None, g') ->
  builder (gen (final (run env cfg))) = builder g'
  /\ match Builder.Build (engine env) (builder g') with
     | Err err => returned (run env cfg) = Some err /\ written (run env cfg) = ""
     | Ok doc => returned (run env cfg) = snd (Copy env doc)
                 /\ written (run env cfg) = fst (Copy env doc)
     end.
Proof.
  intros Hout. unfold run.
  destruct (Walk_outcome env (startOf env cfg) (startOf_coherent env cfg))
    as (s' & Hcall & c' & t' & -> & _).
  unfold startOf in Hcall at 1. simpl in Hcall. rewrite Hcall.
  change (gen (startOf env cfg)) with (generatorFor env cfg).
  rewrite Hout. simpl.
  destruct (Builder.Build (engine env) (builder g')) as [doc|err]; simpl; [|auto].
  destruct (Copy env doc) as [w err]; simpl. auto.
Qed.

(** The resolver touches nothing but the cache and the trace, whatever the
    cache holds. *)
Lemma findMatcher_frame env dir s :
  exists c' t',
    snd (findMatcherForDir env dir s) =
      {| gen := withCache c' (gen s); trace := trace s ++ t' |}
    /\ Forall resolverEvent t'.
Proof.
  funelim (findMatcherForDir env dir s); clear Heqcall; forget_inspected; simpl.
  - exists (matcherCache (gen s)), [].
    rewrite withCache_id, app_nil_r. destruct s; auto.
  - rewrite lookFor_eq in e0. injection e0 as Hm Hs. subst s1.
    eexists _, _. split; [reflexivity|].
    constructor; [exact I|]. destruct (Stat env _); repeat constructor.
  - rewrite lookFor_eq in e0. injection e0 as Hm Hs. subst s1.
    eexists _, _. split; [reflexivity|].
    constructor; [exact I|]. destruct (Stat env _); repeat constructor.
  - rewrite lookFor_eq in e0. injection e0 as Hm Hs. subst s1.
    destruct Hind as (c1 & t1 & Hsnd & Hev). rewrite Heq in Hsnd. simpl in Hsnd.
    subst s2. eexists _, _. split.
    + unfold cacheMatcher, setCache, withCache. simpl. rewrite <- app_assoc. reflexivity.
    + constructor; [exact I|]. apply Forall_app. split; [|exact Hev].
      destruct (Stat env _); repeat constructor.
Qed.

(** A query for a directory the cache knows is answered from the cache. *)
Lemma findMatcher_cached env dir s r :
  matcherCache (gen s) !! dir = Some r -> findMatcherForDir env dir s = (r, s).
Proof.
  intros Hc. funelim (findMatcherForDir env dir s); congruence.
Qed.

Lemma processPath_file_eq env path name info s :
  processPath env path (Some (File name info)) None s =
  afterResolver env path info
    (fst (findMatcherForDir env (Filepath.Dir path) s))
    (snd (findMatcherForDir env (Filepath.Dir path) s)).
Proof.
  unfold processPath, afterResolver. simpl. unfold mbind, M_bind.
  destruct (findMatcherForDir env (Filepath.Dir path) s) as [m s1]. simpl.
  unfold getGen.
  destruct (_ || _); [reflexivity|].
  destruct (isBinaryExt _); [reflexivity|]. simpl.
  destruct info as [size|]; [|simpl; rewrite <- app_assoc; reflexivity].
  unfold tooLarge, overBudget. simpl.
  destruct (_ && _); [simpl; rewrite <- app_assoc; reflexivity|].
  destruct (_ && _); [reflexivity|]. simpl.
  destruct (ReadFile env path); simpl; rewrite <- ?app_assoc; reflexivity.
Qed.

Lemma processPath_dir_eq env path name dirs readErr s :
  processPath env path (Some (Directory name dirs readErr)) None s =
  if String.eqb name ".git" then (Some SkipDir, s)
  else
    let '(gitMatcher, s1) := findMatcherForDir env (Filepath.Dir path) s in
    if matches gitMatcher path || matches (cliIgnoreMatcher (gen s1)) path
    then (Some SkipDir, s1) else (None, s1).
Proof.
  unfold processPath. simpl. destruct (String.eqb name ".git"); [reflexivity|]. simpl.
  unfold mbind, M_bind.
  destruct (findMatcherForDir env (Filepath.Dir path) s) as [m s1]. unfold getGen.
  destruct (_ || _); reflexivity.
Qed.

(** ** The ignore resolver (C4) *)

(** What the resolver does, with the scan root as the code tests for it
    ([isScanRoot]: the queried directory equals the source directory as it
    was given, or is [.] or [/]). During a scan (the cache holds nothing
    but earlier resolutions), [findMatcherForDir] returns the matcher
    compiled from the rules file of the queried directory when that file is
    present and parses; when the file is missing, unreadable or malformed,
    it returns none where that test holds and the resolution of the parent
    directory elsewhere. In every case the result is cached under the queried
    directory, nothing cached is lost, and a later query for the same
    directory is answered from the cache with no call to the outside and
    no change of state. *)
Theorem findMatcherForDir_resolves env dir s :
  coherent env s ->
  let ignorePath := Filepath.Join dir ".gitignore" in
  let r := fst (findMatcherForDir env dir s) in
  let s' := snd (findMatcherForDir env dir s) in
  (forall matcher,
      Stat env ignorePath = true -> CompileIgnoreFile env ignorePath = Some matcher ->
      r = Some matcher)
  /\ (Stat env ignorePath = false \/ CompileIgnoreFile env ignorePath = None ->
      (isScanRoot (srcDir (gen s)) dir = true -> r = None)
      /\ (isScanRoot (srcDir (gen s)) dir = false ->
          r = fst (findMatcherForDir env (Filepath.Dir dir) s)))
  /\ matcherCache (gen s') !! dir = Some r
  /\ coherent env s'
  /\ (forall d m, matcherCache (gen s) !! d = Some m -> matcherCache (gen s') !! d = Some m)
  /\ (forall s2, matcherCache (gen s2) !! dir = Some r ->
      findMatcherForDir env dir s2 = (r, s2)).
Proof.
  intros Hco ignorePath r s'.
  destruct (findMatcher_spec env dir s Hco) as (c' & t' & Hcall & Hdir & Hmono & Hcoh & _).
  subst r s'. rewrite Hcall. simpl.
  split; [|split; [|split; [|split; [|split]]]].
  - intros matcher Hstat Hcomp. apply resolve_here.
    unfold rulesIn. fold ignorePath. rewrite Hstat. exact Hcomp.
  - intros Habsent.
    assert (Hnone : rulesIn env dir = None).
    { unfold rulesIn. fold ignorePath. destruct Habsent as [-> | Hc]; [reflexivity|].
      destruct (Stat env ignorePath); [exact Hc | reflexivity]. }
    split; intros Hroot.
    + apply resolve_root; assumption.
    + destruct (findMatcher_spec env (Filepath.Dir dir) s Hco) as (c2 & t2 & Hcall2 & _).
      rewrite Hcall2. simpl. apply resolve_parent; assumption.
  - exact Hdir.
  - intros d m Hd. simpl in Hd. simpl. eauto.
  - exact Hmono.
  - intros s2 Hc. apply findMatcher_cached, Hc.
Qed.

(** The scan root is recognised by comparing strings: a source directory
    given in a form that [filepath.Dir] never returns (a leading [./], a
    trailing separator) is not recognised, and the resolution goes on to
    [.] or [/]. *)
Remark scan_root_is_compared_as_given :
  isScanRoot "proj" (Filepath.Dir "proj/a.go") = true
  /\ isScanRoot "./proj" (Filepath.Dir (Filepath.Join "./proj" "a.go")) = false
  /\ isScanRoot "proj/" (Filepath.Dir (Filepath.Join "proj/" "a.go")) = false.
Proof. repeat split. Qed.

Lemma freshState_coherent env src : coherent env (freshState src).
Proof. intros d m Hd. simpl in Hd. rewrite lookup_empty in Hd. discriminate. Qed.

Lemma findMatcherForDir_resolves_witness :
  coherent quietEnv (freshState "proj")
  /\ fst (findMatcherForDir quietEnv "proj/a" (freshState "proj")) =
       fst (findMatcherForDir quietEnv "proj" (freshState "proj"))
  /\ matcherCache (gen (snd (findMatcherForDir quietEnv "proj/a" (freshState "proj"))))
       !! "proj/a"
     = Some (fst (findMatcherForDir quietEnv "proj/a" (freshState "proj"))).
Proof.
  pose proof (findMatcherForDir_resolves quietEnv "proj/a" (freshState "proj")
                (freshState_coherent quietEnv "proj")) as H.
  cbv zeta in H. destruct H as (_ & Habsent & Hcached & _).
  destruct (Habsent (or_introl eq_refl)) as (_ & Hparent).
  split; [apply freshState_coherent|]. split; [|exact Hcached].
  apply Hparent. reflexivity.
Defined.

(** ** Exclusion, classification and the size checks (C5, C6, C8, C9) *)

Lemma add64_exact a b :
  (minInt64 <= a + b <= maxInt64)%Z -> add64 a b = (a + b)%Z.
Proof.
  unfold add64, wrap64, minInt64, maxInt64. intros H.
  rewrite Z.mod_small; lia.
Qed.

Lemma resolver_frame env dir s :
  let s1 := snd (findMatcherForDir env dir s) in
  gen s1 = withCache (matcherCache (gen s1)) (gen s)
  /\ exists t, trace s1 = trace s ++ t /\ Forall resolverEvent t.
Proof.
  destruct (findMatcher_frame env dir s) as (c & t & -> & Hev). simpl.
  split; [reflexivity | eauto].
Qed.

(** C5. An entry (other than a [.git] directory, which is pruned before any
    rule is consulted) is excluded exactly when the matcher resolved for
    the directory that contains it matches its path or the command-line
    matcher does. An excluded directory makes [processPath] return
    [SkipDir], and the walk of it ends there without an error and without
    visiting anything below; an excluded file is skipped, with no error,
    nothing delivered and no further check made. An entry that is not
    excluded goes on: a directory is descended into, a file reaches the
    classification by extension. *)
Theorem excluded_by_either_source env path d s :
  IsDir d && String.eqb (Name d) ".git" = false ->
  let gitMatcher := fst (findMatcherForDir env (Filepath.Dir path) s) in
  let s1 := snd (findMatcherForDir env (Filepath.Dir path) s) in
  let excluded := matches gitMatcher path || matches (cliIgnoreMatcher (gen s)) path in
  (gen s1 = withCache (matcherCache (gen s1)) (gen s)
   /\ exists t, trace s1 = trace s ++ t /\ Forall resolverEvent t)
  /\ (excluded = true ->
      processPath env path (Some d) None s = (if IsDir d then Some SkipDir else None, s1)
      /\ walkDir (processPath env) path d s = (None, s1))
  /\ (excluded = false ->
      if IsDir d then processPath env path (Some d) None s = (None, s1)
      else exists ev t,
          (ev = EvLog (SkippingBinary path) \/ ev = EvInfo path)
          /\ trace (snd (processPath env path (Some d) None s)) = trace s1 ++ ev :: t).
Proof.
  intros Hgit gitMatcher s1 excluded.
  pose proof (resolver_frame env (Filepath.Dir path) s) as Hframe. cbv zeta in Hframe.
  fold s1 in Hframe. split; [exact Hframe|].
  destruct Hframe as (Hgen & _).
  assert (Hcli : cliIgnoreMatcher (gen s1) = cliIgnoreMatcher (gen s))
    by (rewrite Hgen; reflexivity).
  destruct d as [name info | name dirs readErr].
  - rewrite walkDir_file, processPath_file_eq. fold gitMatcher s1.
    unfold afterResolver. rewrite Hcli. fold excluded. simpl.
    split; intros Hex; rewrite Hex; [auto|].
    destruct (isBinaryExt (Filepath.Ext path)).
    { eexists _, []. split; [left; reflexivity | reflexivity]. }
    eexists (EvInfo path).
    destruct info as [size|]; [|eexists; split; [right; reflexivity | reflexivity]].
    destruct (tooLarge (gen s1) size); [eexists; split; [right; reflexivity | reflexivity]|].
    destruct (overBudget (gen s1) size); [eexists; split; [right; reflexivity | reflexivity]|].
    destruct (ReadFile env path); eexists; (split; [right; reflexivity | reflexivity]).
  - simpl in Hgit. rewrite walkDir_dir. cbv zeta. rewrite processPath_dir_eq, Hgit.
    pose proof (surjective_pairing (findMatcherForDir env (Filepath.Dir path) s)) as Hp.
    fold gitMatcher s1 in Hp. rewrite Hp, Hcli. fold excluded. simpl.
    split; intros Hex; rewrite Hex; auto.
Qed.

Lemma excluded_by_either_source_witness :
  processPath gitignoreEnv "proj/secret.txt" (Some (File "secret.txt" (Some 20%Z))) None
    (freshState "proj")
  = (None, snd (findMatcherForDir gitignoreEnv "proj" (freshState "proj"))).
Proof.
  apply (excluded_by_either_source gitignoreEnv "proj/secret.txt"
           (File "secret.txt" (Some 20%Z)) (freshState "proj") eq_refl).
  vm_compute. reflexivity.
Defined.

(** C6. With a per-file ceiling configured, a file that no rule excludes
    and whose extension is not binary is skipped when its size is strictly
    above the ceiling: the walk of it returns no error, so the traversal
    continues, and nothing but the cache and the trace has changed. A file
    of exactly the ceiling size passes the per-file check, and with no
    cumulative ceiling and a readable content it is delivered to the
    builder. *)
Theorem per_file_ceiling env path name size s :
  let d := File name (Some size) in
  let gitMatcher := fst (findMatcherForDir env (Filepath.Dir path) s) in
  let s1 := snd (findMatcherForDir env (Filepath.Dir path) s) in
  (0 < maxSizeBytes (gen s))%Z ->
  matches gitMatcher path || matches (cliIgnoreMatcher (gen s)) path = false ->
  isBinaryExt (Filepath.Ext path) = false ->
  gen s1 = withCache (matcherCache (gen s1)) (gen s)
  /\ ((maxSizeBytes (gen s) < size)%Z ->
      walkDir (processPath env) path d s =
        (None, {| gen := gen s1;
                  trace := trace s1 ++ [EvInfo path; EvLog (SkippingLarge path size)] |}))
  /\ (size = maxSizeBytes (gen s) ->
      tooLarge (gen s) size = false
      /\ (totalSizeLimit (gen s) = 0%Z ->
          forall content, ReadFile env path = Some content ->
          walkDir (processPath env) path d s =
            (None, {| gen := accept size (fileRecord env (gen s1) path content) (gen s1);
                      trace := trace s1 ++ [EvInfo path; EvReadFile path] |}))).
Proof.
  intros d gitMatcher s1 Hmax Hex Hbin.
  destruct (resolver_frame env (Filepath.Dir path) s) as (Hgen & _). fold s1 in Hgen.
  split; [exact Hgen|].
  unfold d. rewrite walkDir_file, processPath_file_eq. fold gitMatcher s1.
  unfold afterResolver, tooLarge, overBudget.
  rewrite Hgen. simpl. rewrite Hex, Hbin.
  apply Z.ltb_lt in Hmax. rewrite Hmax. simpl.
  split.
  - intros Hlt. apply Z.ltb_lt in Hlt. rewrite Hlt. reflexivity.
  - intros ->. rewrite Z.ltb_irrefl. split; [reflexivity|].
    intros -> content ->. reflexivity.
Qed.

Lemma per_file_ceiling_witness :
  let s := {| gen := NewGenerator [WithSrcDir "proj"; WithMaxSize 1]; trace := [] |} in
  fst (walkDir (processPath gitignoreEnv) "proj/a.go" (File "a.go" (Some 1025%Z)) s) = None
  /\ Builder.files (builder (gen (snd
        (walkDir (processPath gitignoreEnv) "proj/a.go" (File "a.go" (Some 1025%Z)) s)))) = []
  /\ map Path (Builder.files (builder (gen (snd
        (walkDir (processPath gitignoreEnv) "proj/a.go" (File "a.go" (Some 1024%Z)) s)))))
     = ["proj/a.go"].
Proof.
  cbv zeta.
  set (s := {| gen := NewGenerator [WithSrcDir "proj"; WithMaxSize 1]; trace := [] |}).
  destruct (per_file_ceiling gitignoreEnv "proj/a.go" "a.go" 1025 s)
    as (_ & Hlarge & _); [reflexivity | reflexivity | reflexivity |].
  destruct (per_file_ceiling gitignoreEnv "proj/a.go" "a.go" 1024 s)
    as (_ & _ & Hexact); [reflexivity | reflexivity | reflexivity |].
  destruct (Hexact eq_refl) as (_ & Hdelivered).
  rewrite (Hlarge eq_refl).
  rewrite (Hdelivered eq_refl _ eq_refl).
  repeat split.
Defined.

(** C8. For a file entry the rules are consulted first: an excluded file is
    dropped after the resolver alone has run, whatever its extension and
    size. A file that is not excluded and has a binary extension is skipped
    next, with one log line: its size is never asked for, its content is
    never read, the running total and the builder stay as they were, and no
    ceiling can turn the skip into an error. *)
Theorem checks_in_order env path name info s :
  let d := File name info in
  let gitMatcher := fst (findMatcherForDir env (Filepath.Dir path) s) in
  let s1 := snd (findMatcherForDir env (Filepath.Dir path) s) in
  let excluded := matches gitMatcher path || matches (cliIgnoreMatcher (gen s)) path in
  (gen s1 = withCache (matcherCache (gen s1)) (gen s)
   /\ exists t, trace s1 = trace s ++ t /\ Forall resolverEvent t)
  /\ (excluded = true -> processPath env path (Some d) None s = (None, s1))
  /\ (excluded = false -> isBinaryExt (Filepath.Ext path) = true ->
      processPath env path (Some d) None s =
        (None, {| gen := gen s1; trace := trace s1 ++ [EvLog (SkippingBinary path)] |}))
  /\ (isBinaryExt (Filepath.Ext path) = true ->
      let s' := snd (processPath env path (Some d) None s) in
      fst (processPath env path (Some d) None s) = None
      /\ currentTotalSize (gen s') = currentTotalSize (gen s)
      /\ builder (gen s') = builder (gen s)
      /\ exists t, trace s' = trace s ++ t
                   /\ ~ In (EvInfo path) t /\ ~ In (EvReadFile path) t).
Proof.
  intros d gitMatcher s1 excluded.
  pose proof (resolver_frame env (Filepath.Dir path) s) as Hframe. cbv zeta in Hframe.
  fold s1 in Hframe. split; [exact Hframe|].
  destruct Hframe as (Hgen & t & Ht & Hev).
  assert (Hcli : cliIgnoreMatcher (gen s1) = cliIgnoreMatcher (gen s))
    by (rewrite Hgen; reflexivity).
  assert (Hquiet : ~ In (EvInfo path) t /\ ~ In (EvReadFile path) t).
  { rewrite List.Forall_forall in Hev. split; intros Hin; apply Hev in Hin; exact Hin. }
  unfold d. rewrite processPath_file_eq. fold gitMatcher s1.
  unfold afterResolver. rewrite Hcli. fold excluded.
  split; [intros ->; reflexivity|].
  split; [intros -> ->; reflexivity|].
  intros Hbin. rewrite Hbin.
  destruct excluded; simpl.
  - rewrite Hgen. simpl. repeat split; try reflexivity. exists t. tauto.
  - rewrite Hgen. simpl. repeat split; try reflexivity.
    exists (t ++ [EvLog (SkippingBinary path)]). rewrite Ht, <- app_assoc.
    split; [reflexivity|]. destruct Hquiet as (H1 & H2).
    split; intros Hin; apply in_app_or in Hin as [Hin | [Hin | []]];
      try discriminate; tauto.
Qed.

Lemma checks_in_order_witness :
  let s := {| gen := NewGenerator [WithSrcDir "proj"; WithTotalSizeLimit 1]; trace := [] |} in
  processPath gitignoreEnv "proj/b.png" (Some (File "b.png" (Some 2000000%Z))) None s
  = (None,
     {| gen := gen (snd (findMatcherForDir gitignoreEnv "proj" s));
        trace := trace (snd (findMatcherForDir gitignoreEnv "proj" s))
                 ++ [EvLog (SkippingBinary "proj/b.png")] |}).
Proof.
  cbv zeta.
  apply (checks_in_order gitignoreEnv "proj/b.png" "b.png" (Some 2000000%Z)
           {| gen := NewGenerator [WithSrcDir "proj"; WithTotalSizeLimit 1]; trace := [] |});
    reflexivity.
Defined.

(** C9. A file that passes the rules, the classification and both size
    checks, but whose content cannot be read, is skipped: the walk of it
    returns no error and neither the running total nor the builder changes.
    In any call of [processPath] at all, the running total and the builder
    either stay as they are, or the entry is a file whose content was read,
    the file is delivered to the builder and the running total grows by its
    size (in [int64] arithmetic; exactly, when the sum fits). *)
Theorem unreadable_file_leaves_total env path name size s :
  let d := File name (Some size) in
  let gitMatcher := fst (findMatcherForDir env (Filepath.Dir path) s) in
  let s1 := snd (findMatcherForDir env (Filepath.Dir path) s) in
  matches gitMatcher path || matches (cliIgnoreMatcher (gen s)) path = false ->
  isBinaryExt (Filepath.Ext path) = false ->
  tooLarge (gen s) size = false ->
  overBudget (gen s) size = false ->
  ReadFile env path = None ->
  (walkDir (processPath env) path d s =
     (None, {| gen := gen s1;
               trace := trace s1 ++ [EvInfo path; EvReadFile path; EvLog (CouldNotRead path)] |})
   /\ currentTotalSize (gen s1) = currentTotalSize (gen s)
   /\ builder (gen s1) = builder (gen s))
  /\ (forall path' d' err' s0,
        let s' := snd (processPath env path' d' err' s0) in
        (currentTotalSize (gen s') = currentTotalSize (gen s0)
         /\ builder (gen s') = builder (gen s0))
        \/ (exists name' size' content,
              d' = Some (File name' (Some size')) /\ err' = None
              /\ ReadFile env path' = Some content
              /\ currentTotalSize (gen s') = add64 (currentTotalSize (gen s0)) size'
              /\ ((minInt64 <= currentTotalSize (gen s0) + size' <= maxInt64)%Z ->
                  currentTotalSize (gen s') = (currentTotalSize (gen s0) + size')%Z)
              /\ builder (gen s') =
                   Builder.AddFile (fileRecord env (gen s0) path' content) (builder (gen s0)))).
Proof.
  intros d gitMatcher s1 Hex Hbin Hlarge Hbudget Hread.
  split.
  - destruct (resolver_frame env (Filepath.Dir path) s) as (Hgen & _). fold s1 in Hgen.
    unfold d. rewrite walkDir_file, processPath_file_eq. fold gitMatcher s1.
    assert (Hl : tooLarge (gen s1) size = tooLarge (gen s) size) by (rewrite Hgen; reflexivity).
    assert (Hb : overBudget (gen s1) size = overBudget (gen s) size) by (rewrite Hgen; reflexivity).
    assert (Hc : cliIgnoreMatcher (gen s1) = cliIgnoreMatcher (gen s)) by (rewrite Hgen; reflexivity).
    assert (Ht : currentTotalSize (gen s1) = currentTotalSize (gen s)) by (rewrite Hgen; reflexivity).
    assert (Hbd : builder (gen s1) = builder (gen s)) by (rewrite Hgen; reflexivity).
    unfold afterResolver. rewrite Hl, Hb, Hc.
    rewrite Hex, Hbin, Hlarge, Hbudget, Hread. simpl. auto.
  - clear. intros path d err s. cbv zeta.
    destruct err as [e|]; [left; split; reflexivity|].
    destruct d as [[name info | name dirs readErr]|]; [| |left; split; reflexivity].
    + rewrite processPath_file_eq.
      destruct (resolver_frame env (Filepath.Dir path) s) as (Hgen & _).
      set (m := fst (findMatcherForDir env (Filepath.Dir path) s)) in *.
      set (s1 := snd (findMatcherForDir env (Filepath.Dir path) s)) in *.
      assert (Ht : currentTotalSize (gen s1) = currentTotalSize (gen s)) by (rewrite Hgen; reflexivity).
      assert (Hb : builder (gen s1) = builder (gen s)) by (rewrite Hgen; reflexivity).
      assert (Hsrc : srcDir (gen s1) = srcDir (gen s)) by (rewrite Hgen; reflexivity).
      unfold afterResolver.
      destruct (_ || _); [left; auto|].
      destruct (isBinaryExt _); [left; auto|].
      destruct info as [size|]; [|left; auto].
      destruct (tooLarge (gen s1) size); [left; auto|].
      destruct (overBudget (gen s1) size); [left; auto|].
      destruct (ReadFile env path) as [content|] eqn:Hread; [|left; auto].
      right. exists name, size, content. simpl. rewrite Ht, Hb.
      unfold fileRecord. rewrite Hsrc.
      repeat split; try reflexivity. intros Hfit. apply add64_exact, Hfit.
    + rewrite processPath_dir_eq. left.
      destruct (String.eqb name ".git"); [split; reflexivity|].
      destruct (resolver_frame env (Filepath.Dir path) s) as (Hgen & _).
      destruct (findMatcherForDir env (Filepath.Dir path) s) as [m s1]. simpl in Hgen.
      destruct (_ || _); simpl; rewrite Hgen; split; reflexivity.
Qed.

Lemma unreadable_file_leaves_total_witness :
  walkDir (processPath quietEnv) "proj/a.go" (File "a.go" (Some 10%Z)) (freshState "proj")
  = (None,
     {| gen := gen (snd (findMatcherForDir quietEnv "proj" (freshState "proj")));
        trace := trace (snd (findMatcherForDir quietEnv "proj" (freshState "proj")))
                 ++ [EvInfo "proj/a.go"; EvReadFile "proj/a.go";
                     EvLog (CouldNotRead "proj/a.go")] |}).
Proof.
  apply (unreadable_file_leaves_total quietEnv "proj/a.go" "a.go" 10 (freshState "proj"));
    reflexivity.
Defined.

(** C4, at the failing input. The project [proj] holds no rules file and
    the working directory holds one. Scanned as [proj], the resolver
    answers none for [proj], the scan root, as C4 says, and both files are
    delivered. Scanned as [./proj], the same directory is queried under
    the same name [proj] (the walk joins and cleans the paths of the
    entries), the comparison with the source directory as given fails, and
    the resolver goes on to the parent: it answers with the rules of the
    working directory, which exclude [secret.txt]. *)
Lemma unclean_source_directory_misses_the_root :
  Filepath.Clean "./proj" = "proj"
  /\ Filepath.Dir (Filepath.Join "./proj" "secret.txt") = "proj"
  /\ rulesIn outerRulesEnv "proj" = None
  /\ fst (findMatcherForDir outerRulesEnv "proj" (freshState "proj")) = None
  /\ isScanRoot "./proj" "proj" = false
  /\ fst (findMatcherForDir outerRulesEnv "proj" (freshState "./proj"))
     = fst (findMatcherForDir outerRulesEnv "." (freshState "./proj"))
  /\ matches (fst (findMatcherForDir outerRulesEnv "proj" (freshState "./proj")))
       "proj/secret.txt" = true
  /\ map Path (Builder.files (builder (gen (final (run outerRulesEnv (scanOf "proj"))))))
     = ["proj/a.go"; "proj/secret.txt"]
  /\ map Path (Builder.files (builder (gen (final (run outerRulesEnv (scanOf "./proj"))))))
     = ["proj/a.go"].
Proof.
  repeat split; vm_compute; reflexivity.
Qed.

(** ** The cumulative ceiling (C2) *)

(** The sum of the cumulative check is an [int64] sum: past the largest
    [int64] it wraps to a negative number, and the check lets the file
    through. File sizes this large are left out of C2 by its hypothesis on
    sizes. *)
Remark budget_check_wraps :
  let g := accept 1 ReviewBuilder.emptyFile (NewGenerator [WithTotalSizeLimit 1]) in
  currentTotalSize g = 1%Z /\ totalSizeLimit g = 1048576%Z
  /\ overBudget g maxInt64 = false.
Proof. repeat split. Qed.

Lemma files_AddFile file b : Builder.files (Builder.AddFile file b) = Builder.files b ++ [file].
Proof. destruct b; reflexivity. Qed.

Lemma files_builderFor env cfg : Builder.files (builderFor env cfg) = [].
Proof.
  unfold builderFor, selectBuilder.
  destruct (ReadFile env _);
    destruct (String.eqb (Format cfg) "review");
    try destruct (String.eqb (Format cfg) "llm"); reflexivity.
Qed.

Lemma acceptedFiles_ext env g g' cands :
  srcDir g = srcDir g' -> acceptedFiles env g cands = acceptedFiles env g' cands.
Proof.
  intros Hs. induction cands as [|[p size] rest IH]; simpl; [reflexivity|].
  unfold fileRecord. rewrite Hs, IH. reflexivity.
Qed.

Lemma gatekeeper_within env pre :
  forall g,
    (0 < totalSizeLimit g)%Z ->
    (0 <= currentTotalSize g <= totalSizeLimit g)%Z ->
    Forall (fun c => 0 <= snd c <= maxInt64 - totalSizeLimit g)%Z pre ->
    (forall pre1 q sq pre2, pre = pre1 ++ (q, sq) :: pre2 ->
       (currentTotalSize g + acceptedSize env pre1 + sq <= totalSizeLimit g)%Z) ->
    exists g',
      gatekeeper env pre g = (None, g')
      /\ sameSettings g g'
      /\ currentTotalSize g' = (currentTotalSize g + acceptedSize env pre)%Z
      /\ Builder.files (builder g') = Builder.files (builder g) ++ acceptedFiles env g pre.
Proof.
  induction pre as [|[p size] pre IH]; intros g HB Htot Hsizes Hfirst.
  - exists g. simpl. rewrite Z.add_0_r, app_nil_r. repeat split.
  - apply Forall_cons in Hsizes as [Hsz Hsizes]. simpl in Hsz.
    pose proof (Hfirst [] p size pre eq_refl) as Hfit. simpl in Hfit.
    assert (Hexact : add64 (currentTotalSize g) size = (currentTotalSize g + size)%Z).
    { apply add64_exact. unfold minInt64, maxInt64 in *. lia. }
    simpl. unfold overBudget. rewrite Hexact.
    replace (totalSizeLimit g <? currentTotalSize g + size)%Z with false
      by (symmetry; apply Z.ltb_ge; lia).
    rewrite andb_false_r.
    destruct (ReadFile env p) as [content|] eqn:Hread.
    + destruct (IH (accept size (fileRecord env g p content) g)) as (g' & Hadm & Hset & Ht & Hf).
      * exact HB.
      * simpl. rewrite Hexact. lia.
      * exact Hsizes.
      * intros pre1 q sq pre2 ->. simpl. rewrite Hexact.
        pose proof (Hfirst ((p, size) :: pre1) q sq pre2 eq_refl) as H.
        simpl in H. rewrite Hread in H. lia.
      * exists g'. split; [exact Hadm|]. split.
        { eapply sameSettings_trans; [apply sameSettings_accept | exact Hset]. }
        split.
        { rewrite Ht. simpl. rewrite Hexact. lia. }
        { rewrite Hf. simpl. rewrite files_AddFile, <- app_assoc.
          rewrite (acceptedFiles_ext env _ g) by reflexivity. reflexivity. }
    + destruct (IH g) as (g' & Hadm & Hset & Ht & Hf); try assumption.
      * intros pre1 q sq pre2 ->.
        pose proof (Hfirst ((p, size) :: pre1) q sq pre2 eq_refl) as H.
        simpl in H. rewrite Hread in H. exact H.
      * exists g'. auto.
Qed.

Lemma acceptedSize_bound env pre B :
  (0 <= B)%Z ->
  Forall (fun c => 0 <= snd c)%Z pre ->
  (forall pre1 q sq pre2, pre = pre1 ++ (q, sq) :: pre2 ->
     (acceptedSize env pre1 + sq <= B)%Z) ->
  (0 <= acceptedSize env pre <= B)%Z.
Proof.
  intros HB. induction pre as [|[p size] pre IH] using rev_ind; intros Hsz Hfirst.
  - simpl. lia.
  - apply Forall_app in Hsz as [Hsz Hlast].
    apply Forall_cons in Hlast as [Hlast _]. simpl in Hlast.
    assert (IH' : (0 <= acceptedSize env pre <= B)%Z).
    { apply IH; [exact Hsz|]. intros pre1 q sq pre2 ->.
      apply (Hfirst pre1 q sq (pre2 ++ [(p, size)])).
      rewrite <- app_assoc. reflexivity. }
    pose proof (Hfirst pre p size [] eq_refl) as Hfit.
    assert (Happ : forall l, acceptedSize env (l ++ [(p, size)]) =
              (acceptedSize env l + match ReadFile env p with Some _ => size | None => 0 end)%Z).
    { induction l as [|[q sq] l IHl]; simpl.
      - destruct (ReadFile env p); lia.
      - rewrite IHl. destruct (ReadFile env q); lia. }
    rewrite Happ. destruct (ReadFile env p); lia.
Qed.

(** C2, amended. With a cumulative ceiling [B] configured and candidate
    files whose sizes lie between 0 and [maxInt64 - B] (so that the
    [int64] sum of the check does not wrap), take the candidate files of the walk
    in traversal order: at the first candidate whose size, added to the
    sizes of the files accepted before it, exceeds [B], the walk returns the
    size-limit error. The builder then holds exactly the files accepted
    before that point, and [run] returns the error without building: nothing
    reaches the output. *)
Theorem budget_exceeded_aborts env cfg tree pre p size post :
  let g0 := generatorFor env cfg in
  let B := totalSizeLimit g0 in
  (0 < B)%Z ->
  Lstat env (SrcDir cfg) = Ok tree ->
  found (candidates env g0 (SrcDir cfg) tree) = pre ++ (p, size) :: post ->
  Forall (fun c => 0 <= snd c <= maxInt64 - B)%Z (pre ++ [(p, size)]) ->
  (forall pre1 q sq pre2, pre = pre1 ++ (q, sq) :: pre2 ->
     (acceptedSize env pre1 + sq <= B)%Z) ->
  (acceptedSize env pre + size > B)%Z ->
  fst (Walk env (startOf env cfg)) = Some (TotalSizeLimitExceeded B)
  /\ returned (run env cfg) = Some (TotalSizeLimitExceeded B)
  /\ written (run env cfg) = ""
  /\ Builder.files (builder (gen (final (run env cfg)))) = acceptedFiles env g0 pre
  /\ currentTotalSize (gen (final (run env cfg))) = acceptedSize env pre.
Proof.
  intros g0 B HB Hlstat Hfound Hsizes Hfirst Hover.
  destruct (generatorFor_fields env cfg) as (Hb & Hsrc & _ & _ & _ & Htot & _).
  fold g0 in Hb, Hsrc, Htot.
  apply Forall_app in Hsizes as [Hpre Hlast].
  apply Forall_cons in Hlast as [Hlast _]. simpl in Hlast.
  assert (Hacc : (0 <= acceptedSize env pre <= B)%Z).
  { apply acceptedSize_bound; [lia | | exact Hfirst].
    eapply Forall_impl; [exact Hpre|]. simpl. intros c Hc. lia. }
  destruct (gatekeeper_within env pre g0) as (g' & Hadm & Hset & Ht & Hf).
  - exact HB.
  - rewrite Htot. fold B. lia.
  - exact Hpre.
  - intros pre1 q sq pre2 Heq. rewrite Htot. fold B.
    pose proof (Hfirst pre1 q sq pre2 Heq). lia.
  - rewrite Htot, Z.add_0_l in Ht.
    destruct Hset as (_ & _ & _ & Hlim).
    assert (Hout : outcome env (rootScan env g0) g0 = (Some (TotalSizeLimitExceeded B), g')).
    { unfold outcome, rootScan. rewrite Hsrc, Hlstat, Hfound, gatekeeper_app, Hadm.
      simpl. unfold overBudget. rewrite <- Hlim. fold B. rewrite Ht.
      rewrite add64_exact by (unfold minInt64, maxInt64 in *; lia).
      replace (0 <? B)%Z with true by (symmetry; apply Z.ltb_lt; lia).
      replace (B <? acceptedSize env pre + size)%Z with true
        by (symmetry; apply Z.ltb_lt; lia).
      reflexivity. }
    destruct (run_failed_walk env cfg _ _ Hout) as (Hr & Hw & Hbuilder & Htotal).
    rewrite Hr, Hw, Hbuilder, Htotal, Hf, Hb, files_builderFor, Ht.
    split; [|auto].
    destruct (Walk_outcome env (startOf env cfg) (startOf_coherent env cfg))
      as (s' & Hcall & _).
    rewrite Hcall. change (gen (startOf env cfg)) with g0. rewrite Hout. reflexivity.
Qed.

(** C2 as stated fails: under a ceiling of one megabyte, the second
    candidate is as large as an [int64] can say. Added to the one byte
    accepted before it, it exceeds the ceiling, but the [int64] sum wraps
    to a negative number: the walk does not end there, the third file is
    accepted too, [run] returns no error and writes the document. *)
Lemma huge_file_is_let_through :
  totalSizeLimit (generatorFor hugeEnv hugeCfg) = 1048576%Z
  /\ found (candidates hugeEnv (generatorFor hugeEnv hugeCfg) "proj" hugeTree)
     = [("proj/a.txt", 1%Z); ("proj/b.txt", maxInt64); ("proj/c.txt", 5%Z)]
  /\ (1 + maxInt64 > 1048576)%Z
  /\ fst (Walk hugeEnv (startOf hugeEnv hugeCfg)) = None
  /\ returned (run hugeEnv hugeCfg) = None
  /\ written (run hugeEnv hugeCfg) = "document"
  /\ map Path (Builder.files (builder (gen (final (run hugeEnv hugeCfg)))))
     = ["proj/a.txt"; "proj/b.txt"; "proj/c.txt"].
Proof.
  repeat split; vm_compute; reflexivity.
Qed.

Lemma budget_exceeded_aborts_witness :
  returned (run budgetEnv budgetCfg) = Some (TotalSizeLimitExceeded 1048576)
  /\ written (run budgetEnv budgetCfg) = ""
  /\ map Path (Builder.files (builder (gen (final (run budgetEnv budgetCfg)))))
     = ["proj/a.txt"; "proj/b.txt"]
  /\ currentTotalSize (gen (final (run budgetEnv budgetCfg))) = 1000000%Z.
Proof.
  destruct (budget_exceeded_aborts budgetEnv budgetCfg
              (Directory "proj"
                 [File "a.txt" (Some 600000%Z); File "b.txt" (Some 400000%Z);
                  File "c.txt" (Some 100000%Z); File "d.txt" (Some 1%Z)] None)
              [("proj/a.txt", 600000%Z); ("proj/b.txt", 400000%Z)]
              "proj/c.txt" 100000%Z [("proj/d.txt", 1%Z)])
    as (_ & Hr & Hw & Hf & Ht).
  - reflexivity.
  - reflexivity.
  - vm_compute. reflexivity.
  - repeat constructor; vm_compute; discriminate.
  - intros [|x [|y [|z l]]] q sq pre2 Heq; simpl in Heq.
    + injection Heq as <- <- _. vm_compute. discriminate.
    + injection Heq as <- <- <- _. vm_compute. discriminate.
    + injection Heq as _ _ Heq. discriminate.
    + injection Heq as _ _ Heq. destruct l; discriminate.
  - vm_compute. reflexivity.
  - rewrite Hr, Hw, Hf, Ht. repeat split.
Defined.

(** ** The accepted set with no rules and no limits (C3) *)

Lemma resolve_none env src dir :
  (forall d, rulesIn env d = None) -> resolve env src dir = None.
Proof.
  intros Hnone. funelim (resolve env src dir); try reflexivity.
  - pose proof (Hnone dir) as Hd. congruence.
  - auto.
Qed.

Lemma filter_flat_map {A B} (f : B -> bool) (h : A -> list B) l :
  List.filter f (flat_map h l) = flat_map (fun x => List.filter f (h x)) l.
Proof.
  induction l as [|x l IH]; simpl; [reflexivity|].
  rewrite List.filter_app, IH. reflexivity.
Qed.

Lemma flat_map_flat_map {A B C} (f : B -> list C) (h : A -> list B) l :
  flat_map f (flat_map h l) = flat_map (fun x => flat_map f (h x)) l.
Proof.
  induction l as [|x l IH]; simpl; [reflexivity|].
  rewrite flat_map_app, IH. reflexivity.
Qed.

Lemma flat_map_ext_Forall {A B} (f h : A -> list B) l :
  Forall (fun x => f x = h x) l -> flat_map f l = flat_map h l.
Proof.
  induction 1 as [|x l Hx _ IH]; simpl; [reflexivity|].
  rewrite Hx, IH. reflexivity.
Qed.

Lemma scanEntries_flat (sc : Entry -> Scan) (F : Entry -> list (string * Z)) dirs :
  Forall (fun d => sc d = {| found := F d; failure := None |}) dirs ->
  scanEntries sc dirs = {| found := flat_map F dirs; failure := None |}.
Proof.
  induction 1 as [|d ds Hd _ IH]; simpl; [reflexivity|].
  rewrite Hd, IH. reflexivity.
Qed.

Lemma candidates_unfiltered env g :
  (forall d, rulesIn env d = None) ->
  cliIgnoreMatcher g = None ->
  maxSizeBytes g = 0%Z ->
  forall d path, listable d = true ->
    candidates env g path d =
      {| found := flat_map sized (eligible path d); failure := None |}.
Proof.
  intros Hnone Hcli Hmax d.
  assert (Hign : forall path, ignoredBy env g path = false).
  { intros path. unfold ignoredBy. rewrite resolve_none, Hcli by exact Hnone. reflexivity. }
  induction d as [name info | name dirs readErr IH] using Entry_ind'; intros path Hlist.
  - simpl. rewrite Hign. unfold eligible. simpl.
    destruct (isBinaryExt (Filepath.Ext path)); simpl; [reflexivity|].
    unfold sized. simpl. destruct info as [size|]; [|reflexivity].
    unfold tooLarge. rewrite Hmax. reflexivity.
  - simpl. rewrite Hign. unfold eligible. simpl.
    destruct (String.eqb name ".git"); simpl; [reflexivity|].
    simpl in Hlist. destruct readErr; [discriminate|].
    rewrite filter_flat_map, flat_map_flat_map.
    apply scanEntries_flat.
    rewrite forallb_forall in Hlist.
    rewrite List.Forall_forall in IH |- *. intros d Hd.
    apply IH; [exact Hd | apply Hlist, Hd].
Qed.

Lemma gatekeeper_unlimited env cands :
  forall g, totalSizeLimit g = 0%Z ->
    exists g',
      gatekeeper env cands g = (None, g')
      /\ Builder.files (builder g') = Builder.files (builder g) ++ acceptedFiles env g cands.
Proof.
  induction cands as [|[p size] rest IH]; intros g Hlim; simpl.
  - exists g. rewrite app_nil_r. auto.
  - unfold overBudget. rewrite Hlim. simpl.
    destruct (ReadFile env p) as [content|].
    + destruct (IH (accept size (fileRecord env g p content) g) Hlim) as (g' & Hadm & Hf).
      exists g'. split; [exact Hadm|].
      rewrite Hf. simpl. rewrite files_AddFile, <- app_assoc.
      rewrite (acceptedFiles_ext env _ g) by reflexivity. reflexivity.
    + apply IH, Hlim.
Qed.

Lemma acceptedFiles_sized env g l :
  acceptedFiles env g (flat_map sized l) = flat_map (delivery env g) l.
Proof.
  induction l as [|[p info] l IH]; [reflexivity|].
  cbn [flat_map]. rewrite <- IH. unfold sized at 1, delivery. cbn [fst snd].
  destruct info as [size|]; [|reflexivity]. cbn [app acceptedFiles].
  destruct (ReadFile env p); reflexivity.
Qed.

(** C3, amended. With no command-line rules, no rules file that is present
    and parses, both ceilings unlimited and every directory listable,
    the walk succeeds and the files delivered to the builder are, in
    traversal order, the entries under the root that are not
    directories, not inside a directory named [.git], whose extension is
    not in the binary set, and whose size and content can be read. *)
Theorem delivered_without_rules env cfg tree :
  IgnoreCli cfg = "" ->
  (forall dir, rulesIn env dir = None) ->
  MaxSizeKB cfg = 0%Z ->
  MaxTotalSizeMB cfg = 0%Z ->
  Lstat env (SrcDir cfg) = Ok tree ->
  listable tree = true ->
  fst (Walk env (startOf env cfg)) = None
  /\ Builder.files (builder (gen (final (run env cfg)))) =
       flat_map (delivery env (generatorFor env cfg)) (eligible (SrcDir cfg) tree).
Proof.
  intros Hcli Hnone Hkb Hmb Hlstat Hlist.
  destruct (generatorFor_fields env cfg) as (Hb & Hsrc & Hcm & Hmax & Hlim & _ & _).
  set (g0 := generatorFor env cfg) in *.
  rewrite Hcli in Hcm. simpl in Hcm. rewrite Hkb in Hmax. rewrite Hmb in Hlim.
  change (mul64 0 1024) with 0%Z in Hmax.
  change (mul64 (mul64 0 1024) 1024) with 0%Z in Hlim.
  destruct (gatekeeper_unlimited env (flat_map sized (eligible (SrcDir cfg) tree)) g0 Hlim)
    as (g' & Hadm & Hf).
  assert (Hout : outcome env (rootScan env g0) g0 = (None, g')).
  { unfold outcome, rootScan. rewrite Hsrc, Hlstat.
    rewrite (candidates_unfiltered env g0 Hnone Hcm Hmax tree _ Hlist). simpl.
    rewrite Hadm. reflexivity. }
  split.
  - destruct (Walk_outcome env (startOf env cfg) (startOf_coherent env cfg))
      as (s' & Hcall & _).
    rewrite Hcall. change (gen (startOf env cfg)) with g0. rewrite Hout. reflexivity.
  - destruct (run_finished_walk env cfg g' Hout) as (Hbuilder & _).
    rewrite Hbuilder, Hf, Hb, files_builderFor, acceptedFiles_sized. reflexivity.
Qed.

Lemma delivered_without_rules_witness :
  fst (Walk plainEnv (startOf plainEnv plainCfg)) = None
  /\ map Path (Builder.files (builder (gen (final (run plainEnv plainCfg)))))
     = ["proj/a.go"; "proj/sub/c.py"].
Proof.
  destruct (delivered_without_rules plainEnv plainCfg plainTree) as (Hw & Hf);
    try reflexivity.
  split; [exact Hw|]. rewrite Hf. vm_compute. reflexivity.
Defined.

(** C3 as stated fails: with no rules and no limits, a file that is under
    the root, is no directory, is outside [.git] and has no binary
    extension is still left out when its content cannot be read. *)
Lemma unreadable_file_not_delivered :
  IgnoreCli plainCfg = "" /\ MaxSizeKB plainCfg = 0%Z /\ MaxTotalSizeMB plainCfg = 0%Z
  /\ (forall dir, rulesIn unreadableEnv dir = None)
  /\ map fst (eligible "proj" plainTree) = ["proj/a.go"; "proj/sub/c.py"]
  /\ map Path (Builder.files (builder (gen (final (run unreadableEnv plainCfg)))))
     = ["proj/sub/c.py"].
Proof.
  repeat split; vm_compute; reflexivity.
Qed.

(** ** The format identifier (C1) *)

(** C1, at the failing input. [run] with the format [xml], which is none
    of the three: it selects the default builder, returns no error and
    writes the document, exactly as for the format [default], where C1 says
    it fails and produces nothing. The arm that does it is the one the
    source comments as the arm of ["default"]; the sibling that has the
    same [switch], [MarkdownBuilder.Build], rejects the same identifier
    with the unknown-format error. *)
Lemma unknown_format_runs_default :
  recognized (Format xmlCfg) = false
  /\ returned (run plainEnv xmlCfg) = None
  /\ written (run plainEnv xmlCfg) = "document"
  /\ run plainEnv xmlCfg = run plainEnv plainCfg
  /\ MarkdownBuilder.Build (engine plainEnv) MarkdownBuilder.New (Format xmlCfg)
     = Err (UnknownFormat "xml").
Proof.
  repeat split; vm_compute; reflexivity.
Qed.

Lemma selectBuilder_unknown format :
  recognized format = false -> selectBuilder format = selectBuilder "default".
Proof.
  unfold recognized, selectBuilder. intros H.
  apply orb_false_elim in H as [H Hllm]. apply orb_false_elim in H as [_ Hrev].
  rewrite Hrev, Hllm. reflexivity.
Qed.

(** The same for every format identifier that is none of [default],
    [review] and [llm]: [MarkdownBuilder.Build] fails with the
    unknown-format error and produces no document, whatever the builder
    holds; [run], whose [switch] has no arm that rejects, selects the
    default builder and behaves exactly as it does for the format
    [default]. *)
Theorem unknown_format env cfg :
  recognized (Format cfg) = false ->
  (forall eng b, MarkdownBuilder.Build eng b (Format cfg) = Err (UnknownFormat (Format cfg)))
  /\ selectBuilder (Format cfg) = Default_ DefaultBuilder.New
  /\ run env cfg = run env (withFormat "default" cfg).
Proof.
  intros Hun. pose proof (selectBuilder_unknown _ Hun) as Hsel.
  split; [|split].
  - intros eng b. unfold MarkdownBuilder.Build, MarkdownBuilder.templatePathFor.
    unfold recognized in Hun.
    apply orb_false_elim in Hun as [H Hllm]. apply orb_false_elim in H as [Hdef Hrev].
    rewrite Hrev, Hllm, Hdef. reflexivity.
  - rewrite Hsel. reflexivity.
  - unfold run, generatorFor, builderFor. simpl. rewrite Hsel. reflexivity.
Qed.

Lemma unknown_format_witness :
  MarkdownBuilder.Build (engine plainEnv) MarkdownBuilder.New "xml" = Err (UnknownFormat "xml")
  /\ run plainEnv xmlCfg = run plainEnv (withFormat "default" xmlCfg).
Proof.
  destruct (unknown_format plainEnv xmlCfg eq_refl) as (Hb & _ & Hr).
  split; [apply Hb | exact Hr].
Defined.

(** ** The review builder (C7, C10) *)

Lemma length_Split s sep : length (Strings.Split s sep) = S (Strings.Count s sep).
Proof.
  unfold Strings.Split. induction s as [|c r IH]; [reflexivity|].
  simpl. destruct (Strings.cut sep r) as [h t].
  destruct (Ascii.eqb c sep); simpl in *; lia.
Qed.

Lemma length_numberFrom i lines :
  length (ReviewBuilder.numberFrom i lines) = length lines.
Proof.
  revert i. induction lines as [|l ls IH]; intros i; simpl; [reflexivity|].
  rewrite IH. reflexivity.
Qed.

Lemma numberFrom_snoc i lines last :
  ReviewBuilder.numberFrom i (lines ++ [last]) =
  ReviewBuilder.numberFrom i lines
    ++ [Fmt.d4 (i + Z.of_nat (length lines) + 1) +:+ ": " +:+ last].
Proof.
  revert i. induction lines as [|l ls IH]; intros i.
  - simpl. rewrite Z.add_0_r. reflexivity.
  - cbn [app ReviewBuilder.numberFrom length]. rewrite IH.
    replace (i + 1 + Z.of_nat (length ls) + 1)%Z
      with (i + Z.of_nat (S (length ls)) + 1)%Z by lia.
    reflexivity.
Qed.

Lemma numberFrom_nth i lines k line :
  nth_error lines k = Some line ->
  nth_error (ReviewBuilder.numberFrom i lines) k =
    Some (Fmt.d4 (i + Z.of_nat k + 1) +:+ ": " +:+ line).
Proof.
  revert i k. induction lines as [|l ls IH]; intros i [|k] H;
    cbn [nth_error ReviewBuilder.numberFrom] in *; try discriminate.
  - injection H as ->. rewrite Z.add_0_r. reflexivity.
  - rewrite (IH (i + 1)%Z k H).
    replace (i + 1 + Z.of_nat k + 1)%Z with (i + Z.of_nat (S k) + 1)%Z by lia.
    reflexivity.
Qed.

(** C10. The review builder turns a content into as many numbered lines
    as the content has line feeds, plus one: a content that ends in a line
    feed gets a last numbered line that is empty, and the empty content
    gets the single line numbered 1, empty as well. *)
Theorem numbered_line_count content :
  length (ReviewBuilder.numberedLines content) = Strings.Count content Strings.newline + 1
  /\ (forall body,
        ReviewBuilder.numberedLines (body +:+ String Strings.newline "") =
        ReviewBuilder.numberedLines body
          ++ [Fmt.d4 (Z.of_nat (Strings.Count body Strings.newline) + 2) +:+ ": "])
  /\ ReviewBuilder.numberedLines "" = ["   1: "].
Proof.
  unfold ReviewBuilder.numberedLines. split; [|split].
  - rewrite length_numberFrom, length_Split. lia.
  - intros body. rewrite Split_snoc, numberFrom_snoc, length_Split.
    replace (0 + Z.of_nat (S (Strings.Count body Strings.newline)) + 1)%Z
      with (Z.of_nat (Strings.Count body Strings.newline) + 2)%Z by lia.
    reflexivity.
  - reflexivity.
Qed.

Lemma length_spaces n : String.length (Strings.spaces n) = n.
Proof. induction n; simpl; congruence. Qed.

Lemma digits_small z acc :
  (z < 10)%Z -> Fmt.digits z acc = String (Fmt.digit z) acc.
Proof.
  intros Hz. apply Z.ltb_lt in Hz. funelim (Fmt.digits z acc); [reflexivity | congruence].
Qed.

Lemma digits_large z acc :
  (10 <= z)%Z ->
  Fmt.digits z acc = Fmt.digits (z / 10) (String (Fmt.digit (z mod 10)) acc).
Proof.
  intros Hz. apply Z.ltb_ge in Hz. funelim (Fmt.digits z acc); [congruence | reflexivity].
Qed.

(** A number below [10 ^ (k + 1)] adds at most [k + 1] digits. *)
Lemma digits_length_le k : forall z acc,
  (0 <= z < 10 ^ Z.of_nat (S k))%Z ->
  String.length (Fmt.digits z acc) <= String.length acc + S k.
Proof.
  induction k as [|k IH]; intros z acc Hz.
  - change (10 ^ Z.of_nat 1)%Z with 10%Z in Hz.
    rewrite digits_small by lia. simpl. lia.
  - destruct (Z_lt_le_dec z 10) as [Hlt | Hge].
    + rewrite digits_small by lia. simpl. lia.
    + rewrite digits_large by lia.
      assert (Hq : (0 <= z / 10 < 10 ^ Z.of_nat (S k))%Z).
      { split; [apply Z.div_pos; lia|].
        apply Z.div_lt_upper_bound; [lia|].
        rewrite <- Z.pow_succ_r by lia. rewrite <- Nat2Z.inj_succ. lia. }
      specialize (IH (z / 10)%Z (String (Fmt.digit (z mod 10)) acc) Hq).
      simpl in IH. lia.
Qed.

Lemma digits_extends z acc : String.length acc < String.length (Fmt.digits z acc).
Proof. funelim (Fmt.digits z acc); simpl in *; lia. Qed.

(** A number from [10 ^ k] on adds at least [k + 1] digits. *)
Lemma digits_length_ge k : forall z acc,
  (10 ^ Z.of_nat k <= z)%Z ->
  String.length acc + S k <= String.length (Fmt.digits z acc).
Proof.
  induction k as [|k IH]; intros z acc Hz.
  - pose proof (digits_extends z acc). lia.
  - assert (H10 : (10 <= 10 ^ Z.of_nat (S k))%Z).
    { rewrite Nat2Z.inj_succ, Z.pow_succ_r by lia.
      pose proof (Z.pow_pos_nonneg 10 (Z.of_nat k)). lia. }
    rewrite digits_large by lia.
    assert (Hq : (10 ^ Z.of_nat k <= z / 10)%Z).
    { apply Z.div_le_lower_bound; [lia|].
      rewrite Nat2Z.inj_succ, Z.pow_succ_r in Hz by lia. lia. }
    specialize (IH (z / 10)%Z (String (Fmt.digit (z mod 10)) acc) Hq).
    simpl in IH. lia.
Qed.

Lemma length_d4 z :
  String.length (Fmt.d4 z) = Nat.max 4 (String.length (Fmt.decimal z)).
Proof. unfold Fmt.d4, Fmt.padLeft. rewrite length_append, length_spaces. lia. Qed.

Lemma d4_width z : (0 <= z)%Z -> String.length (Fmt.d4 z) = 4 <-> (z <= 9999)%Z.
Proof.
  intros Hz. rewrite length_d4. unfold Fmt.decimal.
  replace (z <? 0)%Z with false by (symmetry; apply Z.ltb_ge; lia).
  split.
  - intros Hlen. destruct (Z_le_gt_dec z 9999) as [Hle | Hgt]; [exact Hle|].
    pose proof (digits_length_ge 4 z "") as Hge.
    change (10 ^ Z.of_nat 4)%Z with 10000%Z in Hge. simpl in Hge. lia.
  - intros Hle. pose proof (digits_length_le 3 z "") as Hub.
    change (10 ^ Z.of_nat 4)%Z with 10000%Z in Hub. simpl in Hub. lia.
Qed.

(** C7 as stated fails: the number field is not of one fixed width. In a
    file of ten thousand lines the first line is numbered in a field of
    four characters and the last one in a field of five. *)
Lemma ten_thousandth_line_is_wider :
  nth_error (ReviewBuilder.numberedLines (emptyLines (Z.to_nat 9999))) 0
    = Some "   1: "
  /\ nth_error (ReviewBuilder.numberedLines (emptyLines (Z.to_nat 9999))) (Z.to_nat 9999)
    = Some "10000: ".
Proof. split; vm_compute; reflexivity. Qed.

(** C7, amended. The review builder renders each file of the batch on its
    own: the lines of a file are the fields of its content between line
    feeds, numbered from 1 in order, each as the number right-aligned in a
    field of at least four characters, a colon, a space and the line. The
    field is exactly four characters wide for the line numbers up to 9999
    and for no other (a number with more digits takes the width of its
    digits), so the alignment of a file never depends on the other files;
    a file of three lines has them numbered 1, 2 and 3. *)
Theorem review_lines_numbered (b : ReviewBuilder.t) :
  RFiles (ReviewBuilder.templateData b) = map ReviewBuilder.reviewFile (ReviewBuilder.files b)
  /\ (forall file, Lines (ReviewBuilder.reviewFile file)
                   = ReviewBuilder.numberedLines (Content file))
  /\ (forall content k line,
        nth_error (Strings.Split content Strings.newline) k = Some line ->
        nth_error (ReviewBuilder.numberedLines content) k =
          Some (Fmt.d4 (Z.of_nat k + 1) +:+ ": " +:+ line))
  /\ (forall z, Fmt.d4 z =
                Strings.spaces (4 - String.length (Fmt.decimal z)) +:+ Fmt.decimal z)
  /\ (forall z, String.length (Fmt.d4 z) = Nat.max 4 (String.length (Fmt.decimal z)))
  /\ (forall z, (1 <= z)%Z -> String.length (Fmt.d4 z) = 4 <-> (z <= 9999)%Z)
  /\ (forall content l1 l2 l3,
        Strings.Split content Strings.newline = [l1; l2; l3] ->
        ReviewBuilder.numberedLines content =
          ["   1: " +:+ l1; "   2: " +:+ l2; "   3: " +:+ l3]).
Proof.
  split; [reflexivity|]. split; [reflexivity|]. split; [|split; [|split; [|split]]].
  - intros content k line H. unfold ReviewBuilder.numberedLines.
    apply (numberFrom_nth 0), H.
  - reflexivity.
  - apply length_d4.
  - intros z Hz. apply d4_width. lia.
  - intros content l1 l2 l3 H. unfold ReviewBuilder.numberedLines. rewrite H. reflexivity.
Qed.

(** * Further properties *)

(** ** What a walk can and cannot do *)

Lemma addAll_app fs1 fs2 b : addAll (fs1 ++ fs2) b = addAll fs2 (addAll fs1 b).
Proof. unfold addAll. apply fold_left_app. Qed.

Lemma files_addAll fs b : Builder.files (addAll fs b) = Builder.files b ++ fs.
Proof.
  revert b. induction fs as [|f fs IH]; intros b; simpl.
  - rewrite app_nil_r. reflexivity.
  - rewrite IH, files_AddFile, <- app_assoc. reflexivity.
Qed.

(** The gatekeeper works through a prefix of the candidates: it accepts
    the readable ones of the prefix, and stops either at the end or at a
    candidate that does not fit the configured ceiling. *)
Lemma gatekeeper_prefix env l :
  forall g, exists pre post,
    l = pre ++ post
    /\ builder (snd (gatekeeper env l g)) = addAll (acceptedFiles env g pre) (builder g)
    /\ (fst (gatekeeper env l g) = None -> post = [])
    /\ (forall e, fst (gatekeeper env l g) = Some e ->
          e = TotalSizeLimitExceeded (totalSizeLimit g)
          /\ (0 < totalSizeLimit g)%Z /\ post <> []).
Proof.
  induction l as [|[p size] l IH]; intros g.
  - exists [], []. simpl. split; [reflexivity|]. split; [reflexivity|].
    split; [reflexivity | discriminate].
  - simpl. destruct (overBudget g size) eqn:Hover.
    + exists [], ((p, size) :: l). simpl. split; [reflexivity|]. split; [reflexivity|].
      split; [discriminate|]. intros e [= <-].
      split; [reflexivity|]. split; [|discriminate].
      unfold overBudget in Hover. apply andb_prop in Hover as [H _].
      apply Z.ltb_lt in H. exact H.
    + destruct (ReadFile env p) as [content|] eqn:Hread.
      * destruct (IH (accept size (fileRecord env g p content) g))
          as (pre & post & -> & Hb & Hnone & Hsome).
        exists ((p, size) :: pre), post. simpl. rewrite Hread.
        split; [reflexivity|]. split; [|split; [exact Hnone | exact Hsome]].
        rewrite Hb. rewrite (acceptedFiles_ext env _ g) by reflexivity. reflexivity.
      * destruct (IH g) as (pre & post & -> & Hb & Hnone & Hsome).
        exists ((p, size) :: pre), post. simpl. rewrite Hread. auto.
Qed.

Lemma run_final env cfg :
  let g0 := generatorFor env cfg in
  let o := outcome env (rootScan env g0) g0 in
  fst (Walk env (startOf env cfg)) = fst o
  /\ builder (gen (final (run env cfg))) = builder (snd o)
  /\ currentTotalSize (gen (final (run env cfg))) = currentTotalSize (snd o)
  /\ sameSettings g0 (gen (final (run env cfg))).
Proof.
  intros g0 o.
  destruct (Walk_outcome env (startOf env cfg) (startOf_coherent env cfg))
    as (s' & Hcall & c' & t' & Hs' & _).
  change (gen (startOf env cfg)) with g0 in *. fold o in Hcall, Hs'.
  pose proof (outcome_settings env (rootScan env g0) g0) as Hset. fold o in Hset.
  assert (Hfinal : final (run env cfg) = s').
  { unfold run. unfold startOf in Hcall. rewrite Hcall.
    destruct (fst o); [reflexivity|].
    destruct (Builder.Build _ _); [|reflexivity].
    destruct (Copy env a); reflexivity. }
  rewrite Hfinal, Hcall, Hs'. simpl. repeat split; apply Hset.
Qed.

Lemma outcome_builder env sc g :
  exists added, builder (snd (outcome env sc g)) = addAll added (builder g).
Proof.
  unfold outcome. destruct (gatekeeper_prefix env (found sc) g) as (pre & post & _ & Hb & _).
  exists (acceptedFiles env g pre).
  destruct (gatekeeper env (found sc) g) as [[e|] g']; exact Hb.
Qed.

(** X1: a walk only appends. Wherever a walk starts during a scan, the
    builder it leaves is the builder it found with some files added at the
    end: no file is removed, replaced or reordered, and the project name
    and summary stay. The settings of the generator are unchanged, no
    cached matcher is forgotten, and the trace only grows. *)
Theorem walk_only_appends env s :
  coherent env s ->
  let s' := snd (Walk env s) in
  (exists added, builder (gen s') = addAll added (builder (gen s))
                 /\ Builder.files (builder (gen s')) = Builder.files (builder (gen s)) ++ added)
  /\ sameSettings (gen s) (gen s')
  /\ (forall d m, matcherCache (gen s) !! d = Some m -> matcherCache (gen s') !! d = Some m)
  /\ (exists t, trace s' = trace s ++ t)
  /\ coherent env s'.
Proof.
  intros Hco s'.
  destruct (Walk_outcome env s Hco) as (s1 & Hcall & Hadv).
  subst s'. rewrite Hcall. simpl.
  pose proof (outcome_settings env (rootScan env (gen s)) (gen s)) as Hset.
  destruct (advances_coherent env s _ s1 Hset Hadv) as (Hco1 & Hset1).
  destruct Hadv as (c' & t' & -> & Hmono & _). simpl.
  destruct (outcome_builder env (rootScan env (gen s)) (gen s)) as (added & Hb).
  split; [|split; [|split; [|split]]].
  - exists added. split; [exact Hb|]. rewrite Hb. apply files_addAll.
  - exact Hset1.
  - exact Hmono.
  - exists t'. reflexivity.
  - exact Hco1.
Qed.

Lemma walk_only_appends_witness :
  exists added,
    Builder.files (builder (gen (snd (Walk gitignoreEnv (freshState "proj"))))) =
    Builder.files (builder (gen (freshState "proj"))) ++ added.
Proof.
  destruct (walk_only_appends gitignoreEnv (freshState "proj")
              (freshState_coherent gitignoreEnv "proj")) as ((added & _ & Hf) & _).
  exists added. exact Hf.
Defined.

Lemma scanEntries_failure_from (f : Entry -> Scan) dirs e :
  failure (scanEntries f dirs) = Some e -> exists d, In d dirs /\ failure (f d) = Some e.
Proof.
  induction dirs as [|d ds IH]; simpl; [discriminate|].
  destruct (failure (f d)) eqn:E.
  - rewrite E. intros [= <-]. exists d. auto.
  - simpl. intros H. destruct (IH H) as (d' & Hin & Hf). exists d'. auto.
Qed.

Lemma candidates_failure_listed env g d :
  forall path e, failure (candidates env g path d) = Some e -> In e (listingErrors d).
Proof.
  induction d as [name info | name dirs readErr IH] using Entry_ind'; intros path e; simpl.
  - destruct (_ || _); [discriminate|]. destruct info; [|discriminate].
    destruct (tooLarge g z); discriminate.
  - destruct (_ || _); [discriminate|]. destruct readErr as [e0|].
    + simpl. unfold skipped. destruct (_ && _); [discriminate|].
      intros [= <-]. left. reflexivity.
    + intros H. apply scanEntries_failure_from in H as (d & Hin & Hf).
      simpl. apply in_flat_map. exists d. split; [exact Hin|].
      rewrite List.Forall_forall in IH. eapply IH; eassumption.
Qed.

(** X2: the errors of a walk. A walk during a scan returns an error only
    in two ways: the cumulative ceiling is configured (positive) and was
    exceeded, or the traversal itself failed, with the error of [os.Lstat]
    on the source directory or of [os.ReadDir] on a directory of the tree.
    It never returns [SkipDir], and no failure of [d.Info()] or of
    [os.ReadFile] on a file ever ends it. *)
Theorem walk_errors env s e :
  coherent env s ->
  fst (Walk env s) = Some e ->
  isSkipDir e = false
  /\ ((e = TotalSizeLimitExceeded (totalSizeLimit (gen s)) /\ (0 < totalSizeLimit (gen s))%Z)
      \/ Lstat env (srcDir (gen s)) = Err e
      \/ exists tree, Lstat env (srcDir (gen s)) = Ok tree /\ In e (listingErrors tree)).
Proof.
  intros Hco Hw.
  destruct (Walk_outcome env s Hco) as (s1 & Hcall & _).
  rewrite Hcall in Hw. simpl in Hw. unfold outcome in Hw.
  destruct (gatekeeper_prefix env (found (rootScan env (gen s))) (gen s))
    as (pre & post & _ & _ & _ & Hsome).
  destruct (gatekeeper env (found (rootScan env (gen s))) (gen s)) as [[e0|] g'];
    simpl in Hw, Hsome.
  - injection Hw as ->. destruct (Hsome e eq_refl) as (-> & Hpos & _).
    split; [reflexivity|]. left. auto.
  - unfold rootScan in Hw.
    destruct (Lstat env (srcDir (gen s))) as [tree | e0] eqn:Hl.
    + split; [eapply candidates_failure; exact Hw|].
      right; right. exists tree. split; [reflexivity|].
      eapply candidates_failure_listed; exact Hw.
    + simpl in Hw. destruct (isSkipDir e0) eqn:Hskip; [discriminate|].
      injection Hw as ->. split; [exact Hskip|]. right; left. reflexivity.
Qed.

Lemma walk_errors_witness :
  isSkipDir (External "no such file or directory") = false
  /\ ((External "no such file or directory"
       = TotalSizeLimitExceeded (totalSizeLimit (gen (freshState "proj")))
       /\ (0 < totalSizeLimit (gen (freshState "proj")))%Z)
      \/ Lstat quietEnv (srcDir (gen (freshState "proj")))
         = Err (External "no such file or directory")
      \/ exists tree, Lstat quietEnv (srcDir (gen (freshState "proj"))) = Ok tree
                      /\ In (External "no such file or directory") (listingErrors tree)).
Proof.
  apply (walk_errors quietEnv (freshState "proj") (External "no such file or directory")
           (freshState_coherent quietEnv "proj")).
  reflexivity.
Defined.

Lemma scanEntries_found_from (f : Entry -> Scan) dirs c :
  In c (found (scanEntries f dirs)) -> exists d, In d dirs /\ In c (found (f d)).
Proof.
  induction dirs as [|d ds IH]; simpl; [tauto|].
  destruct (failure (f d)) eqn:E.
  - intros H. exists d. auto.
  - simpl. intros H. apply in_app_or in H as [H|H].
    + exists d. auto.
    + destruct (IH H) as (d' & Hin & Hf). exists d'. auto.
Qed.

Lemma candidates_sound env g d :
  forall path p size, In (p, size) (found (candidates env g path d)) ->
    In (p, Some size) (filesUnder path d)
    /\ ignoredBy env g p = false
    /\ isBinaryExt (Filepath.Ext p) = false
    /\ tooLarge g size = false.
Proof.
  induction d as [name info | name dirs readErr IH] using Entry_ind'; intros path p size; simpl.
  - destruct (ignoredBy env g path) eqn:Hi; simpl; [tauto|].
    destruct (isBinaryExt (Filepath.Ext path)) eqn:Hb; simpl; [tauto|].
    destruct info as [sz|]; simpl; [|tauto].
    destruct (tooLarge g sz) eqn:Ht; simpl; [tauto|].
    intros [[= <- <-]|[]]. auto.
  - destruct (String.eqb name ".git"); simpl; [tauto|].
    destruct (ignoredBy env g path); simpl; [tauto|].
    destruct readErr as [e0|]; simpl; [tauto|].
    intros H. apply scanEntries_found_from in H as (d & Hin & Hf).
    rewrite List.Forall_forall in IH.
    destruct (IH d Hin _ _ _ Hf) as (H1 & H2).
    split; [|exact H2]. apply in_flat_map. exists d. auto.
Qed.

Lemma acceptedFiles_from env g l f :
  In f (acceptedFiles env g l) ->
  exists p size content,
    In (p, size) l /\ ReadFile env p = Some content /\ f = fileRecord env g p content.
Proof.
  induction l as [|[p size] l IH]; simpl; [tauto|].
  destruct (ReadFile env p) as [content|] eqn:Hr.
  - intros [<-|H].
    + exists p, size, content. auto.
    + destruct (IH H) as (p' & s' & c' & Hin & H'). exists p', s', c'. auto.
  - intros H. destruct (IH H) as (p' & s' & c' & Hin & H'). exists p', s', c'. auto.
Qed.

(** X3: what a walk delivers. Every file a walk adds to the builder is an
    entry of the tree under the source directory that is not a directory
    and not inside a directory named [.git], is excluded by neither source
    of rules, has an extension outside the binary set, a known size within
    the per-file ceiling and a readable content; and the record delivered
    is the one built from that path and that content. *)
Theorem delivered_files_are_sound env s tree f :
  coherent env s ->
  Lstat env (srcDir (gen s)) = Ok tree ->
  In f (Builder.files (builder (gen (snd (Walk env s))))) ->
  In f (Builder.files (builder (gen s)))
  \/ exists path size content,
       In (path, Some size) (filesUnder (srcDir (gen s)) tree)
       /\ ignoredBy env (gen s) path = false
       /\ isBinaryExt (Filepath.Ext path) = false
       /\ tooLarge (gen s) size = false
       /\ ReadFile env path = Some content
       /\ f = fileRecord env (gen s) path content.
Proof.
  intros Hco Hl.
  destruct (Walk_outcome env s Hco) as (s1 & Hcall & Hadv).
  rewrite Hcall. simpl.
  destruct Hadv as (c' & t' & -> & _). simpl.
  unfold outcome, rootScan. rewrite Hl.
  destruct (gatekeeper_prefix env (found (candidates env (gen s) (srcDir (gen s)) tree)) (gen s))
    as (pre & post & Hsplit & Hb & _).
  assert (Hb' : builder (snd (match gatekeeper env (found (candidates env (gen s) (srcDir (gen s)) tree)) (gen s) with
                              | (Some e, g') => (Some e, g')
                              | (None, g') => (failure (candidates env (gen s) (srcDir (gen s)) tree), g')
                              end))
                = addAll (acceptedFiles env (gen s) pre) (builder (gen s))).
  { destruct (gatekeeper env _ (gen s)) as [[e|] g']; exact Hb. }
  rewrite Hb', files_addAll. intros Hin.
  apply in_app_or in Hin as [Hin|Hin]; [left; exact Hin|right].
  apply acceptedFiles_from in Hin as (p & size & content & Hin & Hr & ->).
  assert (Hc : In (p, size) (found (candidates env (gen s) (srcDir (gen s)) tree))).
  { rewrite Hsplit. apply in_or_app. left. exact Hin. }
  apply candidates_sound in Hc as (H1 & H2 & H3 & H4).
  exists p, size, content. auto 10.
Qed.

Lemma delivered_files_are_sound_witness :
  In {| Path := "proj/sub/c.py"; Content := "content of proj/sub/c.py";
        Language := "python" |}
     (Builder.files (builder (gen (freshState "proj"))))
  \/ exists path size content,
       In (path, Some size) (filesUnder (srcDir (gen (freshState "proj"))) plainTree)
       /\ ignoredBy plainEnv (gen (freshState "proj")) path = false
       /\ isBinaryExt (Filepath.Ext path) = false
       /\ tooLarge (gen (freshState "proj")) size = false
       /\ ReadFile plainEnv path = Some content
       /\ {| Path := "proj/sub/c.py"; Content := "content of proj/sub/c.py";
             Language := "python" |}
          = fileRecord plainEnv (gen (freshState "proj")) path content.
Proof.
  apply (delivered_files_are_sound plainEnv (freshState "proj") plainTree).
  - apply freshState_coherent.
  - reflexivity.
  - vm_compute. right. left. reflexivity.
Defined.

Lemma gatekeeper_total env l :
  forall g,
    (0 < totalSizeLimit g)%Z ->
    (0 <= currentTotalSize g <= totalSizeLimit g)%Z ->
    Forall (fun c => 0 <= snd c <= maxInt64 - totalSizeLimit g)%Z l ->
    (currentTotalSize g <= currentTotalSize (snd (gatekeeper env l g)) <= totalSizeLimit g)%Z.
Proof.
  induction l as [|[p size] l IH]; intros g Hpos Hcur Hall; simpl; [lia|].
  inversion Hall as [|? ? Hsize Hall']; subst. simpl in Hsize.
  unfold overBudget.
  assert (Hex : add64 (currentTotalSize g) size = (currentTotalSize g + size)%Z).
  { apply add64_exact. unfold minInt64, maxInt64 in *. lia. }
  rewrite Hex.
  destruct (0 <? totalSizeLimit g)%Z eqn:H0; [|apply Z.ltb_ge in H0; lia].
  destruct (totalSizeLimit g <? currentTotalSize g + size)%Z eqn:H1; simpl; [lia|].
  apply Z.ltb_ge in H1.
  destruct (ReadFile env p) as [content|]; [|apply IH; assumption].
  specialize (IH (accept size (fileRecord env g p content) g)).
  unfold accept in IH at 1 2 3 4 5. simpl in IH. rewrite Hex in IH.
  specialize (IH Hpos ltac:(lia) Hall'). lia.
Qed.

(** ** The order of the delivered files *)

Lemma scanEntries_sublist (f : Entry -> Scan) (h : Entry -> list (string * Z)) dirs :
  Forall (fun d => sublist (found (f d)) (h d)) dirs ->
  sublist (found (scanEntries f dirs)) (flat_map h dirs).
Proof.
  induction 1 as [|d ds Hd _ IH]; simpl; [constructor|].
  destruct (failure (f d)).
  - apply sublist_inserts_r. exact Hd.
  - simpl. apply sublist_app; assumption.
Qed.

Lemma candidates_sublist env g d :
  forall path,
    sublist (found (candidates env g path d)) (flat_map sized (filesUnder path d)).
Proof.
  induction d as [name info | name dirs readErr IH] using Entry_ind'; intros path; simpl.
  - destruct (_ || _); [apply sublist_nil_l|].
    destruct info as [size|]; [|apply sublist_nil_l].
    destruct (tooLarge g size); [apply sublist_nil_l|].
    unfold sized. simpl. reflexivity.
  - destruct (String.eqb name ".git"); simpl; [apply sublist_nil_l|].
    destruct (ignoredBy env g path); simpl; [apply sublist_nil_l|].
    destruct readErr as [e|]; simpl; [apply sublist_nil_l|].
    rewrite flat_map_flat_map. apply scanEntries_sublist.
    apply List.Forall_forall. intros d Hin. rewrite List.Forall_forall in IH.
    apply IH. exact Hin.
Qed.

(** X4: the order of the delivered files. The files a walk adds to the
    builder come in the order of the traversal: they are the records of
    the readable ones among entries picked, without reordering or
    repetition, from the files of the tree in traversal order. *)
Theorem delivered_in_traversal_order env s tree :
  coherent env s ->
  Lstat env (srcDir (gen s)) = Ok tree ->
  exists kept,
    sublist kept (flat_map sized (filesUnder (srcDir (gen s)) tree))
    /\ Builder.files (builder (gen (snd (Walk env s))))
       = Builder.files (builder (gen s)) ++ acceptedFiles env (gen s) kept.
Proof.
  intros Hco Hl.
  destruct (Walk_outcome env s Hco) as (s1 & Hcall & Hadv).
  rewrite Hcall. cbn [snd]. destruct Hadv as (c' & t' & -> & _).
  unfold withCache. cbn [gen builder].
  unfold outcome, rootScan. rewrite Hl.
  destruct (gatekeeper_prefix env (found (candidates env (gen s) (srcDir (gen s)) tree)) (gen s))
    as (pre & post & Hsplit & Hb & _).
  exists pre. split.
  - transitivity (found (candidates env (gen s) (srcDir (gen s)) tree)).
    + rewrite Hsplit. apply sublist_inserts_r. reflexivity.
    + apply candidates_sublist.
  - destruct (gatekeeper env _ (gen s)) as [[e|] g']; cbn [snd] in *;
      rewrite Hb; apply files_addAll.
Qed.

Lemma delivered_in_traversal_order_witness :
  exists kept,
    sublist kept (flat_map sized (filesUnder (srcDir (gen (freshState "proj"))) plainTree))
    /\ Builder.files (builder (gen (snd (Walk plainEnv (freshState "proj")))))
       = Builder.files (builder (gen (freshState "proj")))
         ++ acceptedFiles plainEnv (gen (freshState "proj")) kept.
Proof.
  apply (delivered_in_traversal_order plainEnv (freshState "proj") plainTree).
  - apply freshState_coherent.
  - reflexivity.
Defined.

(** ** Invariants of a walk *)

(** A relation between the state before and the state after that holds
    across the resolver, across the rest of [processPath] and across the
    announcement of [Walk], and is reflexive and transitive, holds across
    every walk. *)
Section WalkInvariant.

Variable env : Env.
Variable R : State -> State -> Prop.
Hypothesis R_refl : forall s, R s s.
Hypothesis R_trans : forall s1 s2 s3, R s1 s2 -> R s2 s3 -> R s1 s3.
Hypothesis R_resolver : forall dir s, R s (snd (findMatcherForDir env dir s)).
Hypothesis R_file : forall path info m s, R s (snd (afterResolver env path info m s)).
Hypothesis R_print : forall msg s, R s (snd (emit (EvPrint msg) s)).

Lemma processPath_invariant path d err s :
  R s (snd (processPath env path d err s)).
Proof.
  destruct err as [e|]; [apply R_refl|].
  destruct d as [[name info | name dirs readErr]|]; [| |apply R_refl].
  - rewrite processPath_file_eq.
    eapply R_trans; [apply R_resolver|apply R_file].
  - rewrite processPath_dir_eq.
    destruct (String.eqb name ".git"); [apply R_refl|].
    pose proof (R_resolver (Filepath.Dir path) s) as H.
    destruct (findMatcherForDir env (Filepath.Dir path) s) as [m s1]. simpl in H.
    destruct (_ || _); exact H.
Qed.

Lemma walkEntries_invariant (walk : Entry -> M (option error)) dirs :
  Forall (fun d => forall s, R s (snd (walk d s))) dirs ->
  forall s, R s (snd (walkEntries walk dirs s)).
Proof.
  induction 1 as [|d ds Hd _ IH]; intros s; simpl; [apply R_refl|].
  specialize (Hd s). destruct (walk d s) as [[e|] s1]; simpl in *; [exact Hd|].
  eapply R_trans; [exact Hd|apply IH].
Qed.

Lemma walkDir_invariant d :
  forall path s, R s (snd (walkDir (processPath env) path d s)).
Proof.
  induction d as [name info | name dirs readErr IH] using Entry_ind'; intros path s.
  - rewrite walkDir_file. apply processPath_invariant.
  - rewrite walkDir_dir. cbv zeta.
    pose proof (processPath_invariant path (Some (Directory name dirs readErr)) None s) as H1.
    destruct (processPath env path (Some (Directory name dirs readErr)) None s)
      as [[e|] s1]; simpl in H1; [exact H1|].
    assert (Hdesc : forall s0, R s0
              (snd (walkEntries (fun d1 => walkDir (processPath env)
                                   (Filepath.Join path (Name d1)) d1) dirs s0))).
    { apply walkEntries_invariant. apply List.Forall_forall. intros d Hin s0.
      rewrite List.Forall_forall in IH. apply IH. exact Hin. }
    destruct readErr as [e|].
    + rewrite processPath_error. simpl. exact H1.
    + eapply R_trans; [exact H1|apply Hdesc].
Qed.

Lemma Walk_invariant s : R s (snd (Walk env s)).
Proof.
  unfold Walk, WalkDir, mbind, M_bind, getGen.
  pose proof (R_print ("Scanning directory: " +:+ srcDir (gen s) +:+ String Strings.newline "") s)
    as H0.
  destruct (emit (EvPrint ("Scanning directory: " +:+ srcDir (gen s)
                           +:+ String Strings.newline "")) s) as [u s0].
  simpl in H0. eapply R_trans; [exact H0|].
  destruct (Lstat env (srcDir (gen s))) as [tree|e].
  - pose proof (walkDir_invariant tree (srcDir (gen s)) s0) as H.
    destruct (walkDir _ _ tree s0) as [r s1]. exact H.
  - rewrite processPath_error. simpl. apply R_refl.
Qed.

End WalkInvariant.

(** ** Probes for rules files *)

Lemma countEvents_app what t1 t2 : countEvents what (t1 ++ t2) = countEvents what t1 + countEvents what t2.
Proof. unfold countEvents. rewrite List.filter_app, length_app. reflexivity. Qed.





Ltac after_resolver_cases env path info :=
  unfold afterResolver; cbv zeta;
  destruct (_ || _); simpl; [|
  destruct (isBinaryExt _); simpl; [|
  destruct info as [size|]; simpl; [
  destruct (tooLarge _ size); simpl; [|
  destruct (overBudget _ size); simpl; [|
  destruct (ReadFile env path); simpl]]|]]].



(** ** Reads and deliveries *)

Lemma readBalance_refl s : readBalance s s.
Proof. unfold readBalance. lia. Qed.

Lemma readBalance_trans s1 s2 s3 :
  readBalance s1 s2 -> readBalance s2 s3 -> readBalance s1 s3.
Proof. unfold readBalance. lia. Qed.

Lemma countEvents_resolver what t :
  (forall ev, resolverEvent ev -> what ev = false) ->
  Forall resolverEvent t -> countEvents what t = 0.
Proof.
  intros Hw. induction 1 as [|ev t Hev _ IH]; [reflexivity|].
  unfold countEvents in *. simpl. rewrite (Hw ev Hev). exact IH.
Qed.

Lemma findMatcher_reads env dir s :
  readBalance s (snd (findMatcherForDir env dir s)).
Proof.
  destruct (findMatcher_frame env dir s) as (c & t & -> & Hev).
  unfold readBalance. simpl. rewrite !countEvents_app.
  rewrite !(countEvents_resolver _ t) by (try exact Hev; intros [] H; try reflexivity; destruct H).
  lia.
Qed.

Lemma afterResolver_reads env path info m s1 :
  readBalance s1 (snd (afterResolver env path info m s1)).
Proof.
  unfold readBalance.
  after_resolver_cases env path info; rewrite ?countEvents_app; unfold countEvents; simpl;
    rewrite ?files_AddFile, ?length_app; simpl; lia.
Qed.

(** X6: reads and deliveries. Over a whole walk the number of files added
    to the builder is the number of calls of [os.ReadFile] minus the
    number of reads reported as failed: no content that was read is
    dropped, and nothing is delivered that was not read; and there are at
    least as many size queries as reads. *)
Theorem every_read_is_accounted env s :
  let s' := snd (Walk env s) in
  length (Builder.files (builder (gen s'))) + countEvents isRead (trace s)
    + countEvents isFailedRead (trace s')
  = length (Builder.files (builder (gen s))) + countEvents isRead (trace s')
    + countEvents isFailedRead (trace s)
  /\ countEvents isRead (trace s') + countEvents isInfo (trace s)
     <= countEvents isRead (trace s) + countEvents isInfo (trace s').
Proof.
  apply (Walk_invariant env readBalance).
  - apply readBalance_refl.
  - apply readBalance_trans.
  - intros dir s0. apply findMatcher_reads.
  - intros. apply afterResolver_reads.
  - intros msg s0. unfold readBalance. simpl. rewrite !countEvents_app.
    unfold countEvents. simpl. lia.
Qed.

(** X7: the running total stays within the ceiling. With a cumulative
    ceiling [B] configured and every file size of the tree between 0 and
    [maxInt64 - B], a walk that starts with a running total within [B]
    leaves it within [B], and never lowers it, whether the walk ends
    normally or with an error. *)
Theorem running_total_within_budget env s :
  let B := totalSizeLimit (gen s) in
  coherent env s ->
  (0 < B)%Z ->
  (0 <= currentTotalSize (gen s) <= B)%Z ->
  (forall tree, Lstat env (srcDir (gen s)) = Ok tree ->
     Forall (fun e => forall size, snd e = Some size -> 0 <= size <= maxInt64 - B)%Z
            (filesUnder (srcDir (gen s)) tree)) ->
  (currentTotalSize (gen s) <= currentTotalSize (gen (snd (Walk env s))) <= B)%Z.
Proof.
  intros B Hco Hpos Hcur Hsizes.
  destruct (Walk_outcome env s Hco) as (s1 & Hcall & Hadv).
  rewrite Hcall. simpl. destruct Hadv as (c' & t' & -> & _). simpl.
  assert (Hsnd : currentTotalSize (snd (outcome env (rootScan env (gen s)) (gen s)))
                 = currentTotalSize (snd (gatekeeper env (found (rootScan env (gen s))) (gen s)))).
  { unfold outcome. destruct (gatekeeper env _ (gen s)) as [[e|] g']; reflexivity. }
  rewrite Hsnd. apply gatekeeper_total; try assumption.
  unfold rootScan. destruct (Lstat env (srcDir (gen s))) as [tree|e] eqn:Hl; [|constructor].
  apply List.Forall_forall. intros [p size] Hin. simpl.
  apply candidates_sound in Hin as (Hin & _).
  specialize (Hsizes tree eq_refl). rewrite List.Forall_forall in Hsizes.
  apply (Hsizes _ Hin). reflexivity.
Qed.

Lemma running_total_within_budget_witness :
  (currentTotalSize (gen (startOf budgetEnv budgetCfg))
   <= currentTotalSize (gen (snd (Walk budgetEnv (startOf budgetEnv budgetCfg))))
   <= 1048576)%Z.
Proof.
  apply (running_total_within_budget budgetEnv (startOf budgetEnv budgetCfg)).
  - apply startOf_coherent.
  - reflexivity.
  - split; discriminate.
  - intros tree [= <-]. repeat constructor; simpl in H; injection H as <-; discriminate.
Defined.

(** X8: an excluded scan root. When the source directory is itself named
    [.git], or is excluded by a rule (the rules consulted are those of its
    parent directory, and the patterns of the command line), the walk ends
    at once without an error, even when the directory cannot be listed:
    nothing is delivered and the running total stays. *)
Theorem excluded_root_gives_empty_walk env s name dirs readErr :
  coherent env s ->
  Lstat env (srcDir (gen s)) = Ok (Directory name dirs readErr) ->
  String.eqb name ".git" || ignoredBy env (gen s) (srcDir (gen s)) = true ->
  fst (Walk env s) = None
  /\ builder (gen (snd (Walk env s))) = builder (gen s)
  /\ currentTotalSize (gen (snd (Walk env s))) = currentTotalSize (gen s).
Proof.
  intros Hco Hl Hex.
  destruct (Walk_outcome env s Hco) as (s1 & Hcall & Hadv).
  rewrite Hcall. simpl. destruct Hadv as (c' & t' & -> & _). simpl.
  unfold rootScan. rewrite Hl. simpl. rewrite Hex. auto.
Qed.

Lemma excluded_root_gives_empty_walk_witness :
  fst (Walk nestedEnv (freshState "proj")) = None
  /\ builder (gen (snd (Walk nestedEnv (freshState "proj")))) = builder (gen (freshState "proj"))
  /\ currentTotalSize (gen (snd (Walk nestedEnv (freshState "proj"))))
     = currentTotalSize (gen (freshState "proj")).
Proof.
  apply (excluded_root_gives_empty_walk nestedEnv (freshState "proj")
           "proj" [File "a.go" (Some 10%Z)] None).
  - apply freshState_coherent.
  - reflexivity.
  - vm_compute. reflexivity.
Defined.

(** ** Extensions of joined paths *)

Lemma append_assoc (a b c : string) : (a +:+ b) +:+ c = a +:+ (b +:+ c).
Proof.
  induction a as [|x a IH]; [reflexivity|].
  change (String x ((a +:+ b) +:+ c) = String x (a +:+ (b +:+ c))). rewrite IH. reflexivity.
Qed.

Lemma cut_plain sep name :
  Strings.Count name sep = 0 -> Strings.cut sep name = (name, []).
Proof.
  induction name as [|c r IH]; simpl; [reflexivity|].
  destruct (Ascii.eqb c sep); [discriminate|]. simpl. intros H. rewrite IH by exact H.
  reflexivity.
Qed.

Lemma cut_app_plain s sep name :
  Strings.Count name sep = 0 ->
  Strings.cut sep (s +:+ String sep name) =
  (fst (Strings.cut sep s), snd (Strings.cut sep s) ++ [name]).
Proof.
  intros Hn. induction s as [|c r IH]; simpl.
  - rewrite Ascii.eqb_refl, cut_plain by exact Hn. reflexivity.
  - rewrite IH. destruct (Strings.cut sep r) as [h t]. simpl.
    destruct (Ascii.eqb c sep); reflexivity.
Qed.

Lemma Split_app_plain s sep name :
  Strings.Count name sep = 0 ->
  Strings.Split (s +:+ String sep name) sep = Strings.Split s sep ++ [name].
Proof.
  intros Hn. unfold Strings.Split. rewrite cut_app_plain by exact Hn.
  destruct (Strings.cut sep s) as [h t]. reflexivity.
Qed.

Lemma Join_snoc l name :
  Strings.Join (l ++ [name]) "/" =
  match l with
  | [] => name
  | _ => Strings.Join l "/" +:+ "/" +:+ name
  end.
Proof.
  induction l as [|a l IH]; [reflexivity|].
  destruct l as [|b l]; [reflexivity|].
  change (Strings.Join ((a :: b :: l) ++ [name]) "/")
    with (a +:+ "/" +:+ Strings.Join ((b :: l) ++ [name]) "/").
  rewrite IH.
  change (Strings.Join (a :: b :: l) "/") with (a +:+ "/" +:+ Strings.Join (b :: l) "/").
  rewrite ?append_assoc. reflexivity.
Qed.

Lemma cleanStep_plain rooted stack name :
  plainName name = true -> Filepath.cleanStep rooted stack name = name :: stack.
Proof.
  unfold plainName. intros Hp. apply andb_prop in Hp as [Hne _].
  apply negb_true_iff in Hne.
  apply orb_false_elim in Hne as [Hne Hdd]. apply orb_false_elim in Hne as [Hempty Hdot].
  unfold Filepath.cleanStep. rewrite Hempty, Hdot, Hdd. reflexivity.
Qed.

(** A cleaned path whose last element is a plain name ends with that
    name, after a separator or at the start. *)
Lemma Clean_last_element s name :
  plainName name = true ->
  exists prefix,
    Filepath.Clean (s +:+ String Filepath.Separator name) = prefix +:+ name
    /\ (prefix = "" \/ exists q, prefix = q +:+ "/").
Proof.
  intros Hp. pose proof Hp as Hcount. unfold plainName in Hcount.
  apply andb_prop in Hcount as [_ Hcount]. apply Nat.eqb_eq in Hcount.
  unfold Filepath.Clean. rewrite Split_app_plain by exact Hcount.
  rewrite fold_left_app.
  set (rooted := Filepath.isRooted _).
  set (stack := fold_left (Filepath.cleanStep rooted) _ []).
  change (fold_left (Filepath.cleanStep rooted) [name] stack)
    with (Filepath.cleanStep rooted stack name).
  rewrite cleanStep_plain by exact Hp.
  change (rev (name :: stack)) with (rev stack ++ [name]).
  rewrite Join_snoc.
  destruct rooted.
  - destruct (rev stack) as [|a l] eqn:E.
    + exists "/". split; [reflexivity|]. right. exists "". reflexivity.
    + exists ("/" +:+ Strings.Join (a :: l) "/" +:+ "/"). split.
      * rewrite ?append_assoc. reflexivity.
      * right. exists ("/" +:+ Strings.Join (a :: l) "/").
        rewrite ?append_assoc. reflexivity.
  - destruct (rev stack) as [|a l] eqn:E.
    + exists "". split; [reflexivity|]. left. reflexivity.
    + exists (Strings.Join (a :: l) "/" +:+ "/"). split.
      * rewrite ?append_assoc. reflexivity.
      * right. exists (Strings.Join (a :: l) "/"). reflexivity.
Qed.

Lemma scanExt_decided a b :
  Filepath.scanExt b <> Filepath.Undecided ->
  Filepath.scanExt (a +:+ b) = Filepath.scanExt b.
Proof.
  intros Hb. induction a as [|c a IH]; simpl; [reflexivity|].
  rewrite IH. destruct (Filepath.scanExt b); [congruence|reflexivity|reflexivity].
Qed.

Lemma scanExt_after_separator q name :
  Filepath.scanExt name = Filepath.Undecided ->
  Filepath.scanExt (q +:+ "/" +:+ name) = Filepath.NoExt.
Proof.
  intros Hn.
  assert (H : Filepath.scanExt ("/" +:+ name) = Filepath.NoExt).
  { change ("/" +:+ name) with (String "/" name).
    cbn [Filepath.scanExt]. rewrite Hn. reflexivity. }
  rewrite scanExt_decided; [exact H|]. rewrite H. discriminate.
Qed.

Lemma Ext_last_element prefix name :
  prefix = "" \/ (exists q, prefix = q +:+ "/") ->
  Filepath.Ext (prefix +:+ name) = Filepath.Ext name.
Proof.
  intros [-> | [q ->]]; [reflexivity|].
  unfold Filepath.Ext.
  destruct (Filepath.scanExt name) eqn:E.
  - rewrite append_assoc, scanExt_after_separator by exact E. reflexivity.
  - rewrite (scanExt_decided (q +:+ "/") name), E by (rewrite E; discriminate). reflexivity.
  - rewrite (scanExt_decided (q +:+ "/") name), E by (rewrite E; discriminate). reflexivity.
Qed.

Lemma Clean_plain name :
  plainName name = true -> Filepath.Clean name = name.
Proof.
  intros Hp. pose proof Hp as Hp'. unfold plainName in Hp.
  apply andb_prop in Hp as [Hne Hcount].
  apply Nat.eqb_eq in Hcount. apply negb_true_iff in Hne.
  apply orb_false_elim in Hne as [Hne Hdd]. apply orb_false_elim in Hne as [Hempty Hdot].
  unfold Filepath.Clean, Strings.Split. rewrite cut_plain by exact Hcount. simpl.
  unfold Filepath.cleanStep. rewrite Hempty, Hdot, Hdd. simpl.
  destruct name as [|c r]; [discriminate|]. simpl.
  destruct (Filepath.IsPathSeparator c) eqn:Hc; [|reflexivity].
  unfold Filepath.IsPathSeparator in Hc. simpl in Hcount. rewrite Hc in Hcount. discriminate.
Qed.

Lemma Ext_Join_plain dir name :
  plainName name = true ->
  Filepath.Ext (Filepath.Join dir name) = Filepath.Ext name.
Proof.
  intros Hp. unfold Filepath.Join. destruct (String.eqb dir "") eqn:Hd.
  - assert (Hn : String.eqb name "" = false).
    { unfold plainName in Hp. destruct (String.eqb name ""); [discriminate|reflexivity]. }
    rewrite Hn, Clean_plain by exact Hp. reflexivity.
  - destruct (Clean_last_element dir name Hp) as (prefix & Hc & Hshape).
    change (dir +:+ "/" +:+ name) with (dir +:+ String Filepath.Separator name).
    rewrite Hc. apply Ext_last_element, Hshape.
Qed.

(** X9: the extension of a joined path. For every directory path and every
    entry name (not empty, not [.] or [..], without a separator), the
    extension of the joined path is the extension of the name: the
    cleaning done by [filepath.Join] never changes it, whatever dots the
    directory path holds. So the binary check of [processPath], made on
    the joined path the walk hands it, is decided by the name of the file:
    for a file that no rule excludes, a name with a binary extension gives
    the log line and a nil return with no size query, and any other name
    gives the size query as the next call to the outside. *)
Theorem Ext_Join_name env dir name info s :
  plainName name = true ->
  let path := Filepath.Join dir name in
  let gitMatcher := fst (findMatcherForDir env (Filepath.Dir path) s) in
  let s1 := snd (findMatcherForDir env (Filepath.Dir path) s) in
  Filepath.Ext path = Filepath.Ext name
  /\ isBinaryExt (Filepath.Ext path) = isBinaryExt (Filepath.Ext name)
  /\ (matches gitMatcher path || matches (cliIgnoreMatcher (gen s1)) path = false ->
      (isBinaryExt (Filepath.Ext name) = true ->
       processPath env path (Some (File name info)) None s
       = (None, {| gen := gen s1; trace := trace s1 ++ [EvLog (SkippingBinary path)] |}))
      /\ (isBinaryExt (Filepath.Ext name) = false ->
          exists t,
            trace (snd (processPath env path (Some (File name info)) None s))
            = trace s1 ++ EvInfo path :: t)).
Proof.
  intros Hp path gitMatcher s1. pose proof (Ext_Join_plain dir name Hp) as H.
  fold path in H.
  split; [exact H|]. split; [rewrite H; reflexivity|].
  intros Hfree. rewrite processPath_file_eq.
  fold gitMatcher. fold s1. unfold afterResolver. cbv zeta. rewrite Hfree, H.
  split; intros Hbin; rewrite Hbin.
  - reflexivity.
  - destruct info as [size|]; [|eexists; reflexivity].
    destruct (tooLarge (gen s1) size); [eexists; reflexivity|].
    destruct (overBudget (gen s1) size); [eexists; reflexivity|].
    destruct (ReadFile env path); eexists; reflexivity.
Qed.

Lemma Ext_Join_name_witness :
  Filepath.Ext (Filepath.Join "v1.2/./src/../proj" "b.png") = ".png"
  /\ fst (processPath plainEnv (Filepath.Join "v1.2/./src/../proj" "b.png")
            (Some (File "b.png" (Some 100%Z))) None (freshState "v1.2/proj")) = None
  /\ trace (snd (processPath plainEnv (Filepath.Join "v1.2/./src/../proj" "b.png")
                   (Some (File "b.png" (Some 100%Z))) None (freshState "v1.2/proj")))
     = [EvStat "v1.2/proj/.gitignore"; EvLog (SkippingBinary "v1.2/proj/b.png")].
Proof.
  destruct (Ext_Join_name plainEnv "v1.2/./src/../proj" "b.png" (Some 100%Z)
              (freshState "v1.2/proj") eq_refl) as (Hext & _ & Hcheck).
  destruct (Hcheck eq_refl) as (Hbin & _).
  rewrite Hext, (Hbin eq_refl). repeat split.
Defined.

(** ** What [run] sets up *)

(** X10: the summary of a run. Whatever the source directory, when its
    [README.md] can be read the builder starts with that content as
    summary, labelled [markdown] and with an empty path; when it cannot,
    the builder has no summary. Either way the builder is named after the
    last element of the source directory and starts with no file. *)
Theorem readme_is_the_summary env cfg :
  let named := Builder.SetProjectName (Filepath.Base (SrcDir cfg)) (selectBuilder (Format cfg)) in
  builderFor env cfg =
    match ReadFile env (Filepath.Join (SrcDir cfg) "README.md") with
    | Some content =>
        Builder.SetSummary {| Path := ""; Content := content; Language := "markdown" |} named
    | None => named
    end
  /\ Builder.files (builderFor env cfg) = [].
Proof.
  intros named. split.
  - unfold builderFor. fold named.
    destruct (ReadFile env (Filepath.Join (SrcDir cfg) "README.md")); [|reflexivity].
    unfold getFileLanguage. rewrite Ext_Join_plain by reflexivity. reflexivity.
  - apply files_builderFor.
Qed.

Lemma provided_keeps env opt g :
  provided env opt ->
  matcherCache (opt g) = matcherCache g /\ currentTotalSize (opt g) = currentTotalSize g.
Proof.
  intros [patterns | b | dir | kb | mb]; try (split; reflexivity).
  unfold WithCliIgnore. destruct (String.eqb patterns ""); split; reflexivity.
Qed.

(** X11: a new generator starts clean. Whatever options of the package are
    given, in whatever order and number, the generator [NewGenerator]
    returns has an empty matcher cache and a running total of zero; so
    every scan starts from a state in which the cache holds no stale
    entry. *)
Theorem NewGenerator_starts_clean env opts :
  Forall (provided env) opts ->
  matcherCache (NewGenerator opts) = ∅
  /\ currentTotalSize (NewGenerator opts) = 0%Z
  /\ forall t, coherent env {| gen := NewGenerator opts; trace := t |}.
Proof.
  intros Hall. unfold NewGenerator.
  set (g0 := {| builder := Default_ DefaultBuilder.New; cliIgnoreMatcher := None;
                srcDir := ""; maxSizeBytes := 0; totalSizeLimit := 0;
                currentTotalSize := 0; matcherCache := ∅ |}).
  assert (H : forall g, matcherCache g = ∅ -> currentTotalSize g = 0%Z ->
            matcherCache (fold_left (fun g opt => opt g) opts g) = ∅
            /\ currentTotalSize (fold_left (fun g opt => opt g) opts g) = 0%Z).
  { induction Hall as [|opt opts Hopt _ IH]; intros g Hc Ht; simpl; [auto|].
    destruct (provided_keeps env opt g Hopt) as [Hc' Ht'].
    apply IH; congruence. }
  destruct (H g0 eq_refl eq_refl) as [Hc Ht].
  split; [exact Hc|]. split; [exact Ht|].
  intros t d m. simpl. rewrite Hc, lookup_empty. discriminate.
Qed.

Lemma NewGenerator_starts_clean_witness :
  matcherCache (generatorFor plainEnv budgetCfg) = ∅
  /\ currentTotalSize (generatorFor plainEnv budgetCfg) = 0%Z
  /\ forall t, coherent plainEnv {| gen := generatorFor plainEnv budgetCfg; trace := t |}.
Proof.
  apply (NewGenerator_starts_clean plainEnv
           [WithBuilder (builderFor plainEnv budgetCfg); WithSrcDir (SrcDir budgetCfg);
            WithCliIgnore plainEnv (IgnoreCli budgetCfg);
            WithMaxSize (MaxSizeKB budgetCfg);
            WithTotalSizeLimit (MaxTotalSizeMB budgetCfg)]).
  repeat constructor.
Defined.

Lemma wrap64_exact z : (minInt64 <= z <= maxInt64)%Z -> wrap64 z = z.
Proof.
  intros H. pose proof (add64_exact z 0) as E. unfold add64 in E.
  rewrite Z.add_0_r in E. apply E. exact H.
Qed.

(** X12: the units of the two ceilings. For a number of kilobytes and a
    number of megabytes whose conversions fit [int64], the ceilings are
    held in bytes (times 1024, times 1048576); a file is over the per-file
    ceiling exactly when the number of kilobytes is positive and the size
    is above that many bytes, and a number that is zero or negative turns
    the corresponding check off for every size. *)
Theorem ceilings_in_bytes kb mb g :
  (minInt64 <= kb * 1024 <= maxInt64)%Z ->
  (minInt64 <= mb * 1048576 <= maxInt64)%Z ->
  let g' := WithTotalSizeLimit mb (WithMaxSize kb g) in
  maxSizeBytes g' = (kb * 1024)%Z
  /\ totalSizeLimit g' = (mb * 1048576)%Z
  /\ (forall size, tooLarge g' size = (0 <? kb)%Z && (kb * 1024 <? size)%Z)
  /\ (forall size, (kb <= 0)%Z -> tooLarge g' size = false)
  /\ (forall size, (mb <= 0)%Z -> overBudget g' size = false).
Proof.
  intros Hkb Hmb g'.
  assert (Hmax : maxSizeBytes g' = (kb * 1024)%Z).
  { subst g'. simpl. unfold mul64. apply wrap64_exact. exact Hkb. }
  assert (Htot : totalSizeLimit g' = (mb * 1048576)%Z).
  { subst g'. simpl. unfold mul64.
    rewrite (wrap64_exact (mb * 1024)) by (unfold minInt64, maxInt64 in *; lia).
    rewrite wrap64_exact by (unfold minInt64, maxInt64 in *; lia). lia. }
  split; [exact Hmax|]. split; [exact Htot|].
  unfold tooLarge, overBudget. rewrite Hmax, Htot.
  split; [|split].
  - intros size. f_equal. destruct (Z.ltb_spec 0 (kb * 1024)), (Z.ltb_spec 0 kb); lia || reflexivity.
  - intros size Hle. destruct (Z.ltb_spec 0 (kb * 1024)); [lia|reflexivity].
  - intros size Hle. destruct (Z.ltb_spec 0 (mb * 1048576)); [lia|reflexivity].
Qed.

Lemma ceilings_in_bytes_witness :
  maxSizeBytes (generatorFor plainEnv budgetCfg) = 2097152%Z
  /\ totalSizeLimit (generatorFor plainEnv budgetCfg) = 1048576%Z.
Proof.
  destruct (ceilings_in_bytes 2048 1
              (NewGenerator [WithBuilder (builderFor plainEnv budgetCfg);
                             WithSrcDir (SrcDir budgetCfg);
                             WithCliIgnore plainEnv (IgnoreCli budgetCfg)]))
    as (Hmax & Htot & _).
  - split; discriminate.
  - split; discriminate.
  - split; [exact Hmax | exact Htot].
Defined.

(** ** The stages of [run] *)

(** X13: the stages of [run]. [run] returns no error only when the walk
    ended without one, the builder rendered a document and the copy to the
    output succeeded; an error of the walk is returned as it is; and
    nothing reaches the output unless both the walk and the rendering
    succeeded. The document is rendered from the builder [run] set up
    (name and summary as given at the start) with the files of the walk
    added. *)
Theorem run_stages env cfg :
  let walk := Walk env (startOf env cfg) in
  let build := Builder.Build (engine env) (builder (gen (snd walk))) in
  final (run env cfg) = snd walk
  /\ (exists added, builder (gen (snd walk)) = addAll added (builderFor env cfg))
  /\ (forall e, fst walk = Some e ->
        returned (run env cfg) = Some e /\ written (run env cfg) = "")
  /\ (forall e, fst walk = None -> build = Err e ->
        returned (run env cfg) = Some e /\ written (run env cfg) = "")
  /\ (returned (run env cfg) = None ->
        fst walk = None
        /\ exists doc, build = Ok doc /\ Copy env doc = (written (run env cfg), None))
  /\ (written (run env cfg) <> "" ->
        fst walk = None
        /\ exists doc, build = Ok doc /\ written (run env cfg) = fst (Copy env doc)).
Proof.
  intros walk build.
  assert (Hrun : run env cfg =
            match walk with
            | (Some err, s) => {| returned := Some err; written := ""; final := s |}
            | (None, s) =>
                match Builder.Build (engine env) (builder (gen s)) with
                | Err err => {| returned := Some err; written := ""; final := s |}
                | Ok doc =>
                    let '(w, err) := Copy env doc in
                    {| returned := err; written := w; final := s |}
                end
            end) by reflexivity.
  assert (Hadd : exists added, builder (gen (snd walk)) = addAll added (builderFor env cfg)).
  { destruct (Walk_outcome env (startOf env cfg) (startOf_coherent env cfg))
      as (s1 & Hcall & Hadv).
    subst walk. rewrite Hcall. cbn [snd]. destruct Hadv as (c' & t' & -> & _).
    unfold withCache. cbn [gen builder].
    destruct (outcome_builder env (rootScan env (gen (startOf env cfg))) (gen (startOf env cfg)))
      as (added & Hb).
    exists added. rewrite Hb. f_equal. apply (generatorFor_fields env cfg). }
  subst build. rewrite Hrun. clear Hrun.
  destruct walk as [[e0|] s1]; simpl in *.
  - split; [reflexivity|]. split; [exact Hadd|].
    split; [intros e [= <-]; split; reflexivity|].
    split; [intros e H; discriminate|].
    split; [discriminate|].
    intros H. contradiction H. reflexivity.
  - destruct (Builder.Build (engine env) (builder (gen s1))) as [doc|e1]; simpl.
    + destruct (Copy env doc) as [w err] eqn:Hcopy. simpl.
      split; [reflexivity|]. split; [exact Hadd|].
      split; [intros e H; discriminate|].
      split; [intros e _ H; discriminate|].
      split.
      * intros ->. split; [reflexivity|]. exists doc. split; [reflexivity | exact Hcopy].
      * intros _. split; [reflexivity|]. exists doc. rewrite Hcopy. split; reflexivity.
    + split; [reflexivity|]. split; [exact Hadd|].
      split; [intros e H; discriminate|].
      split; [intros e _ [= <-]; split; reflexivity|].
      split; [discriminate|].
      intros H. contradiction H. reflexivity.
Qed.

(** ** The numbered lines of the review format *)

Lemma Count_append a b c :
  Strings.Count (a +:+ b) c = Strings.Count a c + Strings.Count b c.
Proof.
  induction a as [|x a IH]; [reflexivity|].
  change (String x a +:+ b) with (String x (a +:+ b)). simpl. rewrite IH. lia.
Qed.

Lemma spaces_colonFree n : colonFree (Strings.spaces n).
Proof. induction n as [|n IH]; [reflexivity|]. unfold colonFree in *. simpl. exact IH. Qed.

Lemma digit_not_colon z : (0 <= z < 10)%Z -> Ascii.eqb (Fmt.digit z) ":"%char = false.
Proof.
  intros Hz.
  assert (H : (z = 0 \/ z = 1 \/ z = 2 \/ z = 3 \/ z = 4 \/ z = 5 \/ z = 6 \/ z = 7
               \/ z = 8 \/ z = 9)%Z) by lia.
  repeat (destruct H as [-> | H]; [reflexivity|]). subst z. reflexivity.
Qed.

Lemma digits_colonFree z acc :
  (0 <= z)%Z -> colonFree acc -> colonFree (Fmt.digits z acc).
Proof.
  funelim (Fmt.digits z acc); clear Heqcall; forget_inspected; intros Hz Hacc.
  - apply Z.ltb_lt in e. unfold colonFree in *. simpl.
    rewrite digit_not_colon by lia. exact Hacc.
  - apply Z.ltb_ge in Hge. apply H.
    + apply Z.div_pos; lia.
    + unfold colonFree in *. simpl.
      rewrite digit_not_colon by (apply Z.mod_pos_bound; lia). exact Hacc.
Qed.

Lemma d4_colonFree z : (0 <= z)%Z -> colonFree (Fmt.d4 z).
Proof.
  intros Hz. unfold Fmt.d4, Fmt.padLeft, colonFree. rewrite Count_append.
  rewrite spaces_colonFree. unfold Fmt.decimal.
  replace (z <? 0)%Z with false by (symmetry; apply Z.ltb_ge; lia).
  apply digits_colonFree; [exact Hz | reflexivity].
Qed.

Lemma lineText_numbered prefix line :
  colonFree prefix -> lineText (prefix +:+ ": " +:+ line) = line.
Proof.
  unfold colonFree. induction prefix as [|c p IH]; intros Hp; [reflexivity|].
  change (String c p +:+ ": " +:+ line) with (String c (p +:+ ": " +:+ line)).
  simpl in *. destruct (Ascii.eqb c ":"); [discriminate|]. apply IH. exact Hp.
Qed.

Lemma lineText_numberFrom lines :
  forall i, (0 <= i)%Z -> map lineText (ReviewBuilder.numberFrom i lines) = lines.
Proof.
  induction lines as [|l ls IH]; intros i Hi; [reflexivity|].
  cbn [ReviewBuilder.numberFrom map].
  rewrite lineText_numbered by (apply d4_colonFree; lia).
  rewrite IH by lia. reflexivity.
Qed.

Lemma Join_Split s sep :
  Strings.Join (Strings.Split s sep) (String sep "") = s.
Proof.
  unfold Strings.Split. induction s as [|c r IH]; [reflexivity|].
  simpl. destruct (Strings.cut sep r) as [h t].
  destruct (Ascii.eqb_spec c sep) as [->|Hne].
  - change (Strings.Join ("" :: h :: t) (String sep ""))
      with (String sep (Strings.Join (h :: t) (String sep ""))).
    rewrite IH. reflexivity.
  - destruct t as [|x t].
    + simpl in *. rewrite IH. reflexivity.
    + change (Strings.Join (String c h :: x :: t) (String sep ""))
        with (String c (Strings.Join (h :: x :: t) (String sep ""))).
      rewrite IH. reflexivity.
Qed.

(** X14: the numbering loses nothing. For every file given to the review
    builder, dropping the number, the colon and the blank from each
    numbered line gives back the lines of the content, and joining them
    with line feeds gives back the content; path and language are passed
    on unchanged. *)
Theorem numbering_is_lossless (file : FileData) :
  let review := ReviewBuilder.reviewFile file in
  map lineText (Lines review) = Strings.Split (Content file) Strings.newline
  /\ Strings.Join (map lineText (Lines review)) (String Strings.newline "") = Content file
  /\ RPath review = Path file
  /\ RLanguage review = Language file.
Proof.
  intros review.
  assert (H : map lineText (Lines review) = Strings.Split (Content file) Strings.newline).
  { subst review. unfold ReviewBuilder.reviewFile, ReviewBuilder.numberedLines. simpl.
    apply lineText_numberFrom. lia. }
  split; [exact H|]. rewrite H, Join_Split. auto.
Qed.

(** ** The resolver of the earlier version *)

(** X15: the earlier resolver. The earlier version of [findMatcherForDir]
    returns exactly when the directory is cached, or holds a rules file
    that parses, or is the scan root; then it returns at the first call.
    For any other directory (a subdirectory without rules of its own, not
    yet cached) no number of calls is enough: each call probes the same
    directory again and calls itself on it. *)
Theorem earlier_resolver_returns_only_at_rules_or_root env dir s :
  let here := matcherCache (gen s) !! dir <> None
              \/ rulesIn env dir <> None
              \/ isScanRoot (srcDir (gen s)) dir = true in
  (here -> exists r, forall calls, Earlier.findMatcherForDir (S calls) env dir s = Some r)
  /\ (~ here -> forall calls, Earlier.findMatcherForDir calls env dir s = None)
  /\ (~ here -> forall calls,
        Earlier.findMatcherForDir (S calls) env dir s =
        match Earlier.findMatcherForDir calls env dir
                (snd (lookForIgnoreFile env dir s)) with
        | Some (parentMatcher, s2) => Some (parentMatcher, cacheMatcher dir parentMatcher s2)
        | None => None
        end).
Proof.
  intros here.
  assert (Hstep : ~ here -> forall calls s0,
            gen s0 = gen s ->
            Earlier.findMatcherForDir (S calls) env dir s0 =
            match Earlier.findMatcherForDir calls env dir
                    (snd (lookForIgnoreFile env dir s0)) with
            | Some (parentMatcher, s2) => Some (parentMatcher, cacheMatcher dir parentMatcher s2)
            | None => None
            end).
  { intros Hnot calls s0 Hgen. subst here.
    cbn [Earlier.findMatcherForDir]. rewrite Hgen.
    destruct (matcherCache (gen s) !! dir) as [m|] eqn:Hc.
    { exfalso. apply Hnot. left. discriminate. }
    rewrite lookFor_eq. cbn [snd].
    destruct (rulesIn env dir) as [m|] eqn:Hr.
    { exfalso. apply Hnot. right. left. discriminate. }
    unfold atScanRoot. cbn [gen]. rewrite Hgen.
    destruct (isScanRoot (srcDir (gen s)) dir) eqn:Hroot.
    { exfalso. apply Hnot. right. right. reflexivity. }
    reflexivity. }
  split; [|split].
  - intros Hhere. subst here.
    destruct (matcherCache (gen s) !! dir) as [m|] eqn:Hc.
    { exists (m, s). intros calls. cbn [Earlier.findMatcherForDir]. rewrite Hc. reflexivity. }
    destruct (rulesIn env dir) as [m|] eqn:Hr.
    { eexists. intros calls. cbn [Earlier.findMatcherForDir]. rewrite Hc, lookFor_eq, Hr.
      reflexivity. }
    destruct Hhere as [H | [H | H]]; try congruence.
    eexists. intros calls. cbn [Earlier.findMatcherForDir]. rewrite Hc, lookFor_eq, Hr.
    unfold atScanRoot. cbn [gen]. rewrite H. reflexivity.
  - intros Hnot calls.
    assert (H : forall s0, gen s0 = gen s -> Earlier.findMatcherForDir calls env dir s0 = None).
    { induction calls as [|calls IH]; intros s0 Hgen; [reflexivity|].
      rewrite (Hstep Hnot calls s0 Hgen), IH; [reflexivity|].
      rewrite lookFor_eq. exact Hgen. }
    apply H. reflexivity.
  - intros Hnot calls. apply Hstep; [exact Hnot | reflexivity].
Qed.

(** ** The two tables of extensions *)

(** X16: binary extensions have no language. A path whose extension is in
    the binary set gets no language label from [getFileLanguage]: the two
    tables of the program share no extension, so no file that would be
    labelled is refused as binary. *)
Theorem binary_extensions_have_no_language path :
  isBinaryExt (Filepath.Ext path) = true -> getFileLanguage path = "".
Proof.
  unfold isBinaryExt, getFileLanguage. intros H.
  apply existsb_exists in H as (ext & Hin & Heq).
  apply String.eqb_eq in Heq. rewrite Heq. clear Heq.
  unfold binaryExts in Hin. simpl in Hin.
  repeat (destruct Hin as [<- | Hin]; [reflexivity|]). contradiction.
Qed.

Lemma binary_extensions_have_no_language_witness :
  getFileLanguage "assets/logo.v2.png" = "".
Proof.
  apply (binary_extensions_have_no_language "assets/logo.v2.png"). reflexivity.
Defined.
